(** * Sampling engine of the macOS performance monitor

    A shallow embedding of [macos_performance_monitor.py]: the stateful
    methods of [MacOSPerformanceMonitor] that turn cumulative counters into
    rates, cache the temperature probe, keep bounded histories and rank the
    process table.

    Conventions of the embedding.
    - Python [int] is [Z].  Python [float] is idealised as an exact rational
      [Q]: every float is a rational, comparisons agree, and the arithmetic
      rounding error of the hardware is left out.  Equalities between computed
      floats are therefore stated with [==].
    - [time.time()] is an argument [now] of the method that reads it.
    - What [psutil] and [subprocess] hand back is an argument too, given as an
      [outcome]: a value or a raised exception.
    - A method is a computation in the monad [M]: it reads and writes the
      monitor ([self]), may raise, and logs every state write and every
      externally visible action in order. *)

From Stdlib Require Import String ZArith QArith Qround Qabs List Lia Lqa Bool.
From Stdlib Require Import Permutation Sorted.
Import ListNotations.

Set Implicit Arguments.
Open Scope Q_scope.

(** ** Python floats and builtins *)

Module Py.

(** [max(a, b)]: the first argument unless the second is strictly larger. *)
Definition max (a b : Q) : Q := if Qle_bool b a then a else b.

(** Nearest integer, ties to the even one. *)
Definition round_half_even (x : Q) : Z :=
  let f := Qfloor x in
  match Qcompare (x - inject_Z f) (1 # 2) with
  | Lt => f
  | Gt => (f + 1)%Z
  | Eq => if Z.even f then f else (f + 1)%Z
  end.

(** [round(x, 2)]. *)
Definition round2 (x : Q) : Q := inject_Z (round_half_even (x * 100)) / 100.

(** [l[:num]]: a negative bound counts from the end. *)
Definition slice_to {A : Type} (l : list A) (num : Z) : list A :=
  if (num <? 0)%Z
  then firstn (Z.to_nat (Z.of_nat (length l) + num)) l
  else firstn (Z.to_nat num) l.

(** [x or 0.0] on an optional float: [None] and [0.0] both give [0.0]. *)
Definition or_zero (x : option Q) : Q :=
  match x with
  | Some v => if Qeq_bool v 0 then 0 else v
  | None => 0
  end.

(** [collections.deque(maxlen=k)]. *)
Record deque (A : Type) : Type := { maxlen : nat; items : list A }.

Definition deque_new (A : Type) (k : nat) : deque A :=
  {| maxlen := k; items := [] |}.

(** [d.append(x)]: append on the right, then drop from the left while the
    bound is exceeded. *)
Definition append {A : Type} (d : deque A) (x : A) : deque A :=
  let l := items d ++ [x] in
  {| maxlen := maxlen d;
     items := if (maxlen d <? length l)%nat then tl l else l |}.

(** [list.sort(key=key, reverse=True)]: a stable sort, largest key first.
    An element is placed before the first one whose key is not larger, so
    that equal keys stay in their original order. *)
Section Sort.
Variable A : Type.
Variable key : A -> Q.

Fixpoint insert_desc (x : A) (l : list A) : list A :=
  match l with
  | [] => [x]
  | y :: l' =>
      if Qle_bool (key y) (key x) then x :: l else y :: insert_desc x l'
  end.

Definition sort_desc (l : list A) : list A := fold_right insert_desc [] l.
End Sort.

End Py.

(** ** Exceptions and outcomes *)

Inductive exn : Type :=
| PermissionError
| FileNotFoundError
| TimeoutExpired
| CalledProcessError
| NoSuchProcess
| AccessDenied
| ZombieProcess
| AttributeError
| TypeError
| OtherError.

Definition exn_eqb (a b : exn) : bool :=
  match a, b with
  | PermissionError, PermissionError
  | FileNotFoundError, FileNotFoundError
  | TimeoutExpired, TimeoutExpired
  | CalledProcessError, CalledProcessError
  | NoSuchProcess, NoSuchProcess
  | AccessDenied, AccessDenied
  | ZombieProcess, ZombieProcess
  | AttributeError, AttributeError
  | TypeError, TypeError
  | OtherError, OtherError => true
  | _, _ => false
  end.

Inductive outcome (A : Type) : Type :=
| Val (a : A)
| Raise (e : exn).

Arguments Val {A} a.
Arguments Raise {A} e.

(** ** What psutil and subprocess return *)

Module psutil.

(** [net_io_counters()]. *)
Record snetio : Type := {
  bytes_sent : Z;
  bytes_recv : Z;
  packets_sent : Z;
  packets_recv : Z
}.

(** [disk_io_counters()], when there is a disk. *)
Record sdiskio : Type := {
  read_bytes : Z;
  write_bytes : Z;
  read_count : Z;
  write_count : Z
}.

(** One entry of [disk_partitions()], with what [disk_usage(mountpoint)]
    does for it. *)
Record sdiskusage : Type := { total : Z; used : Z; free : Z; percent : Q }.

Record sdiskpart : Type := {
  device : string;
  mountpoint : string;
  fstype : string;
  disk_usage : outcome sdiskusage
}.

(** [sensors_battery()], when there is a battery. *)
Record sbattery : Type := {
  bat_percent : Q;
  secsleft : Z;
  power_plugged : bool
}.

Definition POWER_TIME_UNLIMITED : Z := (-2)%Z.

(** One process as [process_iter(attrs)] yields it.  psutil fills [proc.info]
    while it iterates, through [as_dict(attrs, ad_value=None)]: an attribute
    whose read fails with AccessDenied or ZombieProcess is [None] in the
    dict, and a process that has vanished is not yielded at all.  So [name],
    [username], [memory_percent] and the CPU reading are optional, [None]
    standing for a read psutil was denied.  [cpu_busy] is what
    [cpu_percent()] reports once a baseline exists for the process; a first
    read reports 0.0 and only sets the baseline.  [prime_fault] is the
    exception [p.cpu_percent(None)] raises, if any, in the priming pass.
    [read_fault] is the exception raised, if any, by the look-ups in the
    try block of the ranking loop: with the dict filled as above they find
    every key, so it is [None] for the tables psutil produces; the field
    lets the statements also cover the case the loop's except clause is
    written for. *)
Record process : Type := {
  pid : Z;
  name : option string;
  username : option string;
  cpu_busy : option Q;
  memory_percent : option Q;
  prime_fault : option exn;
  read_fault : option exn
}.

End psutil.

(** [subprocess.run] of the powermetrics command.  The text of a line is not
    modelled: a line carrying the marker 'CPU die temperature' is given with
    the float parsed from it, or [None] when the parsing block raises. *)
Inductive stdout_line : Type :=
| OtherLine
| TempLine (parsed : option Q).

Record completed_process : Type := {
  returncode : Z;
  stdout : list stdout_line
}.

(** ** The monitor *)

Record Monitor : Type := {
  _prev_net_io : psutil.snetio;
  _prev_disk_io : option psutil.sdiskio;
  _prev_sample_ts : Q;
  _last_temp : option Q;          (* [{'cpu_temp_c': t}] is [Some t] *)
  _last_temp_ts : Q;
  enable_temps : bool;
  temp_refresh_seconds : Q;
  _proc_prime_ts : Q;
  history_size : nat;
  cpu_history : Py.deque Q;
  memory_history : Py.deque Q;
  network_history : Py.deque Q
}.

(** The monitor together with the part of psutil's own state the methods
    depend on: the pids whose CPU accounting has a baseline. *)
Record World : Type := {
  self : Monitor;
  cpu_baseline : list Z
}.

Inductive field : Type :=
| F_prev_net_io
| F_prev_disk_io
| F_prev_sample_ts
| F_last_temp
| F_last_temp_ts
| F_proc_prime_ts
| F_cpu_history
| F_memory_history
| F_network_history.

(** What a method does besides returning, in program order. *)
Inductive event : Type :=
| Store (f : field)        (* a write to the state held by [self] *)
| Probe                    (* [subprocess.run] of powermetrics *)
| PrimeRead (p : Z)        (* the throwaway [p.cpu_percent(None)] *)
| Sleep.                   (* [time.sleep(0.2)] *)

Definition is_probe (e : event) : bool :=
  match e with Probe => true | _ => false end.

Definition is_priming (e : event) : bool :=
  match e with PrimeRead _ | Sleep => true | _ => false end.

(** ** The monad of methods *)

Definition M (A : Type) : Type := World -> outcome A * World * list event.

Definition ret {A : Type} (a : A) : M A := fun w => (Val a, w, []).

Definition bind {A B : Type} (c : M A) (k : A -> M B) : M B :=
  fun w =>
    match c w with
    | (Val a, w1, ev1) =>
        match k a w1 with
        | (r, w2, ev2) => (r, w2, ev1 ++ ev2)
        end
    | (Raise e, w1, ev1) => (Raise e, w1, ev1)
    end.

Definition raise {A : Type} (e : exn) : M A := fun w => (Raise e, w, []).

Definition emit (e : event) : M unit := fun w => (Val tt, w, [e]).

Definition get_self : M Monitor := fun w => (Val (self w), w, []).

(** [try: c except (caught): h]. *)
Definition try_except {A : Type} (c : M A) (caught : list exn) (h : M A) : M A :=
  fun w =>
    match c w with
    | (Raise e, w1, ev1) =>
        if existsb (exn_eqb e) caught
        then match h w1 with
             | (r, w2, ev2) => (r, w2, ev1 ++ ev2)
             end
        else (Raise e, w1, ev1)
    | r => r
    end.

Declare Scope monad_scope.
Delimit Scope monad_scope with monad.
Notation "x <- c ;; k" := (bind c (fun x => k))
  (at level 61, c at next level, right associativity) : monad_scope.
Notation "c ;; k" := (bind c (fun _ => k))
  (at level 61, right associativity) : monad_scope.
Open Scope monad_scope.

Definition result {A : Type} (r : outcome A * World * list event) : outcome A :=
  fst (fst r).
Definition world_after {A : Type} (r : outcome A * World * list event) : World :=
  snd (fst r).
Definition events {A : Type} (r : outcome A * World * list event) : list event :=
  snd r.

(** Attribute assignments [self.f = v]. *)
Definition with_self (w : World) (m : Monitor) : World :=
  {| self := m; cpu_baseline := cpu_baseline w |}.

Definition assign (f : field) (upd : Monitor -> Monitor) : M unit :=
  fun w => (Val tt, with_self w (upd (self w)), [Store f]).

Definition set_prev_net_io (v : psutil.snetio) : M unit :=
  assign F_prev_net_io (fun m =>
    {| _prev_net_io := v; _prev_disk_io := _prev_disk_io m;
       _prev_sample_ts := _prev_sample_ts m; _last_temp := _last_temp m;
       _last_temp_ts := _last_temp_ts m; enable_temps := enable_temps m;
       temp_refresh_seconds := temp_refresh_seconds m;
       _proc_prime_ts := _proc_prime_ts m; history_size := history_size m;
       cpu_history := cpu_history m; memory_history := memory_history m;
       network_history := network_history m |}).

Definition set_prev_disk_io (v : psutil.sdiskio) : M unit :=
  assign F_prev_disk_io (fun m =>
    {| _prev_net_io := _prev_net_io m; _prev_disk_io := Some v;
       _prev_sample_ts := _prev_sample_ts m; _last_temp := _last_temp m;
       _last_temp_ts := _last_temp_ts m; enable_temps := enable_temps m;
       temp_refresh_seconds := temp_refresh_seconds m;
       _proc_prime_ts := _proc_prime_ts m; history_size := history_size m;
       cpu_history := cpu_history m; memory_history := memory_history m;
       network_history := network_history m |}).

Definition set_prev_sample_ts (v : Q) : M unit :=
  assign F_prev_sample_ts (fun m =>
    {| _prev_net_io := _prev_net_io m; _prev_disk_io := _prev_disk_io m;
       _prev_sample_ts := v; _last_temp := _last_temp m;
       _last_temp_ts := _last_temp_ts m; enable_temps := enable_temps m;
       temp_refresh_seconds := temp_refresh_seconds m;
       _proc_prime_ts := _proc_prime_ts m; history_size := history_size m;
       cpu_history := cpu_history m; memory_history := memory_history m;
       network_history := network_history m |}).

Definition set_last_temp (v : option Q) : M unit :=
  assign F_last_temp (fun m =>
    {| _prev_net_io := _prev_net_io m; _prev_disk_io := _prev_disk_io m;
       _prev_sample_ts := _prev_sample_ts m; _last_temp := v;
       _last_temp_ts := _last_temp_ts m; enable_temps := enable_temps m;
       temp_refresh_seconds := temp_refresh_seconds m;
       _proc_prime_ts := _proc_prime_ts m; history_size := history_size m;
       cpu_history := cpu_history m; memory_history := memory_history m;
       network_history := network_history m |}).

Definition set_last_temp_ts (v : Q) : M unit :=
  assign F_last_temp_ts (fun m =>
    {| _prev_net_io := _prev_net_io m; _prev_disk_io := _prev_disk_io m;
       _prev_sample_ts := _prev_sample_ts m; _last_temp := _last_temp m;
       _last_temp_ts := v; enable_temps := enable_temps m;
       temp_refresh_seconds := temp_refresh_seconds m;
       _proc_prime_ts := _proc_prime_ts m; history_size := history_size m;
       cpu_history := cpu_history m; memory_history := memory_history m;
       network_history := network_history m |}).

Definition set_proc_prime_ts (v : Q) : M unit :=
  assign F_proc_prime_ts (fun m =>
    {| _prev_net_io := _prev_net_io m; _prev_disk_io := _prev_disk_io m;
       _prev_sample_ts := _prev_sample_ts m; _last_temp := _last_temp m;
       _last_temp_ts := _last_temp_ts m; enable_temps := enable_temps m;
       temp_refresh_seconds := temp_refresh_seconds m;
       _proc_prime_ts := v; history_size := history_size m;
       cpu_history := cpu_history m; memory_history := memory_history m;
       network_history := network_history m |}).

(** [self.cpu_history.append(v)] and its two siblings. *)
Definition append_cpu_history (v : Q) : M unit :=
  assign F_cpu_history (fun m =>
    {| _prev_net_io := _prev_net_io m; _prev_disk_io := _prev_disk_io m;
       _prev_sample_ts := _prev_sample_ts m; _last_temp := _last_temp m;
       _last_temp_ts := _last_temp_ts m; enable_temps := enable_temps m;
       temp_refresh_seconds := temp_refresh_seconds m;
       _proc_prime_ts := _proc_prime_ts m; history_size := history_size m;
       cpu_history := Py.append (cpu_history m) v;
       memory_history := memory_history m;
       network_history := network_history m |}).

Definition append_memory_history (v : Q) : M unit :=
  assign F_memory_history (fun m =>
    {| _prev_net_io := _prev_net_io m; _prev_disk_io := _prev_disk_io m;
       _prev_sample_ts := _prev_sample_ts m; _last_temp := _last_temp m;
       _last_temp_ts := _last_temp_ts m; enable_temps := enable_temps m;
       temp_refresh_seconds := temp_refresh_seconds m;
       _proc_prime_ts := _proc_prime_ts m; history_size := history_size m;
       cpu_history := cpu_history m;
       memory_history := Py.append (memory_history m) v;
       network_history := network_history m |}).

Definition append_network_history (v : Q) : M unit :=
  assign F_network_history (fun m =>
    {| _prev_net_io := _prev_net_io m; _prev_disk_io := _prev_disk_io m;
       _prev_sample_ts := _prev_sample_ts m; _last_temp := _last_temp m;
       _last_temp_ts := _last_temp_ts m; enable_temps := enable_temps m;
       temp_refresh_seconds := temp_refresh_seconds m;
       _proc_prime_ts := _proc_prime_ts m; history_size := history_size m;
       cpu_history := cpu_history m;
       memory_history := memory_history m;
       network_history := Py.append (network_history m) v |}).

(** [MacOSPerformanceMonitor.__init__], given the counters and the clock it
    reads. *)
Definition init (net0 : psutil.snetio) (disk0 : option psutil.sdiskio)
    (start_time : Q) : Monitor :=
  {| _prev_net_io := net0; _prev_disk_io := disk0;
     _prev_sample_ts := start_time; _last_temp := None;
     _last_temp_ts := 0; enable_temps := false;
     temp_refresh_seconds := 5;
     _proc_prime_ts := 0; history_size := 20;
     cpu_history := Py.deque_new Q 20;
     memory_history := Py.deque_new Q 20;
     network_history := Py.deque_new Q 20 |}.

(** ** The methods *)

Definition lift {A : Type} (o : outcome A) : M A := fun w => (o, w, []).

Definition MiB : Q := 1048576.        (* 1024**2 *)
Definition GiB : Q := 1073741824.     (* 1024**3 *)
Definition epsilon : Q := 1 # 1000000. (* 1e-6 *)

Definition Qlt_bool (a b : Q) : bool := negb (Qle_bool b a).

(** *** get_network_info *)

Record net_report : Type := {
  bytes_sent_mib : Q;
  bytes_recv_mib : Q;
  send_rate_mib_s : Q;
  recv_rate_mib_s : Q;
  packets_sent : Z;
  packets_recv : Z
}.

(** [dt = max(now - self._prev_sample_ts, 1e-6)], shared by both families. *)
Definition dt (m : Monitor) (now : Q) : Q :=
  Py.max (now - _prev_sample_ts m) epsilon.

(** The locals [sent_rate] and [recv_rate], in bytes per second. *)
Definition sent_rate (m : Monitor) (net_io : psutil.snetio) (now : Q) : Q :=
  inject_Z (psutil.bytes_sent net_io - psutil.bytes_sent (_prev_net_io m))
  / dt m now.

Definition recv_rate (m : Monitor) (net_io : psutil.snetio) (now : Q) : Q :=
  inject_Z (psutil.bytes_recv net_io - psutil.bytes_recv (_prev_net_io m))
  / dt m now.

Definition get_network_info (net_io : psutil.snetio) (now : Q) : M net_report :=
  m <- get_self ;;
  let sent := sent_rate m net_io now in
  let recv := recv_rate m net_io now in
  set_prev_net_io net_io ;;
  set_prev_sample_ts now ;;
  ret {| bytes_sent_mib := Py.round2 (inject_Z (psutil.bytes_sent net_io) / MiB);
         bytes_recv_mib := Py.round2 (inject_Z (psutil.bytes_recv net_io) / MiB);
         send_rate_mib_s := Py.round2 (sent / MiB);
         recv_rate_mib_s := Py.round2 (recv / MiB);
         packets_sent := psutil.packets_sent net_io;
         packets_recv := psutil.packets_recv net_io |}.

(** *** get_disk_info *)

Record part_report : Type := {
  device : string;
  mountpoint : string;
  fstype : string;
  total_gib : Q;
  used_gib : Q;
  free_gib : Q;
  percent : Q
}.

Record io_report : Type := {
  read_mib : Q;
  write_mib : Q;
  read_rate_mib_s : Q;
  write_rate_mib_s : Q;
  read_count : Z;
  write_count : Z
}.

Record disk_report : Type := {
  partitions : list part_report;
  io_stats : option io_report
}.

Definition part_entry (p : psutil.sdiskpart) (usage : psutil.sdiskusage)
    : part_report :=
  {| device := psutil.device p;
     mountpoint := psutil.mountpoint p;
     fstype := psutil.fstype p;
     total_gib := Py.round2 (inject_Z (psutil.total usage) / GiB);
     used_gib := Py.round2 (inject_Z (psutil.used usage) / GiB);
     free_gib := Py.round2 (inject_Z (psutil.free usage) / GiB);
     percent := psutil.percent usage |}.

(** The loop over the partitions: a partition whose [disk_usage] raises
    [PermissionError] or [FileNotFoundError] is skipped. *)
Fixpoint scan_partitions (ps : list psutil.sdiskpart) : M (list part_report) :=
  match ps with
  | [] => ret []
  | p :: ps' =>
      here <- try_except
                (usage <- lift (psutil.disk_usage p) ;;
                 ret [part_entry p usage])
                [PermissionError; FileNotFoundError]
                (ret []) ;;
      rest <- scan_partitions ps' ;;
      ret (here ++ rest)
  end.

(** The locals [read_rate_mib_s] and [write_rate_mib_s] before rounding. *)
Definition read_rate (m : Monitor) (prev io : psutil.sdiskio) (now : Q) : Q :=
  inject_Z (psutil.read_bytes io - psutil.read_bytes prev) / MiB / dt m now.

Definition write_rate (m : Monitor) (prev io : psutil.sdiskio) (now : Q) : Q :=
  inject_Z (psutil.write_bytes io - psutil.write_bytes prev) / MiB / dt m now.

(** The part of [get_disk_info] from [io = psutil.disk_io_counters()] on.
    With no previous counters, [prev.read_bytes] raises [AttributeError]. *)
Definition disk_io_stats (io : option psutil.sdiskio) (now : Q)
    : M (option io_report) :=
  match io with
  | None => ret None
  | Some io =>
      m <- get_self ;;
      match _prev_disk_io m with
      | None => raise AttributeError
      | Some prev =>
          let rd := read_rate m prev io now in
          let wr := write_rate m prev io now in
          set_prev_disk_io io ;;
          ret (Some
            {| read_mib := Py.round2 (inject_Z (psutil.read_bytes io) / MiB);
               write_mib := Py.round2 (inject_Z (psutil.write_bytes io) / MiB);
               read_rate_mib_s := Py.round2 rd;
               write_rate_mib_s := Py.round2 wr;
               read_count := psutil.read_count io;
               write_count := psutil.write_count io |})
      end
  end.

Definition get_disk_info (parts : list psutil.sdiskpart)
    (io : option psutil.sdiskio) (now : Q) : M disk_report :=
  disk_info <- scan_partitions parts ;;
  disk_io <- disk_io_stats io now ;;
  ret {| partitions := disk_info; io_stats := disk_io |}.

(** *** get_battery_info *)

Record battery_report : Type := {
  battery_percent : Q;
  plugged_in : bool;
  time_left_minutes : option Z
}.

Definition get_battery_info (battery : option psutil.sbattery)
    : M (option battery_report) :=
  match battery with
  | Some b =>
      ret (Some
        {| battery_percent := psutil.bat_percent b;
           plugged_in := psutil.power_plugged b;
           time_left_minutes :=
             if (psutil.secsleft b =? psutil.POWER_TIME_UNLIMITED)%Z
             then None
             else Some (psutil.secsleft b / 60)%Z |})
  | None => ret None
  end.

(** *** get_temperature_info *)

(** The loop over the lines of the output: every line that parses overwrites
    [temps['cpu_temp_c']]; the dict is empty ([None]) when none does. *)
Fixpoint parse_temps (lines : list stdout_line) (temps : option Q) : option Q :=
  match lines with
  | [] => temps
  | TempLine (Some t) :: rest => parse_temps rest (Some t)
  | _ :: rest => parse_temps rest temps
  end.

Definition is_some {A : Type} (o : option A) : bool :=
  match o with Some _ => true | None => false end.

(** Whether the call answers from the cache. *)
Definition cache_fresh (m : Monitor) (now : Q) : bool :=
  Qlt_bool (now - _last_temp_ts m) (temp_refresh_seconds m)
  && is_some (_last_temp m).

Definition get_temperature_info (probe : outcome completed_process) (now : Q)
    : M (option Q) :=
  m <- get_self ;;
  if negb (enable_temps m) then ret None
  else if cache_fresh m now then ret (_last_temp m)
  else
    try_except
      (emit Probe ;;
       res <- lift probe ;;
       if (returncode res =? 0)%Z then
         set_last_temp (parse_temps (stdout res) None) ;;
         set_last_temp_ts now ;;
         m' <- get_self ;;
         ret (_last_temp m')
       else ret None)
      [TimeoutExpired; CalledProcessError; FileNotFoundError]
      (ret None).

(** *** get_top_processes *)

(** The dict appended for a process.  The name and the user are stored as
    [proc.info] has them, [None] included. *)
Record proc_record : Type := {
  pid : Z;
  name : option string;
  cpu_percent : Q;
  memory_percent : Q;
  username : option string
}.

Definition has_baseline (w : World) (p : Z) : bool :=
  existsb (Z.eqb p) (cpu_baseline w).

(** psutil's [cpu_percent(None)] for one process: 0.0 on the first read,
    which sets the baseline; the busy share since the last read after it. *)
Definition cpu_seen (w : World) (p : psutil.process) : option Q :=
  if has_baseline w (psutil.pid p) then psutil.cpu_busy p else Some 0.

Definition note_baseline (w : World) (p : psutil.process) : World :=
  if has_baseline w (psutil.pid p) then w
  else {| self := self w; cpu_baseline := psutil.pid p :: cpu_baseline w |}.

Definition cpu_percent_read (p : psutil.process) : M (option Q) :=
  fun w => (Val (cpu_seen w p), note_baseline w p, []).

Definition process_gone : list exn := [NoSuchProcess; AccessDenied; ZombieProcess].

(** The body of the priming loop: one throwaway read. *)
Definition prime_one (p : psutil.process) : M unit :=
  try_except
    (emit (PrimeRead (psutil.pid p)) ;;
     match psutil.prime_fault p with
     | Some e => raise e
     | None => _ <- cpu_percent_read p ;; ret tt
     end)
    process_gone
    (ret tt).

Fixpoint prime_pass (table : list psutil.process) : M unit :=
  match table with
  | [] => ret tt
  | p :: rest => prime_one p ;; prime_pass rest
  end.

(** The dict appended for a process, given its CPU reading. *)
Definition record_of (p : psutil.process) (cpu : option Q) : proc_record :=
  let cpu_pct := Py.or_zero cpu in
  let mem_pct := Py.or_zero (psutil.memory_percent p) in
  {| pid := psutil.pid p;
     name := psutil.name p;
     cpu_percent := cpu_pct;
     memory_percent := Py.round2 mem_pct;
     username := psutil.username p |}.

(** The body of the ranking loop.  The CPU reading is taken when psutil
    yields the process; [or 0.0] turns a reading or a memory share that is
    [None] into 0.0.  A look-up that raises one of the three psutil
    exceptions leaves the process out. *)
Definition read_one (p : psutil.process) : M (list proc_record) :=
  try_except
    (match psutil.read_fault p with
     | Some e => raise e
     | None => cpu <- cpu_percent_read p ;; ret [record_of p cpu]
     end)
    process_gone
    (ret []).

Fixpoint collect (table : list psutil.process) : M (list proc_record) :=
  match table with
  | [] => ret []
  | p :: rest =>
      here <- read_one p ;;
      others <- collect rest ;;
      ret (here ++ others)
  end.

Definition recognised (sort_by : string) : bool :=
  (sort_by =? "cpu")%string || (sort_by =? "memory")%string.

(** The defaulting of the sort key and the sort, after the loop. *)
Definition rank (sort_by : string) (processes : list proc_record)
    : list proc_record :=
  let sort_by := if negb (recognised sort_by) then "cpu"%string else sort_by in
  if (sort_by =? "cpu")%string
  then Py.sort_desc cpu_percent processes
  else Py.sort_desc memory_percent processes.

(** Whether the call starts with the priming pass. *)
Definition primes (sort_by : string) (now : Q) (m : Monitor) : bool :=
  (sort_by =? "cpu")%string && Qlt_bool 5 (now - _proc_prime_ts m).

Definition get_top_processes (table : list psutil.process) (now : Q)
    (num : Z) (sort_by : string) : M (list proc_record) :=
  m <- get_self ;;
  (if primes sort_by now m
   then prime_pass table ;; emit Sleep ;; set_proc_prime_ts now
   else ret tt) ;;
  processes <- collect table ;;
  ret (Py.slice_to (rank sort_by processes) num).

(** *** One tick: what the operating system answers *)

Record Env : Type := {
  cpu_overall_usage : Q;          (* [get_cpu_info()['overall_usage']] *)
  mem_percent : Q;                (* [get_memory_info()['percent']] *)
  disk_partitions : list psutil.sdiskpart;
  disk_io_counters : option psutil.sdiskio;
  now_disk : Q;
  net_io_counters : psutil.snetio;
  now_net : Q;
  sensors_battery : option psutil.sbattery;
  powermetrics : outcome completed_process;
  now_temp : Q;
  process_iter : list psutil.process;
  now_proc : Q
}.


(** ** Further builtins *)

(** Errors of the builtins used by the rendering helpers. *)
Inductive error : Type := ZeroDivisionError | IndexError | ValueError.

Inductive answer (A : Type) : Type :=
| Ok (a : A)
| Err (e : error).

Arguments Ok {A} a.
Arguments Err {A} e.

Module Builtin.

(** [int(x)] of a float: truncation towards zero. *)
Definition int (x : Q) : Z := if Qle_bool 0 x then Qfloor x else Qceiling x.

(** [l[i]]: a negative index counts from the end; [None] is IndexError. *)
Definition index {A : Type} (l : list A) (i : Z) : option A :=
  let n := Z.of_nat (List.length l) in
  if (0 <=? i)%Z then
    (if (i <? n)%Z then nth_error l (Z.to_nat i) else None)
  else if (- n <=? i)%Z then nth_error l (Z.to_nat (n + i))
  else None.

(** [range(n)]. *)
Definition range (n : Z) : list Z := map Z.of_nat (seq 0 (Z.to_nat n)).

(** [c * n] for a one-character string [c]: empty when [n <= 0]. *)
Definition times {A : Type} (c : A) (n : Z) : list A := repeat c (Z.to_nat n).

(** [min(l)] and [max(l)]: the first smallest (largest) element; [None] is
    the ValueError raised on an empty sequence. *)
Definition minimum (l : list Q) : option Q :=
  match l with
  | [] => None
  | x :: rest =>
      Some (fold_left (fun m y => if Qlt_bool y m then y else m) rest x)
  end.

Definition maximum (l : list Q) : option Q :=
  match l with
  | [] => None
  | x :: rest =>
      Some (fold_left (fun m y => if Qlt_bool m y then y else m) rest x)
  end.

(** A list comprehension whose element expression may raise. *)
Fixpoint traverse {A B : Type} (f : A -> answer B) (l : list A)
    : answer (list B) :=
  match l with
  | [] => Ok []
  | x :: rest =>
      match f x with
      | Err e => Err e
      | Ok y =>
          match traverse f rest with
          | Err e => Err e
          | Ok ys => Ok (y :: ys)
          end
      end
  end.

(** Float [x // n] and [x % n] for a positive [n]. *)
Definition floordiv (x n : Q) : Q := inject_Z (Qfloor (x / n)).
Definition modulo (x n : Q) : Q := x - n * inject_Z (Qfloor (x / n)).

End Builtin.

(** ** Rendering helpers of the monitor *)

(** The characters of the bars and sparklines: the eight block elements
    U+2581 (one eighth) to U+2588 (full block), the light shade U+2591 and
    the box-drawing rule U+2500.  A string of them is a list. *)
Inductive glyph : Type := B1 | B2 | B3 | B4 | B5 | B6 | B7 | B8 | Shade | Rule.

Inductive color : Type := red | yellow | blue | green.

Inductive emoji : Type := red_circle | yellow_circle | green_circle.

Definition _get_status_color (percent : Q) : color :=
  if Qle_bool 90 percent then red
  else if Qle_bool 75 percent then yellow
  else if Qle_bool 50 percent then blue
  else green.

Definition _get_status_emoji (percent : Q) : emoji :=
  if Qle_bool 90 percent then red_circle
  else if Qle_bool 75 percent then yellow_circle
  else green_circle.

Definition _create_progress_bar (value : Q) (width : Z) : list glyph :=
  let filled := Builtin.int ((value / 100) * inject_Z width) in
  Builtin.times B8 filled ++ Builtin.times Shade (width - filled).

(** The bar of a process row: [_create_progress_bar(min(pct, 100), width=10)].
    [min(a, b)] is the first argument unless the second is strictly
    smaller. *)
Definition row_bar (pct : Q) : list glyph :=
  _create_progress_bar (if Qlt_bool 100 pct then 100 else pct) 10.

Definition bars : list glyph := [B1; B2; B3; B4; B5; B6; B7; B8].

(** One iteration of the loop of [_create_sparkline]. *)
Definition spark_cell (data : list Q) (min_val range_val step : Q) (i : Z)
    : answer glyph :=
  let idx := Builtin.int (inject_Z i * step) in
  if (idx <? Z.of_nat (List.length data))%Z then
    match Builtin.index data idx with
    | None => Err IndexError
    | Some v =>
        let normalized := (v - min_val) / range_val in
        let bar_idx := Z.min (Builtin.int (normalized * 8)) (8 - 1) in
        match Builtin.index bars bar_idx with
        | None => Err IndexError
        | Some g => Ok g
        end
    end
  else Ok Rule.

Definition _create_sparkline (data : list Q) (width : Z)
    : answer (list glyph) :=
  if (List.length data <? 2)%nat then Ok (Builtin.times Rule width)
  else
    match Builtin.minimum data, Builtin.maximum data with
    | Some min_val, Some max_val =>
        let range_val :=
          if Qlt_bool min_val max_val then max_val - min_val else 1 in
        if (width =? 0)%Z then Err ZeroDivisionError
        else
          let step := inject_Z (Z.of_nat (List.length data)) / inject_Z width in
          Builtin.traverse (spark_cell data min_val range_val step)
            (Builtin.range width)
    | _, _ => Err ValueError
    end.

(** [_format_bytes]: the loop that picks the unit.  The text formatting of
    the scaled value is left out: the result is the value and the unit that
    are formatted. *)
Inductive unit_prefix : Type := U_none | U_K | U_M | U_G | U_T | U_P.

Fixpoint scale_bytes (units : list unit_prefix) (bytes_val : Q)
    : Q * unit_prefix :=
  match units with
  | [] => (bytes_val, U_P)
  | u :: rest =>
      if Qlt_bool (Qabs bytes_val) 1024 then (bytes_val, u)
      else scale_bytes rest (bytes_val / 1024)
  end.

Definition _format_bytes (bytes_val : Q) : Q * unit_prefix :=
  scale_bytes [U_none; U_K; U_M; U_G; U_T] bytes_val.

(** The power of 1024 a unit stands for. *)
Definition unit_power (u : unit_prefix) : Q :=
  match u with
  | U_none => 1
  | U_K => 1024
  | U_M => 1048576
  | U_G => 1073741824
  | U_T => 1099511627776
  | U_P => 1125899906842624
  end.

(** *** get_system_uptime: the three counts (the formatted boot time is left
    out). *)
Record uptime_report : Type := {
  uptime_days : Z;
  uptime_hours : Z;
  uptime_minutes : Z
}.

Definition get_system_uptime (boot_time now : Q) : uptime_report :=
  let uptime_seconds := now - boot_time in
  {| uptime_days := Builtin.int (Builtin.floordiv uptime_seconds 86400);
     uptime_hours :=
       Builtin.int (Builtin.floordiv (Builtin.modulo uptime_seconds 86400) 3600);
     uptime_minutes :=
       Builtin.int (Builtin.floordiv (Builtin.modulo uptime_seconds 3600) 60) |}.

(** *** print_performance_report: the data collection, the history update
    and the rows of the process table.  The panels built in between only
    read the collected data, through the helpers above. *)

(** The three appends under the comment 'Update historical data'. *)
Definition update_history (cpu mem net : Q) : M unit :=
  append_cpu_history cpu ;;
  append_memory_history mem ;;
  append_network_history net.

(** [s[:n]] on an entry of a process dict: the first [n] characters of a
    string; subscripting [None] raises TypeError. *)
Definition subscript_to (s : option string) (n : nat) : M string :=
  match s with
  | Some s => ret (substring 0 n s)
  | None => raise TypeError
  end.

(** A row of the process table: the arguments of [table.add_row], before
    they are formatted. *)
Record table_row : Type := {
  row_pid : Z;
  row_cpu : Q;
  row_cpu_bar : list glyph;
  row_cpu_color : color;
  row_mem : Q;
  row_mem_bar : list glyph;
  row_mem_color : color;
  row_name : string;
  row_user : string
}.

(** The body of the loop over [top_list]. *)
Definition add_row (proc : proc_record) : M table_row :=
  let cpu_pct := cpu_percent proc in
  let mem_pct := memory_percent proc in
  let cpu_bar := row_bar cpu_pct in
  let mem_bar := row_bar mem_pct in
  let cpu_color := _get_status_color cpu_pct in
  let mem_color := _get_status_color mem_pct in
  n <- subscript_to (name proc) 40 ;;
  u <- subscript_to (username proc) 15 ;;
  ret {| row_pid := pid proc;
         row_cpu := cpu_pct;
         row_cpu_bar := cpu_bar;
         row_cpu_color := cpu_color;
         row_mem := mem_pct;
         row_mem_bar := mem_bar;
         row_mem_color := mem_color;
         row_name := n;
         row_user := u |}.

Fixpoint add_rows (top_list : list proc_record) : M (list table_row) :=
  match top_list with
  | [] => ret []
  | proc :: rest =>
      row <- add_row proc ;;
      rows <- add_rows rest ;;
      ret (row :: rows)
  end.

Definition print_performance_report (env : Env) (show_processes : bool)
    (top_n : Z) (sort_by : string) (show_battery : bool) : M unit :=
  let cpu := cpu_overall_usage env in
  let mem := mem_percent env in
  _ <- get_disk_info (disk_partitions env) (disk_io_counters env) (now_disk env) ;;
  net <- get_network_info (net_io_counters env) (now_net env) ;;
  _ <- (if show_battery then get_battery_info (sensors_battery env)
        else ret None) ;;
  _ <- get_temperature_info (powermetrics env) (now_temp env) ;;
  update_history cpu mem (send_rate_mib_s net + recv_rate_mib_s net) ;;
  if show_processes
  then top_list <- get_top_processes (process_iter env) (now_proc env)
                     top_n sort_by ;;
       _ <- add_rows top_list ;;
       ret tt
  else ret tt.

(** *** get_json_report *)

Record json_report : Type := {
  cpu : Q;
  memory : Q;
  disk : disk_report;
  network : net_report;
  temperature : option Q;
  battery : option (option battery_report);     (* outer [None]: no key *)
  top_processes : option (list proc_record)     (* [None]: no key *)
}.

Definition get_json_report (env : Env) (include_processes : bool)
    (top_n : Z) (sort_by : string) (include_battery : bool) : M json_report :=
  d <- get_disk_info (disk_partitions env) (disk_io_counters env) (now_disk env) ;;
  n <- get_network_info (net_io_counters env) (now_net env) ;;
  t <- get_temperature_info (powermetrics env) (now_temp env) ;;
  b <- (if include_battery
        then x <- get_battery_info (sensors_battery env) ;; ret (Some x)
        else ret None) ;;
  p <- (if include_processes
        then x <- get_top_processes (process_iter env) (now_proc env)
                    top_n sort_by ;;
             ret (Some x)
        else ret None) ;;
  ret {| cpu := cpu_overall_usage env;
         memory := mem_percent env;
         disk := d;
         network := n;
         temperature := t;
         battery := b;
         top_processes := p |}.

(** A fresh monitor with nothing known to psutil yet. *)
Definition fresh (m : Monitor) : World := {| self := m; cpu_baseline := [] |}.

(** ** Vocabulary of the statements *)

(** The four byte counters that are turned into rates. *)
Inductive counter : Type := BytesSent | BytesRecv | ReadBytes | WriteBytes.

(** The stored reading of a counter, when there is one. *)
Definition previous (c : counter) (m : Monitor) : option Z :=
  match c with
  | BytesSent => Some (psutil.bytes_sent (_prev_net_io m))
  | BytesRecv => Some (psutil.bytes_recv (_prev_net_io m))
  | ReadBytes => option_map psutil.read_bytes (_prev_disk_io m)
  | WriteBytes => option_map psutil.write_bytes (_prev_disk_io m)
  end.

(** Its new reading. *)
Definition current (c : counter) (net_io : psutil.snetio) (io : psutil.sdiskio)
    : Z :=
  match c with
  | BytesSent => psutil.bytes_sent net_io
  | BytesRecv => psutil.bytes_recv net_io
  | ReadBytes => psutil.read_bytes io
  | WriteBytes => psutil.write_bytes io
  end.

(** The rate the method computes for it, in MiB/s, before [round(_, 2)]. *)
Definition unrounded (c : counter) (m : Monitor) (net_io : psutil.snetio)
    (io : psutil.sdiskio) (now : Q) : option Q :=
  match c with
  | BytesSent => Some (sent_rate m net_io now / MiB)
  | BytesRecv => Some (recv_rate m net_io now / MiB)
  | ReadBytes => option_map (fun prev => read_rate m prev io now) (_prev_disk_io m)
  | WriteBytes => option_map (fun prev => write_rate m prev io now) (_prev_disk_io m)
  end.

(** The rate found in the returned report. *)
Definition reported (c : counter) (net_io : psutil.snetio)
    (io : psutil.sdiskio) (now : Q) (w : World) : option Q :=
  match c with
  | BytesSent =>
      match result (get_network_info net_io now w) with
      | Val r => Some (send_rate_mib_s r)
      | Raise _ => None
      end
  | BytesRecv =>
      match result (get_network_info net_io now w) with
      | Val r => Some (recv_rate_mib_s r)
      | Raise _ => None
      end
  | ReadBytes =>
      match result (disk_io_stats (Some io) now w) with
      | Val (Some r) => Some (read_rate_mib_s r)
      | _ => None
      end
  | WriteBytes =>
      match result (disk_io_stats (Some io) now w) with
      | Val (Some r) => Some (write_rate_mib_s r)
      | _ => None
      end
  end.

(** [monitor.enable_temps = bool(args.temps)], as [main] does after
    constructing the monitor. *)
Definition set_enable_temps (b : bool) (m : Monitor) : Monitor :=
  {| _prev_net_io := _prev_net_io m; _prev_disk_io := _prev_disk_io m;
     _prev_sample_ts := _prev_sample_ts m; _last_temp := _last_temp m;
     _last_temp_ts := _last_temp_ts m; enable_temps := b;
     temp_refresh_seconds := temp_refresh_seconds m;
     _proc_prime_ts := _proc_prime_ts m; history_size := history_size m;
     cpu_history := cpu_history m; memory_history := memory_history m;
     network_history := network_history m |}.

(** How many times a run invoked the powermetrics subprocess. *)
Definition probes {A : Type} (r : outcome A * World * list event) : nat :=
  List.length (filter is_probe (events r)).

Definition probe_caught : list exn :=
  [TimeoutExpired; CalledProcessError; FileNotFoundError].

(** The probe ran to completion with exit status 0. *)
Definition exited_zero (probe : outcome completed_process) : bool :=
  match probe with
  | Val res => (returncode res =? 0)%Z
  | Raise _ => false
  end.

(** The probe fails or yields no value: a timeout or a missing binary (an
    exception the method catches), a non-zero exit status, or an output
    without a temperature line that parses. *)
Definition yields_nothing (probe : outcome completed_process) : bool :=
  match probe with
  | Raise e => existsb (exn_eqb e) probe_caught
  | Val res =>
      negb (returncode res =? 0)%Z
      || negb (is_some (parse_temps (stdout res) None))
  end.

(** A monitor as [main] sets it up with [--temps], in a world where nothing
    has been read yet. *)
Definition with_temps (net0 : psutil.snetio) (start_time : Q) : World :=
  fresh (set_enable_temps true (init net0 None start_time)).

Definition no_traffic : psutil.snetio :=
  {| psutil.bytes_sent := 0; psutil.bytes_recv := 0;
     psutil.packets_sent := 0; psutil.packets_recv := 0 |}.

(** The last [k] elements of a list, oldest first. *)
Definition lastn {A : Type} (k : nat) (l : list A) : list A :=
  skipn (List.length l - k) l.

(** The history update of successive reports, each given as the triple
    (CPU %, memory %, network MiB/s) it records. *)
Definition record (w : World) (s : Q * Q * Q) : World :=
  world_after (update_history (fst (fst s)) (snd (fst s)) (snd s) w).

(** A list whose elements occur, in this order, in another. *)
Inductive sublist {A : Type} : list A -> list A -> Prop :=
| sublist_nil : sublist [] []
| sublist_skip (x : A) (s l : list A) : sublist s l -> sublist s (x :: l)
| sublist_take (x : A) (s l : list A) : sublist s l -> sublist (x :: s) (x :: l).

(** Sorted with the largest key first. *)
Definition descending {A : Type} (key : A -> Q) (l : list A) : Prop :=
  StronglySorted (fun a b => key b <= key a) l.

(** The records whose key is tied at [q]. *)
Definition tied {A : Type} (key : A -> Q) (q : Q) (l : list A) : list A :=
  filter (fun a => Qeq_bool (key a) q) l.

(** A fault that the loops over the process table catch, or none. *)
Definition gone_or_fine (f : option exn) : bool :=
  match f with
  | None => true
  | Some e => existsb (exn_eqb e) process_gone
  end.

(** The only failures met while reading the table are processes that
    vanished, turned zombie or deny access. *)
Definition races_only (table : list psutil.process) : bool :=
  forallb (fun p => gone_or_fine (psutil.prime_fault p)
                    && gone_or_fine (psutil.read_fault p)) table.

(** Sample process tables. *)
Definition busy (p : Z) (cpu mem : Q) : psutil.process :=
  {| psutil.pid := p; psutil.name := Some "worker"%string;
     psutil.username := Some "root"%string;
     psutil.cpu_busy := Some cpu; psutil.memory_percent := Some mem;
     psutil.prime_fault := None; psutil.read_fault := None |}.

Definition three_processes : list psutil.process :=
  [busy 1 10 3; busy 2 50 1; busy 3 10 2].

(** The exceptions the partition loop catches. *)
Definition partition_caught : list exn := [PermissionError; FileNotFoundError].

(** [disk_usage] answers, or fails in a way the loop catches. *)
Definition usage_recoverable (p : psutil.sdiskpart) : bool :=
  match psutil.disk_usage p with
  | Val _ => true
  | Raise e => existsb (exn_eqb e) partition_caught
  end.

(** The probe answers, or fails in a way the method catches. *)
Definition probe_recoverable (probe : outcome completed_process) : bool :=
  match probe with
  | Val _ => true
  | Raise e => existsb (exn_eqb e) probe_caught
  end.

(** A tick in which nothing worse than the recoverable conditions happens:
    partitions that deny access or are gone, a probe that times out or is
    missing, processes that vanish or deny access. *)
Definition recoverable (env : Env) : bool :=
  forallb usage_recoverable (disk_partitions env)
  && probe_recoverable (powermetrics env)
  && races_only (process_iter env).

(** The entries of the partitions whose usage can be read, in order. *)
Definition readable_partitions (parts : list psutil.sdiskpart)
    : list part_report :=
  flat_map (fun p => match psutil.disk_usage p with
                     | Val usage => [part_entry p usage]
                     | Raise _ => []
                     end) parts.

(** The processes that can be read in the ranking loop. *)
Definition readable (table : list psutil.process) : list psutil.process :=
  filter (fun p => negb (is_some (psutil.read_fault p))) table.

(** Disk counters are only compared with stored ones that exist. *)
Definition disk_baseline_ok (w : World) (env : Env) : bool :=
  match disk_io_counters env with
  | None => true
  | Some _ => is_some (_prev_disk_io (self w))
  end.

(** The fields the temperature cache lives in. *)
Definition temp_state (m : Monitor) : bool * option Q * Q * Q :=
  (enable_temps m, _last_temp m, _last_temp_ts m, temp_refresh_seconds m).


(** A record without a name or without a user. *)
Definition unnamed (r : proc_record) : bool :=
  negb (is_some (name r)) || negb (is_some (username r)).

(** What the ranking loop of a call depends on: the time of the last
    priming, and the processes psutil has a CPU baseline for. *)
Definition process_state (w : World) : Q * list Z :=
  (_proc_prime_ts (self w), cpu_baseline w).

(** The world in which the ranking loop of a call starts: after the priming
    pass, when the call primes. *)
Definition primed (table : list psutil.process) (now : Q) (sort_by : string)
    (w : World) : World :=
  world_after
    ((m <- get_self ;;
      if primes sort_by now m
      then prime_pass table ;; emit Sleep ;; set_proc_prime_ts now
      else ret tt) w).



(** The metric named in the title of the process table of the text report. *)
Inductive metric : Type := CPU | Memory.

Definition title_metric (sort_by : string) : metric :=
  if (sort_by =? "cpu")%string then CPU else Memory.

(** The metric [get_top_processes] sorts by. *)
Definition ranking_metric (sort_by : string) : metric :=
  let sort_by := if negb (recognised sort_by) then "cpu"%string else sort_by in
  if (sort_by =? "cpu")%string then CPU else Memory.

(** ** The advanced TUI *)

Module TUI.

(** [_get_status_color], the same in the three widgets that define it. *)
Definition _get_status_color (percent : Q) : color :=
  if Qle_bool 90 percent then red
  else if Qle_bool 70 percent then yellow
  else if Qle_bool 50 percent then blue
  else green.

(** [_create_progress_bar], the same in the two widgets that define it. *)
Definition _create_progress_bar (percent : Q) (width : Z) : list glyph :=
  let filled := Builtin.int (inject_Z width * percent / 100) in
  Builtin.times B8 filled ++ Builtin.times Shade (width - filled).

(** The generator expression [chars[i] for i in normalized]. *)
Definition pick (i : Z) : answer glyph :=
  match Builtin.index bars i with
  | Some g => Ok g
  | None => Err IndexError
  end.

(** [CPUDetailWidget._create_sparkline]. *)
Definition cpu_sparkline (data : list Q) : answer (list glyph) :=
  match Builtin.maximum data with
  | None => Ok []                       (* [if not data: return ""] *)
  | Some m =>
      let max_val := if Qlt_bool 0 m then m else 1 in
      let normalized :=
        map (fun val => Builtin.int (val / max_val * (8 - 1))) data in
      Builtin.traverse pick normalized
  end.

(** [NetworkDetailWidget._create_sparkline]. *)
Definition network_sparkline (data : list Q) : answer (list glyph) :=
  match Builtin.maximum data with
  | None => Ok (Builtin.times B1 (Z.min (Z.of_nat (List.length data)) 60))
  | Some m =>
      if Qeq_bool m 0
      then Ok (Builtin.times B1 (Z.min (Z.of_nat (List.length data)) 60))
      else
        let max_val := m in
        let normalized :=
          map (fun val => Builtin.int (val / max_val * (8 - 1))) data in
        Builtin.traverse pick normalized
  end.

(** [_format_bytes] of the widgets: no absolute value is taken. *)
Fixpoint scale_bytes (units : list unit_prefix) (bytes_val : Q)
    : Q * unit_prefix :=
  match units with
  | [] => (bytes_val, U_P)
  | u :: rest =>
      if Qlt_bool bytes_val 1024 then (bytes_val, u)
      else scale_bytes rest (bytes_val / 1024)
  end.

Definition _format_bytes (bytes_val : Q) : Q * unit_prefix :=
  scale_bytes [U_none; U_K; U_M; U_G; U_T] bytes_val.

(** [ProcessTableDetailWidget]: its two settings, and the buttons. *)
Record process_widget : Type := {
  sort_by : string;
  num_processes : Z
}.

Definition process_widget_init : process_widget :=
  {| sort_by := "cpu"; num_processes := 20 |}.

(** The assignments of [on_button_pressed], by button id. *)
Definition press (button : string) (s : process_widget) : process_widget :=
  if (button =? "sort-cpu-btn")%string
  then {| sort_by := "cpu"; num_processes := num_processes s |}
  else if (button =? "sort-mem-btn")%string
  then {| sort_by := "memory"; num_processes := num_processes s |}
  else if (button =? "top-10-btn")%string
  then {| sort_by := sort_by s; num_processes := 10 |}
  else if (button =? "top-20-btn")%string
  then {| sort_by := sort_by s; num_processes := 20 |}
  else if (button =? "top-50-btn")%string
  then {| sort_by := sort_by s; num_processes := 50 |}
  else s.

(** [update_processes]: the call it makes to the monitor.  The rows it then
    adds to the DataTable are left out. *)
Definition update_processes (s : process_widget)
    (table : list psutil.process) (now : Q) : M (list proc_record) :=
  get_top_processes table now (num_processes s) (sort_by s).

(** [on_button_pressed]: the new settings and the refresh that follows. *)
Definition on_button_pressed (button : string) (s : process_widget)
    (table : list psutil.process) (now : Q)
    : process_widget * M (list proc_record) :=
  let s' := press button s in
  (s', update_processes s' table now).

End TUI.

(** The field of a record that a metric ranks by. *)
Definition metric_value (m : metric) (r : proc_record) : Q :=
  match m with
  | CPU => cpu_percent r
  | Memory => memory_percent r
  end.

(** The settings the process widget can hold. *)
Definition valid_settings (s : TUI.process_widget) : Prop :=
  recognised (TUI.sort_by s) = true
  /\ In (TUI.num_processes s) [10; 20; 50]%Z.








(** * Properties *)

(** ** Floats *)

Lemma max_ge_right (a b : Q) : b <= Py.max a b.
Proof.
  unfold Py.max. destruct (Qle_bool b a) eqn:E.
  - now apply Qle_bool_iff.
  - apply Qle_refl.
Qed.

Lemma max_left (a b : Q) : b <= a -> Py.max a b = a.
Proof.
  intro H. unfold Py.max. apply Qle_bool_iff in H. now rewrite H.
Qed.

Lemma max_right (a b : Q) : a < b -> Py.max a b = b.
Proof.
  intro H. unfold Py.max. destruct (Qle_bool b a) eqn:E; [|reflexivity].
  apply Qle_bool_iff in E. lra.
Qed.

Lemma round_half_even_near (x : Q) :
  x - (1 # 2) <= inject_Z (Py.round_half_even x) <= x + (1 # 2).
Proof.
  unfold Py.round_half_even.
  pose proof (Qfloor_le x) as Hlo.
  pose proof (Qlt_floor x) as Hhi.
  rewrite inject_Z_plus in Hhi. change (inject_Z 1) with 1 in Hhi.
  destruct (Qcompare (x - inject_Z (Qfloor x)) (1 # 2)) eqn:C.
  - apply Qeq_alt in C.
    destruct (Z.even (Qfloor x));
      [|rewrite inject_Z_plus; change (inject_Z 1) with 1]; lra.
  - apply Qlt_alt in C. lra.
  - apply Qgt_alt in C. rewrite inject_Z_plus. change (inject_Z 1) with 1. lra.
Qed.

Lemma round_half_even_nonneg (x : Q) : 0 <= x -> (0 <= Py.round_half_even x)%Z.
Proof.
  intro H. unfold Py.round_half_even.
  assert (0 <= Qfloor x)%Z as Hf.
  { change 0%Z with (Qfloor 0). now apply Qfloor_resp_le. }
  destruct (Qcompare _ _); [destruct (Z.even _)| |]; lia.
Qed.

Lemma round_half_even_nonpos (x : Q) : x <= 0 -> (Py.round_half_even x <= 0)%Z.
Proof.
  intro H. unfold Py.round_half_even.
  pose proof (Qfloor_le x) as Hlo.
  assert (Qfloor x <= 0)%Z as Hf.
  { change 0%Z with (Qfloor 0). now apply Qfloor_resp_le. }
  destruct (Z.eq_dec (Qfloor x) 0) as [E|E].
  - rewrite E in *.
    destruct (Qcompare (x - inject_Z 0) (1 # 2)) eqn:C; simpl; try lia.
    apply Qgt_alt in C. unfold inject_Z in C. lra.
  - destruct (Qcompare _ _); [destruct (Z.even _)| |]; lia.
Qed.

Lemma round2_near (x : Q) : x - (1 # 200) <= Py.round2 x <= x + (1 # 200).
Proof.
  unfold Py.round2.
  pose proof (round_half_even_near (x * 100)) as H.
  set (r := inject_Z (Py.round_half_even (x * 100))) in *.
  unfold Qdiv. change (/ 100) with (1 # 100). lra.
Qed.

Lemma round2_nonneg (x : Q) : 0 <= x -> 0 <= Py.round2 x.
Proof.
  intro H. unfold Py.round2.
  assert (0 <= inject_Z (Py.round_half_even (x * 100))) as Hr.
  { change 0 with (inject_Z 0). rewrite <- Zle_Qle.
    apply round_half_even_nonneg. lra. }
  unfold Qdiv. change (/ 100) with (1 # 100). lra.
Qed.

Lemma round2_nonpos (x : Q) : x <= 0 -> Py.round2 x <= 0.
Proof.
  intro H. unfold Py.round2.
  assert (inject_Z (Py.round_half_even (x * 100)) <= 0) as Hr.
  { change 0 with (inject_Z 0). rewrite <- Zle_Qle.
    apply round_half_even_nonpos. lra. }
  unfold Qdiv. change (/ 100) with (1 # 100). lra.
Qed.

(** ** Rates *)

Lemma dt_floor (m : Monitor) (now : Q) : epsilon <= dt m now.
Proof. apply max_ge_right. Qed.

Lemma dt_pos (m : Monitor) (now : Q) : 0 < dt m now.
Proof.
  apply Qlt_le_trans with epsilon; [reflexivity | apply dt_floor].
Qed.

Lemma MiB_pos : 0 < MiB.
Proof. reflexivity. Qed.

(** What a method run returns, spelled out. *)
Lemma get_network_info_run (net_io : psutil.snetio) (now : Q) (w : World) :
  get_network_info net_io now w =
  (Val {| bytes_sent_mib := Py.round2 (inject_Z (psutil.bytes_sent net_io) / MiB);
          bytes_recv_mib := Py.round2 (inject_Z (psutil.bytes_recv net_io) / MiB);
          send_rate_mib_s := Py.round2 (sent_rate (self w) net_io now / MiB);
          recv_rate_mib_s := Py.round2 (recv_rate (self w) net_io now / MiB);
          packets_sent := psutil.packets_sent net_io;
          packets_recv := psutil.packets_recv net_io |},
   world_after (get_network_info net_io now w),
   [Store F_prev_net_io; Store F_prev_sample_ts]).
Proof. reflexivity. Qed.

Lemma disk_io_stats_run (io prev : psutil.sdiskio) (now : Q) (w : World) :
  _prev_disk_io (self w) = Some prev ->
  disk_io_stats (Some io) now w =
  (Val (Some
     {| read_mib := Py.round2 (inject_Z (psutil.read_bytes io) / MiB);
        write_mib := Py.round2 (inject_Z (psutil.write_bytes io) / MiB);
        read_rate_mib_s := Py.round2 (read_rate (self w) prev io now);
        write_rate_mib_s := Py.round2 (write_rate (self w) prev io now);
        read_count := psutil.read_count io;
        write_count := psutil.write_count io |}),
   world_after (set_prev_disk_io io w),
   [Store F_prev_disk_io]).
Proof.
  intro H. unfold disk_io_stats, bind, get_self. rewrite H. reflexivity.
Qed.

Lemma reported_rounds_unrounded (c : counter) (net_io : psutil.snetio)
    (io : psutil.sdiskio) (now : Q) (w : World) (p : Z) :
  previous c (self w) = Some p ->
  reported c net_io io now w
  = option_map Py.round2 (unrounded c (self w) net_io io now).
Proof.
  destruct c; intro H; try reflexivity;
    unfold previous in H;
    destruct (_prev_disk_io (self w)) as [prev|] eqn:E; try discriminate;
    unfold reported, unrounded;
    rewrite (disk_io_stats_run io now w E), E; reflexivity.
Qed.

Lemma unrounded_formula (c : counter) (m : Monitor) (net_io : psutil.snetio)
    (io : psutil.sdiskio) (now : Q) (p : Z) :
  previous c m = Some p ->
  exists u, unrounded c m net_io io now = Some u
    /\ u == inject_Z (current c net_io io - p) / dt m now / MiB.
Proof.
  pose proof (dt_pos m now) as Hdt.
  destruct c; simpl; intro H.
  - injection H as <-. eexists; split; [reflexivity|]. reflexivity.
  - injection H as <-. eexists; split; [reflexivity|]. reflexivity.
  - destruct (_prev_disk_io m) as [prev|]; [|discriminate].
    injection H as <-. eexists; split; [reflexivity|].
    unfold read_rate. unfold MiB. field. lra.
  - destruct (_prev_disk_io m) as [prev|]; [|discriminate].
    injection H as <-. eexists; split; [reflexivity|].
    unfold write_rate. unfold MiB. field. lra.
Qed.

(** C1, as amended.  When a counter's new reading is below the stored one,
    the rate computed for it is (current - previous) / dt, converted to
    MiB/s: a strictly negative number, not 0.  The report carries it rounded
    to two decimals, hence at most 0.  Each counter's rate is computed from
    its own two readings alone, whatever the other counters did. *)
Theorem reset_rate_is_negative (c : counter) (w : World)
    (net_io : psutil.snetio) (io : psutil.sdiskio) (now : Q) (p : Z) :
  previous c (self w) = Some p ->
  (current c net_io io < p)%Z ->
  exists u,
    unrounded c (self w) net_io io now = Some u
    /\ u == inject_Z (current c net_io io - p) / dt (self w) now / MiB
    /\ u < 0
    /\ reported c net_io io now w = Some (Py.round2 u)
    /\ Py.round2 u <= 0.
Proof.
  intros Hp Hlt.
  destruct (unrounded_formula c (self w) net_io io now Hp) as (u & Hu & Heq).
  exists u. split; [exact Hu|]. split; [exact Heq|].
  assert (u < 0) as Hneg.
  { rewrite Heq.
    assert (inject_Z (current c net_io io - p) < 0) as Hd.
    { change 0 with (inject_Z 0). rewrite <- Zlt_Qlt. lia. }
    pose proof (dt_pos (self w) now) as Hdt.
    apply Qlt_shift_div_r; [exact MiB_pos|].
    apply Qlt_shift_div_r; [exact Hdt|].
    lra. }
  split; [exact Hneg|]. split.
  - rewrite (reported_rounds_unrounded c net_io io now w Hp), Hu. reflexivity.
  - apply round2_nonpos. lra.
Qed.

(** A send counter that fell from 2 MiB to 0 within one second. *)
Lemma reset_rate_is_negative_witness :
  let w := fresh (init {| psutil.bytes_sent := 2097152; psutil.bytes_recv := 0;
                          psutil.packets_sent := 0; psutil.packets_recv := 0 |}
                       None 0) in
  let net_io := {| psutil.bytes_sent := 0; psutil.bytes_recv := 1048576;
                   psutil.packets_sent := 0; psutil.packets_recv := 0 |} in
  let io := {| psutil.read_bytes := 0; psutil.write_bytes := 0;
               psutil.read_count := 0; psutil.write_count := 0 |} in
  exists u,
    unrounded BytesSent (self w) net_io io 1 = Some u
    /\ u == inject_Z (current BytesSent net_io io - 2097152) / dt (self w) 1 / MiB
    /\ u < 0
    /\ reported BytesSent net_io io 1 w = Some (Py.round2 u)
    /\ Py.round2 u <= 0.
Proof.
  intros w net_io io.
  apply (@reset_rate_is_negative BytesSent w net_io io 1 2097152).
  - reflexivity.
  - reflexivity.
Defined.

(** C1, as stated, fails: the send counter above is reported at -2 MiB/s. *)
Lemma reset_rate_is_not_zero :
  ~ (forall (c : counter) (w : World) (net_io : psutil.snetio)
            (io : psutil.sdiskio) (now : Q) (p : Z) (r : Q),
        previous c (self w) = Some p ->
        (current c net_io io < p)%Z ->
        reported c net_io io now w = Some r ->
        r == 0).
Proof.
  intro H.
  pose proof
    (H BytesSent
       (fresh (init {| psutil.bytes_sent := 2097152; psutil.bytes_recv := 0;
                       psutil.packets_sent := 0; psutil.packets_recv := 0 |}
                    None 0))
       {| psutil.bytes_sent := 0; psutil.bytes_recv := 1048576;
          psutil.packets_sent := 0; psutil.packets_recv := 0 |}
       {| psutil.read_bytes := 0; psutil.write_bytes := 0;
          psutil.read_count := 0; psutil.write_count := 0 |}
       1 2097152%Z (-200 # 100) eq_refl eq_refl) as H1.
  assert (-200 # 100 == 0) as Habs.
  { apply H1. vm_compute. reflexivity. }
  vm_compute in Habs. discriminate Habs.
Qed.

(** C7, as amended.  For a counter whose new reading is not below the stored
    one, the computed rate is (current - previous) / max(dt, 1e-6), with
    dt = now - _prev_sample_ts, converted to MiB/s; it is not negative.  The
    denominator is at least 1e-6, hence positive, for every [now], also one
    that is not after the stored timestamp.  When dt >= 1e-6 the rate is
    exactly delta / dt; the report carries it rounded to two decimals, within
    0.005 of it. *)
Theorem nondecreasing_rate (c : counter) (w : World)
    (net_io : psutil.snetio) (io : psutil.sdiskio) (now : Q) (p : Z) :
  previous c (self w) = Some p ->
  (p <= current c net_io io)%Z ->
  let elapsed := now - _prev_sample_ts (self w) in
  let delta := inject_Z (current c net_io io - p) in
  exists u,
    unrounded c (self w) net_io io now = Some u
    /\ u == delta / Py.max elapsed epsilon / MiB
    /\ epsilon <= Py.max elapsed epsilon
    /\ 0 < Py.max elapsed epsilon
    /\ 0 <= u
    /\ (epsilon <= elapsed -> u == delta / elapsed / MiB)
    /\ reported c net_io io now w = Some (Py.round2 u)
    /\ u - (1 # 200) <= Py.round2 u <= u + (1 # 200)
    /\ 0 <= Py.round2 u.
Proof.
  intros Hp Hle elapsed delta.
  destruct (unrounded_formula c (self w) net_io io now Hp) as (u & Hu & Heq).
  pose proof (dt_pos (self w) now) as Hdt.
  pose proof (dt_floor (self w) now) as Hfl.
  fold delta in Heq. unfold dt in Heq, Hdt, Hfl. fold elapsed in Heq, Hdt, Hfl.
  assert (0 <= u) as Hpos.
  { rewrite Heq.
    assert (0 <= delta) as Hd.
    { unfold delta. change 0 with (inject_Z 0). rewrite <- Zle_Qle. lia. }
    apply Qle_shift_div_l; [exact MiB_pos|].
    apply Qle_shift_div_l; [exact Hdt|].
    lra. }
  exists u. repeat split; try assumption.
  - intro Hbig. rewrite Heq, (max_left Hbig). reflexivity.
  - rewrite (reported_rounds_unrounded c net_io io now w Hp), Hu. reflexivity.
  - apply round2_near.
  - apply round2_near.
  - now apply round2_nonneg.
Qed.

(** One MiB sent in one second: 1.0 MiB/s. *)
Lemma nondecreasing_rate_witness :
  let w := fresh (init {| psutil.bytes_sent := 0; psutil.bytes_recv := 0;
                          psutil.packets_sent := 0; psutil.packets_recv := 0 |}
                       None 0) in
  let net_io := {| psutil.bytes_sent := 1048576; psutil.bytes_recv := 0;
                   psutil.packets_sent := 0; psutil.packets_recv := 0 |} in
  let io := {| psutil.read_bytes := 0; psutil.write_bytes := 0;
               psutil.read_count := 0; psutil.write_count := 0 |} in
  exists u,
    unrounded BytesSent (self w) net_io io 1 = Some u
    /\ u == inject_Z (current BytesSent net_io io - 0) / Py.max (1 - 0) epsilon / MiB
    /\ epsilon <= Py.max (1 - 0) epsilon
    /\ 0 < Py.max (1 - 0) epsilon
    /\ 0 <= u
    /\ (epsilon <= 1 - 0 -> u == inject_Z (current BytesSent net_io io - 0) / (1 - 0) / MiB)
    /\ reported BytesSent net_io io 1 w = Some (Py.round2 u)
    /\ u - (1 # 200) <= Py.round2 u <= u + (1 # 200)
    /\ 0 <= Py.round2 u.
Proof.
  intros w net_io io.
  apply (@nondecreasing_rate BytesSent w net_io io 1 0).
  - reflexivity.
  - discriminate.
Defined.

(** C7, as stated, fails for a positive dt below 1e-6: with 1500 bytes sent
    in 2^-21 s the denominator is floored to 1e-6 and the computed rate is
    less than half of delta / dt, far outside a relative tolerance of
    one per mille. *)
Lemma floored_rate_is_not_delta_over_dt :
  ~ (forall (m : Monitor) (net_io : psutil.snetio) (now : Q),
        (psutil.bytes_sent (_prev_net_io m) <= psutil.bytes_sent net_io)%Z ->
        0 < now - _prev_sample_ts m ->
        let exact :=
          inject_Z (psutil.bytes_sent net_io - psutil.bytes_sent (_prev_net_io m))
          / (now - _prev_sample_ts m) in
        Qabs (sent_rate m net_io now - exact) <= (1 # 1000) * exact).
Proof.
  intro H.
  specialize
    (H (init {| psutil.bytes_sent := 0; psutil.bytes_recv := 0;
                psutil.packets_sent := 0; psutil.packets_recv := 0 |}
             None 1700000000)
       {| psutil.bytes_sent := 1500; psutil.bytes_recv := 0;
          psutil.packets_sent := 0; psutil.packets_recv := 0 |}
       (1700000000 + (1 # 2097152))).
  cbv zeta in H.
  assert (~ Qabs (sent_rate
             (init {| psutil.bytes_sent := 0; psutil.bytes_recv := 0;
                      psutil.packets_sent := 0; psutil.packets_recv := 0 |}
                   None 1700000000)
             {| psutil.bytes_sent := 1500; psutil.bytes_recv := 0;
                psutil.packets_sent := 0; psutil.packets_recv := 0 |}
             (1700000000 + (1 # 2097152))
           - inject_Z (1500 - 0) / (1700000000 + (1 # 2097152) - 1700000000))
          <= (1 # 1000)
             * (inject_Z (1500 - 0) / (1700000000 + (1 # 2097152) - 1700000000)))
    as Hno.
  { vm_compute. intro Habs. apply Habs. reflexivity. }
  apply Hno. apply H.
  - discriminate.
  - reflexivity.
Qed.

(** ** Baselines *)

(** C4, as amended.  A network update replaces both the stored network
    counters and the shared timestamp [_prev_sample_ts] with the new
    snapshot, whatever the readings, and these two writes are its last (and
    only) state mutations.  A disk update with counters available replaces
    the stored disk counters only, as its last and only mutation: the shared
    timestamp, which it reads as its elapsed-time reference, is left as the
    last network update set it.  A disk update without counters changes
    nothing. *)
Theorem baseline_replacement (w : World) (net_io : psutil.snetio)
    (io : psutil.sdiskio) (now : Q) :
  (let r := get_network_info net_io now w in
   (exists rep, result r = Val rep)
   /\ _prev_net_io (self (world_after r)) = net_io
   /\ _prev_sample_ts (self (world_after r)) = now
   /\ _prev_disk_io (self (world_after r)) = _prev_disk_io (self w)
   /\ events r = [Store F_prev_net_io; Store F_prev_sample_ts])
  /\
  (let r := disk_io_stats (Some io) now w in
   match _prev_disk_io (self w) with
   | Some _ =>
       (exists rep, result r = Val (Some rep))
       /\ _prev_disk_io (self (world_after r)) = Some io
       /\ _prev_sample_ts (self (world_after r)) = _prev_sample_ts (self w)
       /\ _prev_net_io (self (world_after r)) = _prev_net_io (self w)
       /\ events r = [Store F_prev_disk_io]
   | None =>
       result r = Raise AttributeError /\ world_after r = w /\ events r = []
   end)
  /\
  (let r := disk_io_stats None now w in
   result r = Val None /\ world_after r = w /\ events r = []).
Proof.
  split; [|split].
  - cbv zeta. rewrite get_network_info_run.
    repeat split; try reflexivity. eexists. reflexivity.
  - cbv zeta. destruct (_prev_disk_io (self w)) as [prev|] eqn:E.
    + rewrite (disk_io_stats_run io now w E).
      repeat split; try reflexivity. eexists. reflexivity.
    + unfold disk_io_stats, bind, get_self. rewrite E.
      repeat split; reflexivity.
  - repeat split; reflexivity.
Qed.

(** C4, as stated, fails for the disk family: a disk update at time 10
    leaves the timestamp at 0. *)
Lemma disk_update_keeps_timestamp :
  ~ (forall (w : World) (io prev : psutil.sdiskio) (now : Q),
        _prev_disk_io (self w) = Some prev ->
        let w' := world_after (disk_io_stats (Some io) now w) in
        _prev_disk_io (self w') = Some io
        /\ _prev_sample_ts (self w') == now).
Proof.
  intro H.
  pose (d := {| psutil.read_bytes := 0; psutil.write_bytes := 0;
                psutil.read_count := 0; psutil.write_count := 0 |}).
  destruct (H (fresh (init {| psutil.bytes_sent := 0; psutil.bytes_recv := 0;
                              psutil.packets_sent := 0; psutil.packets_recv := 0 |}
                           (Some d) 0))
              d d 10 eq_refl) as [_ Hts].
  vm_compute in Hts. discriminate Hts.
Qed.

(** ** The temperature cache *)

Lemma Qlt_bool_iff (a b : Q) : Qlt_bool a b = true <-> a < b.
Proof.
  unfold Qlt_bool. rewrite negb_true_iff. split; intro H.
  - apply Qnot_le_lt. intro Hle. apply Qle_bool_iff in Hle. congruence.
  - destruct (Qle_bool b a) eqn:E; [|reflexivity].
    apply Qle_bool_iff in E. lra.
Qed.

Lemma Qlt_bool_false_iff (a b : Q) : Qlt_bool a b = false <-> b <= a.
Proof.
  unfold Qlt_bool. rewrite negb_false_iff. apply Qle_bool_iff.
Qed.

Lemma cache_fresh_false (m : Monitor) (now : Q) :
  cache_fresh m now = false <->
  temp_refresh_seconds m <= now - _last_temp_ts m \/ _last_temp m = None.
Proof.
  unfold cache_fresh. rewrite andb_false_iff, Qlt_bool_false_iff.
  destruct (_last_temp m); simpl; split; intros [H|H];
    auto; discriminate.
Qed.

Lemma cache_fresh_true (m : Monitor) (now : Q) :
  cache_fresh m now = true <->
  now - _last_temp_ts m < temp_refresh_seconds m
  /\ exists v, _last_temp m = Some v.
Proof.
  unfold cache_fresh. rewrite andb_true_iff, Qlt_bool_iff.
  destruct (_last_temp m); simpl; split; intros [H1 H2]; split; auto.
  - now exists q.
  - discriminate.
  - destruct H2 as [v Hv]. discriminate.
Qed.

(** The four ways a call can go. *)
Lemma temperature_disabled (probe : outcome completed_process) (now : Q)
    (w : World) :
  enable_temps (self w) = false ->
  get_temperature_info probe now w = (Val None, w, []).
Proof.
  intro H. unfold get_temperature_info, bind, get_self. rewrite H. reflexivity.
Qed.

Lemma temperature_cached (probe : outcome completed_process) (now : Q)
    (w : World) :
  enable_temps (self w) = true ->
  cache_fresh (self w) now = true ->
  get_temperature_info probe now w = (Val (_last_temp (self w)), w, []).
Proof.
  intros H1 H2. unfold get_temperature_info, bind, get_self.
  rewrite H1, H2. reflexivity.
Qed.

Lemma temperature_probed (probe : outcome completed_process) (now : Q)
    (w : World) :
  enable_temps (self w) = true ->
  cache_fresh (self w) now = false ->
  get_temperature_info probe now w =
  match probe with
  | Raise e =>
      if existsb (exn_eqb e) probe_caught
      then (Val None, w, [Probe])
      else (Raise e, w, [Probe])
  | Val res =>
      if (returncode res =? 0)%Z
      then (Val (parse_temps (stdout res) None),
            world_after ((set_last_temp (parse_temps (stdout res) None) ;;
                          set_last_temp_ts now) w),
            [Probe; Store F_last_temp; Store F_last_temp_ts])
      else (Val None, w, [Probe])
  end.
Proof.
  intros H1 H2. unfold get_temperature_info, bind at 1, get_self.
  rewrite H1, H2. cbn [negb].
  destruct probe as [res|e].
  - unfold try_except, bind, emit, lift.
    destruct (returncode res =? 0)%Z; reflexivity.
  - unfold try_except, bind, emit, lift, probe_caught.
    destruct (existsb (exn_eqb e) _); reflexivity.
Qed.

(** A call that goes to the probe invokes it exactly once. *)
Lemma temperature_probed_once (probe : outcome completed_process) (now : Q)
    (w : World) :
  enable_temps (self w) = true ->
  cache_fresh (self w) now = false ->
  probes (get_temperature_info probe now w) = 1%nat.
Proof.
  intros H1 H2. rewrite (temperature_probed probe now w H1 H2).
  destruct probe as [res|e].
  - destruct (returncode res =? 0)%Z; reflexivity.
  - destruct (existsb (exn_eqb e) probe_caught); reflexivity.
Qed.

(** C2, as amended.  When the probe is consulted and fails or yields no
    value, the call returns None after one probe invocation, and nothing is
    cached for the TTL window: on an exception or a non-zero exit the monitor
    is left unchanged (no timestamp is stored); on a zero exit without a
    value None is stored with the current timestamp, but a stored None is
    never served.  In every case the next call, at any later time, invokes
    the probe again. *)
Theorem failed_probe_is_retried (w : World)
    (probe probe' : outcome completed_process) (now now' : Q) :
  enable_temps (self w) = true ->
  cache_fresh (self w) now = false ->
  yields_nothing probe = true ->
  now <= now' ->
  let r := get_temperature_info probe now w in
  let w1 := world_after r in
  result r = Val None
  /\ probes r = 1%nat
  /\ (exited_zero probe = false -> w1 = w)
  /\ (exited_zero probe = true ->
      _last_temp (self w1) = None /\ _last_temp_ts (self w1) = now)
  /\ cache_fresh (self w1) now' = false
  /\ probes (get_temperature_info probe' now' w1) = 1%nat.
Proof.
  intros Hen Hstale Hfail Hlater r w1.
  assert (result r = Val None
          /\ (exited_zero probe = false -> w1 = w)
          /\ (exited_zero probe = true ->
              _last_temp (self w1) = None /\ _last_temp_ts (self w1) = now)
          /\ enable_temps (self w1) = true
          /\ temp_refresh_seconds (self w1) = temp_refresh_seconds (self w))
    as (Hres & Hkeep & Hzero & Hen1 & Httl).
  { subst w1 r. rewrite (temperature_probed probe now w Hen Hstale).
    destruct probe as [res|e]; simpl in Hfail |- *.
    - destruct (returncode res =? 0)%Z eqn:Hrc; simpl in Hfail |- *.
      + destruct (parse_temps (stdout res) None) eqn:Hp; [discriminate|].
        repeat split; try reflexivity; try assumption. discriminate.
      + repeat split; try reflexivity; try assumption; discriminate.
    - unfold probe_caught in *. rewrite Hfail.
      repeat split; try reflexivity; try assumption; discriminate. }
  assert (cache_fresh (self w1) now' = false) as Hstale1.
  { apply cache_fresh_false.
    destruct (exited_zero probe) eqn:Hz.
    - right. now apply Hzero.
    - rewrite (Hkeep eq_refl).
      apply cache_fresh_false in Hstale. destruct Hstale as [Hold|Hnone].
      + left. lra.
      + now right. }
  repeat split; try assumption.
  - subst r. now apply temperature_probed_once.
  - now apply Hzero.
  - now apply Hzero.
  - now apply temperature_probed_once.
Qed.

(** A probe that times out at time 100 is run again at time 101. *)
Lemma failed_probe_is_retried_witness :
  let w := with_temps no_traffic 0 in
  let r := get_temperature_info (Raise TimeoutExpired) 100 w in
  let w1 := world_after r in
  result r = Val None
  /\ probes r = 1%nat
  /\ (exited_zero (Raise TimeoutExpired) = false -> w1 = w)
  /\ (exited_zero (Raise TimeoutExpired) = true ->
      _last_temp (self w1) = None /\ _last_temp_ts (self w1) = 100)
  /\ cache_fresh (self w1) 101 = false
  /\ probes (get_temperature_info (Raise TimeoutExpired) 101 w1) = 1%nat.
Proof.
  intro w.
  apply (@failed_probe_is_retried w (Raise TimeoutExpired)
           (Raise TimeoutExpired) 100 101).
  - reflexivity.
  - reflexivity.
  - reflexivity.
  - discriminate.
Defined.

(** C2, as stated, fails: after a probe that timed out at time 100 no
    timestamp is stored and a call one second later, well within the 5 s
    window, invokes the probe again. *)
Lemma failed_probe_is_not_cached :
  ~ (forall (w : World) (probe probe' : outcome completed_process)
            (now now' : Q),
        enable_temps (self w) = true ->
        cache_fresh (self w) now = false ->
        yields_nothing probe = true ->
        now <= now' ->
        now' - now < temp_refresh_seconds (self w) ->
        let w1 := world_after (get_temperature_info probe now w) in
        _last_temp_ts (self w1) == now
        /\ probes (get_temperature_info probe' now' w1) = 0%nat).
Proof.
  intro H.
  destruct (H (with_temps no_traffic 0) (Raise TimeoutExpired)
              (Raise TimeoutExpired) 100 101
              eq_refl eq_refl eq_refl) as [_ Hprobes].
  - discriminate.
  - reflexivity.
  - vm_compute in Hprobes. discriminate Hprobes.
Qed.

(** C5, as amended.  With a positive TTL, two calls at the same time [now]
    invoke the probe at most once in total when the first call returned a
    reading: the second is answered from the cache.  When the first call
    returned None, the second call invokes the probe again.  A call made
    when at least [temp_refresh_seconds] have elapsed since the stored fetch
    timestamp invokes the probe. *)
Theorem probe_once_per_reading (w : World)
    (p1 p2 : outcome completed_process) (now : Q) :
  enable_temps (self w) = true ->
  0 < temp_refresh_seconds (self w) ->
  let r1 := get_temperature_info p1 now w in
  let r2 := get_temperature_info p2 now (world_after r1) in
  (forall v, result r1 = Val (Some v) ->
     result r2 = Val (Some v) /\ probes r2 = 0%nat
     /\ (probes r1 + probes r2 <= 1)%nat)
  /\ (result r1 = Val None -> probes r2 = 1%nat)
  /\ (temp_refresh_seconds (self w) <= now - _last_temp_ts (self w) ->
      probes r1 = 1%nat).
Proof.
  intros Hen Hpos r1 r2.
  destruct (cache_fresh (self w) now) eqn:Hfresh.
  - (* answered from the cache *)
    assert (r1 = (Val (_last_temp (self w)), w, [])) as E1
      by (subst r1; now apply temperature_cached).
    assert (r2 = (Val (_last_temp (self w)), w, [])) as E2
      by (subst r2; rewrite E1; now apply temperature_cached).
    apply cache_fresh_true in Hfresh. destruct Hfresh as [Hlt [v0 Hv0]].
    rewrite E1, E2, Hv0. split; [|split].
    + intros v Hv. split; [exact Hv|]. split; [reflexivity|].
      unfold probes. simpl. lia.
    + intro Habs. discriminate Habs.
    + intro Hold. lra.
  - (* the probe is invoked *)
    assert (probes r1 = 1%nat) as Hone
      by (subst r1; now apply temperature_probed_once).
    pose proof (temperature_probed p1 now w Hen Hfresh) as E1. fold r1 in E1.
    split; [|split]; [| |intros _; exact Hone].
    + intros v Hv.
      assert (exists res, p1 = Val res /\ (returncode res =? 0)%Z = true
                          /\ parse_temps (stdout res) None = Some v)
        as (res & -> & Hrc & Hparse).
      { destruct p1 as [res|e].
        - rewrite E1 in Hv. destruct (returncode res =? 0)%Z eqn:Hrc.
          + unfold result in Hv. simpl in Hv. injection Hv as Hv.
            exists res. repeat split; assumption.
          + discriminate Hv.
        - rewrite E1 in Hv.
          destruct (existsb (exn_eqb e) probe_caught); discriminate Hv. }
      rewrite Hrc, Hparse in E1.
      assert (enable_temps (self (world_after r1)) = true) as Hen1
        by (rewrite E1; exact Hen).
      assert (cache_fresh (self (world_after r1)) now = true) as Hfresh1.
      { rewrite E1. apply cache_fresh_true. simpl. split.
        - lra.
        - now exists v. }
      assert (r2 = (Val (Some v), world_after r1, [])) as E2.
      { subst r2. rewrite (temperature_cached p2 now _ Hen1 Hfresh1).
        rewrite E1. reflexivity. }
      rewrite E2, Hone. split; [reflexivity|]. split; [reflexivity|].
      unfold probes. simpl. lia.
    + intro Hnone.
      assert (enable_temps (self (world_after r1)) = true
              /\ cache_fresh (self (world_after r1)) now = false)
        as [Hen1 Hstale1].
      { rewrite E1 in Hnone |- *. destruct p1 as [res|e].
        - destruct (returncode res =? 0)%Z.
          + unfold result in Hnone. simpl in Hnone. injection Hnone as Hparse.
            split; [exact Hen|]. apply cache_fresh_false. right.
            simpl. exact Hparse.
          + split; assumption.
        - destruct (existsb (exn_eqb e) probe_caught); split; assumption. }
      subst r2. now apply temperature_probed_once.
Qed.

(** The probe reads 42 degrees at time 100; a second call at time 100 is
    answered from the cache. *)
Lemma probe_once_per_reading_witness :
  let w := with_temps no_traffic 0 in
  let p1 := Val {| returncode := 0; stdout := [OtherLine; TempLine (Some 42)] |} in
  let p2 := Raise TimeoutExpired in
  let r1 := get_temperature_info p1 100 w in
  let r2 := get_temperature_info p2 100 (world_after r1) in
  (forall v, result r1 = Val (Some v) ->
     result r2 = Val (Some v) /\ probes r2 = 0%nat
     /\ (probes r1 + probes r2 <= 1)%nat)
  /\ (result r1 = Val None -> probes r2 = 1%nat)
  /\ (temp_refresh_seconds (self w) <= 100 - _last_temp_ts (self w) ->
      probes r1 = 1%nat).
Proof.
  intros w p1 p2.
  apply (@probe_once_per_reading w p1 p2 100).
  - reflexivity.
  - reflexivity.
Defined.

(** C5, as stated, fails: two calls at the same time 100 whose probe times
    out invoke the probe twice. *)
Lemma failing_probe_runs_twice :
  ~ (forall (w : World) (p1 p2 : outcome completed_process) (now : Q),
        enable_temps (self w) = true ->
        let r1 := get_temperature_info p1 now w in
        let r2 := get_temperature_info p2 now (world_after r1) in
        (probes r1 + probes r2 <= 1)%nat).
Proof.
  intro H.
  specialize (H (with_temps no_traffic 0) (Raise TimeoutExpired)
                (Raise TimeoutExpired) 100 eq_refl).
  vm_compute in H. lia.
Qed.

(** ** History windows *)

Section Deque.
Variable A : Type.

Lemma lastn_length (k : nat) (l : list A) :
  List.length (lastn k l) = Nat.min k (List.length l).
Proof. unfold lastn. rewrite length_skipn. lia. Qed.

Lemma lastn_short (k : nat) (l : list A) :
  (List.length l <= k)%nat -> lastn k l = l.
Proof.
  intro H. unfold lastn. replace (List.length l - k)%nat with 0%nat by lia.
  reflexivity.
Qed.

(** Keeping the last [k] after each push is keeping the last [k] overall. *)
Lemma lastn_app_lastn (k : nat) (l xs : list A) :
  lastn k (lastn k l ++ xs) = lastn k (l ++ xs).
Proof.
  unfold lastn at 2.
  assert (skipn (List.length l - k) l ++ xs
          = skipn (List.length l - k) (l ++ xs)) as E.
  { rewrite skipn_app.
    replace (List.length l - k - List.length l)%nat with 0%nat by lia.
    reflexivity. }
  rewrite E. unfold lastn. rewrite skipn_skipn. f_equal.
  rewrite length_skipn, !length_app. lia.
Qed.

Lemma append_items (d : Py.deque A) (x : A) :
  (List.length (Py.items d) <= Py.maxlen d)%nat ->
  Py.items (Py.append d x) = lastn (Py.maxlen d) (Py.items d ++ [x]).
Proof.
  intro H. unfold Py.append. cbn [Py.items Py.maxlen].
  destruct (Py.maxlen d <? List.length (Py.items d ++ [x]))%nat eqn:E.
  - apply Nat.ltb_lt in E. rewrite length_app in E. cbn [List.length] in E.
    unfold lastn. rewrite length_app. cbn [List.length].
    replace (List.length (Py.items d) + 1 - Py.maxlen d)%nat with 1%nat by lia.
    destruct (Py.items d ++ [x]); reflexivity.
  - apply Nat.ltb_ge in E. now rewrite lastn_short.
Qed.

Lemma append_maxlen (d : Py.deque A) (x : A) :
  Py.maxlen (Py.append d x) = Py.maxlen d.
Proof. reflexivity. Qed.

Lemma pushes_items (xs : list A) : forall d : Py.deque A,
  (List.length (Py.items d) <= Py.maxlen d)%nat ->
  Py.maxlen (fold_left Py.append xs d) = Py.maxlen d
  /\ Py.items (fold_left Py.append xs d)
     = lastn (Py.maxlen d) (Py.items d ++ xs).
Proof.
  induction xs as [|x xs IH]; intros d Hd.
  - cbn [fold_left]. rewrite app_nil_r. split; [reflexivity|].
    symmetry. now apply lastn_short.
  - cbn [fold_left].
    pose proof (append_items d x Hd) as Hstep.
    destruct (IH (Py.append d x)) as [Hm Hi].
    + rewrite Hstep, lastn_length, append_maxlen. lia.
    + rewrite Hm, Hi, append_maxlen, Hstep. split; [reflexivity|].
      rewrite lastn_app_lastn, <- app_assoc. reflexivity.
Qed.

End Deque.

(** What one history update does to the three windows. *)
Lemma record_histories (w : World) (s : Q * Q * Q) :
  cpu_history (self (record w s))
    = Py.append (cpu_history (self w)) (fst (fst s))
  /\ memory_history (self (record w s))
    = Py.append (memory_history (self w)) (snd (fst s))
  /\ network_history (self (record w s))
    = Py.append (network_history (self w)) (snd s).
Proof. repeat split; reflexivity. Qed.

Lemma records_histories (samples : list (Q * Q * Q)) : forall w : World,
  cpu_history (self (fold_left record samples w))
    = fold_left Py.append (map (fun s => fst (fst s)) samples)
        (cpu_history (self w))
  /\ memory_history (self (fold_left record samples w))
    = fold_left Py.append (map (fun s => snd (fst s)) samples)
        (memory_history (self w))
  /\ network_history (self (fold_left record samples w))
    = fold_left Py.append (map (fun s => snd s) samples)
        (network_history (self w)).
Proof.
  induction samples as [|s samples IH]; intro w.
  - repeat split; reflexivity.
  - cbn [fold_left map].
    destruct (IH (record w s)) as (Hc & Hm & Hn).
    destruct (record_histories w s) as (Ec & Em & En).
    rewrite Hc, Hm, Hn, Ec, Em, En. repeat split; reflexivity.
Qed.

(** C8.  A window of capacity k that received m > k values holds exactly k
    values, the last k pushed, oldest first; an insert into a full window
    drops its oldest value.  The monitor's three windows have capacity 20
    and hold, after more than 20 reports, what the last 20 reports
    recorded. *)
Theorem history_window_keeps_last (k : nat) (xs : list Q) :
  (k < List.length xs)%nat ->
  let d := fold_left Py.append xs (Py.deque_new Q k) in
  List.length (Py.items d) = k
  /\ Py.items d = skipn (List.length xs - k) xs
  /\ (forall (full : Py.deque Q) (x : Q),
        Py.maxlen full = k -> List.length (Py.items full) = k ->
        Py.items (Py.append full x) = tl (Py.items full ++ [x]))
  /\ (forall (net0 : psutil.snetio) (disk0 : option psutil.sdiskio)
             (t0 : Q) (samples : list (Q * Q * Q)),
        (20 < List.length samples)%nat ->
        let m := self (fold_left record samples (fresh (init net0 disk0 t0))) in
        Py.items (cpu_history m)
          = lastn 20 (map (fun s => fst (fst s)) samples)
        /\ Py.items (memory_history m)
          = lastn 20 (map (fun s => snd (fst s)) samples)
        /\ Py.items (network_history m)
          = lastn 20 (map (fun s => snd s) samples)
        /\ List.length (Py.items (cpu_history m)) = 20%nat
        /\ List.length (Py.items (memory_history m)) = 20%nat
        /\ List.length (Py.items (network_history m)) = 20%nat).
Proof.
  intros Hk d.
  destruct (@pushes_items Q xs (Py.deque_new Q k)) as [_ Hitems];
    [cbn; lia|].
  cbn [Py.deque_new Py.items Py.maxlen app] in Hitems. fold d in Hitems.
  split; [|split; [|split]].
  - rewrite Hitems, lastn_length. lia.
  - exact Hitems.
  - intros full x Hmax Hlen. unfold Py.append. cbn [Py.items].
    rewrite length_app, Hmax, Hlen. cbn [List.length].
    replace (k <? k + 1)%nat with true; [reflexivity|].
    symmetry. apply Nat.ltb_lt. lia.
  - intros net0 disk0 t0 samples Hlen m.
    destruct (records_histories samples (fresh (init net0 disk0 t0)))
      as (Hc & Hm & Hn).
    fold m in Hc, Hm, Hn.
    assert (forall f : Q * Q * Q -> Q,
              Py.items (fold_left Py.append (map f samples) (Py.deque_new Q 20))
              = lastn 20 (map f samples)) as Hwin.
    { intro f.
      destruct (@pushes_items Q (map f samples) (Py.deque_new Q 20))
        as [_ Hi]; [cbn; lia|].
      exact Hi. }
    cbn [init fresh self cpu_history memory_history network_history]
      in Hc, Hm, Hn.
    rewrite Hc, Hm, Hn, !Hwin, !lastn_length, !length_map.
    repeat split; try reflexivity; lia.
Qed.

(** A window of capacity 5 that received 10, 20, 30, 40, 50, 60. *)
Lemma history_window_keeps_last_witness :
  Py.items (fold_left Py.append [10; 20; 30; 40; 50; 60] (Py.deque_new Q 5))
  = [20; 30; 40; 50; 60].
Proof.
  destruct (@history_window_keeps_last 5 [10; 20; 30; 40; 50; 60])
    as (_ & Hitems & _).
  - cbn. lia.
  - exact Hitems.
Defined.

(** ** Sorting and slicing *)

Section SortFacts.
Variable A : Type.
Variable key : A -> Q.

Lemma insert_desc_perm (x : A) (l : list A) :
  Permutation (Py.insert_desc key x l) (x :: l).
Proof.
  induction l as [|y l IH]; cbn [Py.insert_desc].
  - apply Permutation_refl.
  - destruct (Qle_bool (key y) (key x)).
    + apply Permutation_refl.
    + apply perm_trans with (y :: x :: l).
      * now apply perm_skip.
      * apply perm_swap.
Qed.

Lemma sort_desc_perm (l : list A) : Permutation (Py.sort_desc key l) l.
Proof.
  induction l as [|x l IH]; cbn.
  - apply perm_nil.
  - apply perm_trans with (x :: Py.sort_desc key l).
    + apply insert_desc_perm.
    + now apply perm_skip.
Qed.

Lemma insert_desc_sorted (x : A) (l : list A) :
  descending key l -> descending key (Py.insert_desc key x l).
Proof.
  unfold descending. induction l as [|y l IH]; intro Hs; cbn [Py.insert_desc].
  - repeat constructor.
  - apply StronglySorted_inv in Hs. destruct Hs as [Hl Hy].
    destruct (Qle_bool (key y) (key x)) eqn:E.
    + apply Qle_bool_iff in E. constructor.
      * now constructor.
      * constructor; [exact E|].
        revert Hy. apply Forall_impl. intros a Ha. lra.
    + assert (key x < key y) as Hlt.
      { apply Qnot_le_lt. intro H. apply Qle_bool_iff in H. congruence. }
      constructor.
      * now apply IH.
      * apply (Permutation_Forall (Permutation_sym (insert_desc_perm x l))).
        constructor; [lra | exact Hy].
Qed.

Lemma sort_desc_sorted (l : list A) : descending key (Py.sort_desc key l).
Proof.
  induction l as [|x l IH]; cbn.
  - constructor.
  - now apply insert_desc_sorted.
Qed.

(** Stability: an insertion passes only elements with a strictly larger
    key, so the elements tied at any one key keep their order. *)
Lemma insert_desc_stable (q : Q) (x : A) (l : list A) :
  tied key q (Py.insert_desc key x l) = tied key q (x :: l).
Proof.
  unfold tied. induction l as [|y l IH]; cbn [Py.insert_desc].
  - reflexivity.
  - destruct (Qle_bool (key y) (key x)) eqn:E; [reflexivity|].
    assert (key x < key y) as Hlt.
    { apply Qnot_le_lt. intro H. apply Qle_bool_iff in H. congruence. }
    cbn [filter] in IH |- *. rewrite IH.
    destruct (Qeq_bool (key x) q) eqn:Ex, (Qeq_bool (key y) q) eqn:Ey;
      try reflexivity.
    apply Qeq_bool_iff in Ex, Ey. lra.
Qed.

Lemma sort_desc_stable (q : Q) (l : list A) :
  tied key q (Py.sort_desc key l) = tied key q l.
Proof.
  induction l as [|x l IH]; cbn [Py.sort_desc fold_right].
  - reflexivity.
  - change (fold_right (Py.insert_desc key) [] l) with (Py.sort_desc key l).
    rewrite insert_desc_stable. unfold tied in *. cbn [filter].
    now rewrite IH.
Qed.

Lemma descending_firstn (n : nat) (l : list A) :
  descending key l -> descending key (firstn n l).
Proof.
  unfold descending. revert n. induction l as [|x l IH]; intros n Hs.
  - rewrite firstn_nil. constructor.
  - destruct n as [|n]; [constructor|]. cbn [firstn].
    apply StronglySorted_inv in Hs. destruct Hs as [Hl Hx].
    constructor.
    + now apply IH.
    + rewrite <- (firstn_skipn n l) in Hx. apply Forall_app in Hx. tauto.
Qed.

End SortFacts.

Section SublistFacts.
Variable A : Type.

Lemma sublist_refl (l : list A) : sublist l l.
Proof.
  induction l; [apply sublist_nil | apply sublist_take; assumption].
Qed.

Lemma sublist_nil_l (l : list A) : sublist [] l.
Proof. induction l; constructor; assumption. Qed.

Lemma sublist_trans (a b c : list A) :
  sublist a b -> sublist b c -> sublist a c.
Proof.
  intros Hab Hbc. revert a Hab.
  induction Hbc as [|x s l Hsl IH|x s l Hsl IH]; intros a Hab.
  - exact Hab.
  - constructor. now apply IH.
  - inversion Hab; subst.
    + apply sublist_skip. now apply IH.
    + apply sublist_take. now apply IH.
Qed.

Lemma sublist_filter (f : A -> bool) (l : list A) : sublist (filter f l) l.
Proof.
  induction l as [|x l IH]; cbn [filter].
  - constructor.
  - destruct (f x); [apply sublist_take | apply sublist_skip]; assumption.
Qed.

Lemma sublist_firstn (n : nat) (l : list A) : sublist (firstn n l) l.
Proof.
  revert n. induction l as [|x l IH]; intro n.
  - rewrite firstn_nil. constructor.
  - destruct n; cbn [firstn].
    + apply sublist_nil_l.
    + apply sublist_take. apply IH.
Qed.

Lemma sublist_app (a b c d : list A) :
  sublist a b -> sublist c d -> sublist (a ++ c) (b ++ d).
Proof.
  intros Hab Hcd. induction Hab; cbn [app].
  - exact Hcd.
  - now apply sublist_skip.
  - now apply sublist_take.
Qed.

Lemma sublist_NoDup (s l : list A) : sublist s l -> NoDup l -> NoDup s.
Proof.
  intro H. induction H as [|x s l Hsl IH|x s l Hsl IH]; intro Hnd.
  - constructor.
  - inversion Hnd; subst. now apply IH.
  - inversion Hnd as [|y l' Hnotin Hl]; subst. constructor.
    + intro Hin. apply Hnotin. clear - Hsl Hin.
      induction Hsl; cbn in *; tauto.
    + now apply IH.
Qed.

End SublistFacts.

Lemma sublist_map (A B : Type) (f : A -> B) (s l : list A) :
  sublist s l -> sublist (map f s) (map f l).
Proof.
  intro H. induction H; cbn [map].
  - apply sublist_nil.
  - now apply sublist_skip.
  - now apply sublist_take.
Qed.

(** Filtering a prefix gives a part, in order, of the filtered list. *)
Lemma tied_firstn (A : Type) (key : A -> Q) (q : Q) (n : nat) (l : list A) :
  sublist (tied key q (firstn n l)) (tied key q l).
Proof.
  unfold tied. rewrite <- (firstn_skipn n l) at 2. rewrite filter_app.
  rewrite <- (app_nil_r (filter _ (firstn n l))) at 1.
  apply sublist_app; [apply sublist_refl | apply sublist_nil_l].
Qed.

Lemma slice_to_nonneg (A : Type) (l : list A) (num : Z) :
  (0 <= num)%Z -> Py.slice_to l num = firstn (Z.to_nat num) l.
Proof.
  intro H. unfold Py.slice_to.
  destruct (num <? 0)%Z eqn:E; [|reflexivity].
  apply Z.ltb_lt in E. lia.
Qed.

(** ** The process table *)

Lemma note_baseline_self (w : World) (p : psutil.process) :
  self (note_baseline w p) = self w.
Proof.
  unfold note_baseline. destruct (has_baseline w (psutil.pid p)); reflexivity.
Qed.

Lemma read_one_run (p : psutil.process) (w : World) :
  read_one p w =
  match psutil.read_fault p with
  | None => (Val [record_of p (cpu_seen w p)], note_baseline w p, [])
  | Some e =>
      if existsb (exn_eqb e) process_gone
      then (Val [], w, [])
      else (Raise e, w, [])
  end.
Proof.
  unfold read_one, try_except. destruct (psutil.read_fault p) as [e|].
  - unfold raise. destruct (existsb (exn_eqb e) process_gone); reflexivity.
  - reflexivity.
Qed.

Lemma prime_one_run (p : psutil.process) (w : World) :
  prime_one p w =
  match psutil.prime_fault p with
  | None => (Val tt, note_baseline w p, [PrimeRead (psutil.pid p)])
  | Some e =>
      if existsb (exn_eqb e) process_gone
      then (Val tt, w, [PrimeRead (psutil.pid p)])
      else (Raise e, w, [PrimeRead (psutil.pid p)])
  end.
Proof.
  unfold prime_one, try_except, bind, emit.
  destruct (psutil.prime_fault p) as [e|].
  - unfold raise. destruct (existsb (exn_eqb e) process_gone); reflexivity.
  - reflexivity.
Qed.

(** The ranking loop writes nothing to the monitor and logs nothing. *)
Lemma collect_frame (table : list psutil.process) : forall w : World,
  events (collect table w) = []
  /\ self (world_after (collect table w)) = self w.
Proof.
  induction table as [|p rest IH]; intro w.
  - split; reflexivity.
  - cbn [collect]. unfold bind. rewrite read_one_run.
    destruct (psutil.read_fault p) as [e|].
    + destruct (existsb (exn_eqb e) process_gone).
      * destruct (IH w) as [Hev Hself].
        destruct (collect rest w) as [[[recs|e'] w2] ev2];
          unfold events, world_after in *; cbn in *; subst;
          (split; [reflexivity | assumption]).
      * split; reflexivity.
    + destruct (IH (note_baseline w p)) as [Hev Hself].
      rewrite note_baseline_self in Hself.
      destruct (collect rest (note_baseline w p)) as [[[recs|e'] w2] ev2];
        unfold events, world_after in *; cbn in *; subst;
        (split; [reflexivity | assumption]).
Qed.

Lemma races_only_cons (p : psutil.process) (rest : list psutil.process) :
  races_only (p :: rest) = true ->
  gone_or_fine (psutil.prime_fault p) = true
  /\ gone_or_fine (psutil.read_fault p) = true
  /\ races_only rest = true.
Proof.
  unfold races_only. cbn [forallb]. rewrite !andb_true_iff. tauto.
Qed.

(** With nothing worse than vanished processes, the loop returns, and the
    records it collected follow the enumeration order. *)
Lemma collect_val (table : list psutil.process) :
  races_only table = true ->
  forall w : World, exists recs,
    result (collect table w) = Val recs
    /\ sublist (map pid recs) (map psutil.pid table).
Proof.
  induction table as [|p rest IH]; intros Hok w.
  - exists []. split; [reflexivity | apply sublist_nil].
  - apply races_only_cons in Hok. destruct Hok as (_ & Hread & Hrest).
    cbn [collect]. unfold bind. rewrite read_one_run.
    unfold gone_or_fine in Hread.
    destruct (psutil.read_fault p) as [e|].
    + rewrite Hread. destruct (IH Hrest w) as (recs & Hres & Hsub).
      destruct (collect rest w) as [[[recs'|e'] w2] ev2];
        unfold result in *; cbn in *; [|discriminate].
      injection Hres as ->. exists recs. split; [reflexivity|].
      now apply sublist_skip.
    + destruct (IH Hrest (note_baseline w p)) as (recs & Hres & Hsub).
      destruct (collect rest (note_baseline w p)) as [[[recs'|e'] w2] ev2];
        unfold result in *; cbn in *; [|discriminate].
      injection Hres as ->. exists (record_of p (cpu_seen w p) :: recs).
      split; [reflexivity|]. now apply sublist_take.
Qed.

Lemma prime_pass_val (table : list psutil.process) :
  races_only table = true ->
  forall w : World,
    result (prime_pass table w) = Val tt
    /\ self (world_after (prime_pass table w)) = self w
    /\ events (prime_pass table w) = map (fun p => PrimeRead (psutil.pid p)) table.
Proof.
  induction table as [|p rest IH]; intros Hok w.
  - repeat split; reflexivity.
  - apply races_only_cons in Hok. destruct Hok as (Hprime & _ & Hrest).
    cbn [prime_pass map]. unfold bind. rewrite prime_one_run.
    unfold gone_or_fine in Hprime.
    destruct (psutil.prime_fault p) as [e|].
    + rewrite Hprime. destruct (IH Hrest w) as (Hres & Hself & Hev).
      destruct (prime_pass rest w) as [[r w2] ev2];
        unfold result, world_after, events in *; cbn in *; subst.
      repeat split; assumption.
    + destruct (IH Hrest (note_baseline w p)) as (Hres & Hself & Hev).
      rewrite note_baseline_self in Hself.
      destruct (prime_pass rest (note_baseline w p)) as [[r w2] ev2];
        unfold result, world_after, events in *; cbn in *; subst.
      repeat split; assumption.
Qed.

(** A call that does not prime is the ranking loop followed by the sort. *)
Lemma get_top_processes_unprimed (table : list psutil.process) (now : Q)
    (num : Z) (sort_by : string) (w : World) :
  primes sort_by now (self w) = false ->
  get_top_processes table now num sort_by w =
  match collect table w with
  | (Val recs, w2, ev2) =>
      (Val (Py.slice_to (rank sort_by recs) num), w2, ev2 ++ [])
  | (Raise e, w2, ev2) => (Raise e, w2, ev2)
  end.
Proof.
  intro H. unfold get_top_processes, bind, get_self. rewrite H.
  unfold ret. destruct (collect table w) as [[[recs|e] w2] ev2]; reflexivity.
Qed.

(** What a call returns when nothing worse than vanished processes happens:
    the ranked prefix of the records collected after the optional priming. *)
Lemma get_top_processes_result (table : list psutil.process) (now : Q)
    (num : Z) (sort_by : string) (w : World) :
  races_only table = true ->
  exists (w1 : World) (recs : list proc_record),
    result (collect table w1) = Val recs
    /\ result (get_top_processes table now num sort_by w)
       = Val (Py.slice_to (rank sort_by recs) num).
Proof.
  intro Hok. destruct (primes sort_by now (self w)) eqn:Hp.
  - destruct (prime_pass_val table Hok w) as (Hres & _ & _).
    destruct (prime_pass table w) as [[r w1] ev1] eqn:Eprime.
    unfold result in Hres. cbn in Hres. subst r.
    pose (w1' := world_after (set_proc_prime_ts now w1)).
    destruct (collect_val table Hok w1') as (recs & Hrecs & _).
    exists w1', recs. split; [exact Hrecs|].
    unfold get_top_processes, bind, get_self. rewrite Hp, Eprime.
    cbn [emit set_proc_prime_ts assign].
    fold w1'. unfold set_proc_prime_ts, assign, world_after in w1'.
    cbn in w1'. fold w1'.
    destruct (collect table w1') as [[[recs'|e] w2] ev2];
      unfold result in *; cbn in *; [|discriminate].
    now injection Hrecs as ->.
  - destruct (collect_val table Hok w) as (recs & Hrecs & _).
    exists w, recs. split; [exact Hrecs|].
    rewrite (get_top_processes_unprimed table now num sort_by w Hp).
    destruct (collect table w) as [[[recs'|e] w2] ev2];
      unfold result in *; cbn in *; [|discriminate].
    now injection Hrecs as ->.
Qed.

Lemma rank_cpu (recs : list proc_record) :
  rank "cpu" recs = Py.sort_desc cpu_percent recs.
Proof. reflexivity. Qed.

Lemma rank_unrecognised (sort_by : string) (recs : list proc_record) :
  recognised sort_by = false ->
  rank sort_by recs = Py.sort_desc cpu_percent recs.
Proof. intro H. unfold rank. rewrite H. reflexivity. Qed.

(** C9, as amended.  For every n >= 0 and every process table (distinct
    pids; nothing worse than vanished, zombie or access-denied processes
    while it is read), the call with sort key 'cpu' returns a sequence
    sorted descending by cpu_percent, of length at most n, without duplicate
    pids, in which the records tied at one cpu_percent value appear in
    process enumeration order. *)
Theorem top_cpu_is_ranked (table : list psutil.process) (now : Q) (num : Z)
    (w : World) :
  (0 <= num)%Z ->
  NoDup (map psutil.pid table) ->
  races_only table = true ->
  exists res,
    result (get_top_processes table now num "cpu" w) = Val res
    /\ descending cpu_percent res
    /\ (Z.of_nat (List.length res) <= num)%Z
    /\ NoDup (map pid res)
    /\ forall q, sublist (map pid (tied cpu_percent q res))
                         (map psutil.pid table).
Proof.
  intros Hnum Hnd Hok.
  destruct (get_top_processes_result table now num "cpu" w Hok)
    as (w1 & recs & Hrecs & Hres).
  assert (sublist (map pid recs) (map psutil.pid table)) as Hsub.
  { destruct (collect_val table Hok w1) as (recs' & Hrecs' & Hsub).
    rewrite Hrecs in Hrecs'. now injection Hrecs' as <-. }
  rewrite rank_cpu, (slice_to_nonneg _ Hnum) in Hres.
  set (sorted := Py.sort_desc cpu_percent recs) in *.
  exists (firstn (Z.to_nat num) sorted). split; [exact Hres|].
  split; [|split; [|split]].
  - apply descending_firstn, sort_desc_sorted.
  - rewrite length_firstn. lia.
  - apply sublist_NoDup with (map pid sorted).
    + apply sublist_map, sublist_firstn.
    + apply Permutation_NoDup with (map pid recs).
      * apply Permutation_map, Permutation_sym, sort_desc_perm.
      * now apply sublist_NoDup with (map psutil.pid table).
  - intro q.
    apply sublist_trans with (map pid recs); [|exact Hsub].
    apply sublist_map.
    apply sublist_trans with (tied cpu_percent q sorted).
    + apply tied_firstn.
    + unfold sorted. rewrite sort_desc_stable. apply sublist_filter.
Qed.

Lemma three_pids_distinct : NoDup (map psutil.pid three_processes).
Proof.
  cbn. repeat constructor; cbn; intuition discriminate.
Qed.

(** The two busiest of three processes, two of which are tied. *)
Lemma top_cpu_is_ranked_witness :
  exists res,
    result (get_top_processes three_processes 100 2 "cpu"
              (fresh (init no_traffic None 0))) = Val res
    /\ descending cpu_percent res
    /\ (Z.of_nat (List.length res) <= 2)%Z
    /\ NoDup (map pid res)
    /\ forall q, sublist (map pid (tied cpu_percent q res))
                         (map psutil.pid three_processes).
Proof.
  apply (@top_cpu_is_ranked three_processes 100 2
           (fresh (init no_traffic None 0))).
  - discriminate.
  - exact three_pids_distinct.
  - reflexivity.
Defined.

(** C9, as stated for every n, fails for a negative one: [processes[:-1]]
    drops the last record only, so three processes give two records. *)
Lemma negative_count_is_not_a_bound :
  ~ (forall (table : list psutil.process) (now : Q) (num : Z) (w : World)
            (res : list proc_record),
        result (get_top_processes table now num "cpu" w) = Val res ->
        (Z.of_nat (List.length res) <= num)%Z).
Proof.
  intro H.
  pose proof (H three_processes 100 (-1)%Z (fresh (init no_traffic None 0))
                _ eq_refl) as Hlen.
  vm_compute in Hlen. apply Hlen. reflexivity.
Qed.

(** ** Priming *)

(** C10.  A call with sort key 'memory' skips the priming pass whatever the
    time and the stored priming timestamp: it issues no throwaway read and
    no sleep, and leaves the monitor, in particular [_proc_prime_ts],
    unchanged.  The cpu_percent fields it returns may then be first reads:
    three busy processes read for the first time are all returned with 0. *)
Theorem memory_ranking_does_not_prime (table : list psutil.process)
    (now : Q) (num : Z) (w : World) :
  let r := get_top_processes table now num "memory" w in
  events r = []
  /\ filter is_priming (events r) = []
  /\ self (world_after r) = self w
  /\ _proc_prime_ts (self (world_after r)) = _proc_prime_ts (self w)
  /\ (let r0 := get_top_processes three_processes 100 10 "memory"
                  (fresh (init no_traffic None 0)) in
      exists recs,
        result r0 = Val recs
        /\ map pid recs = [1; 3; 2]%Z
        /\ map cpu_percent recs = [0; 0; 0]).
Proof.
  intro r.
  assert (events r = [] /\ self (world_after r) = self w) as [Hev Hself].
  { subst r. rewrite get_top_processes_unprimed by reflexivity.
    destruct (collect_frame table w) as [Hev Hself].
    destruct (collect table w) as [[[recs|e] w2] ev2];
      unfold events, world_after in *; cbn in *; subst; split;
      reflexivity || assumption. }
  split; [exact Hev|]. split; [now rewrite Hev|].
  split; [exact Hself|]. split; [now rewrite Hself|].
  eexists. split; [reflexivity|]. split; reflexivity.
Qed.

(** An unrecognised key ranks by CPU but never primes. *)
Lemma unrecognised_key_never_primes (table : list psutil.process)
    (now : Q) (num : Z) (sort_by : string) (w : World) :
  recognised sort_by = false ->
  let r := get_top_processes table now num sort_by w in
  events r = []
  /\ self (world_after r) = self w
  /\ forall recs, result (collect table w) = Val recs ->
       result r = Val (Py.slice_to (Py.sort_desc cpu_percent recs) num).
Proof.
  intros Hrec r.
  assert (primes sort_by now (self w) = false) as Hp.
  { unfold primes. unfold recognised in Hrec.
    apply orb_false_iff in Hrec. destruct Hrec as [-> _]. reflexivity. }
  subst r. rewrite (get_top_processes_unprimed table now num sort_by w Hp).
  destruct (collect_frame table w) as [Hev Hself].
  destruct (collect table w) as [[[recs|e] w2] ev2];
    unfold events, world_after, result in *; cbn in *; subst;
    (split; [reflexivity|]); (split; [assumption|]); intros recs' Hrecs.
  - injection Hrecs as <-. now rewrite rank_unrecognised.
  - discriminate.
Qed.

(** The key 'cpu' primes when the last priming is more than 5 s old. *)
Lemma cpu_key_primes (table : list psutil.process) (now : Q) (num : Z)
    (w : World) :
  5 < now - _proc_prime_ts (self w) ->
  races_only table = true ->
  let r := get_top_processes table now num "cpu" w in
  _proc_prime_ts (self (world_after r)) = now
  /\ events r
     = map (fun p => PrimeRead (psutil.pid p)) table
       ++ [Sleep; Store F_proc_prime_ts].
Proof.
  intros Hold Hok r.
  assert (primes "cpu" now (self w) = true) as Hp.
  { unfold primes. cbn. now apply Qlt_bool_iff. }
  destruct (prime_pass_val table Hok w) as (Hres & _ & Hev).
  subst r. unfold get_top_processes, bind, get_self. rewrite Hp.
  destruct (prime_pass table w) as [[r1 w1] ev1].
  unfold result, events in Hres, Hev. cbn in Hres, Hev. subst r1 ev1.
  cbn [emit set_proc_prime_ts assign].
  match goal with
  | |- context [collect table ?w'] =>
      destruct (collect_frame table w') as [Hcev Hcself];
      destruct (collect table w') as [[[recs|e] w2] ev2]
  end;
    unfold events, world_after in *; cbn in *; subst;
    rewrite Hcself; (split; [reflexivity|]);
    rewrite ?app_nil_r, <- ?app_assoc; reflexivity.
Qed.

(** C6 at a failing input: three processes, first call at time 100.  With
    the key 'cpu' the call primes, stores the priming time and ranks the
    primed readings; with the unrecognised key 'threads' it does neither and
    returns the processes in enumeration order with zero readings. *)
Theorem unrecognised_key_is_not_cpu :
  let w := fresh (init no_traffic None 0) in
  let by_cpu := get_top_processes three_processes 100 10 "cpu" w in
  let by_other := get_top_processes three_processes 100 10 "threads" w in
  events by_cpu
    = [PrimeRead 1; PrimeRead 2; PrimeRead 3; Sleep; Store F_proc_prime_ts]
  /\ events by_other = []
  /\ _proc_prime_ts (self (world_after by_cpu)) = 100
  /\ _proc_prime_ts (self (world_after by_other)) = 0
  /\ (exists recs, result by_cpu = Val recs
        /\ map pid recs = [2; 1; 3]%Z /\ map cpu_percent recs = [50; 10; 10])
  /\ (exists recs, result by_other = Val recs
        /\ map pid recs = [1; 2; 3]%Z /\ map cpu_percent recs = [0; 0; 0]).
Proof.
  cbv zeta. repeat split; try reflexivity.
  - eexists. split; [reflexivity|]. split; reflexivity.
  - eexists. split; [reflexivity|]. split; reflexivity.
Qed.

(** ** Recoverable conditions *)

Lemma bind_val (A B : Type) (c : M A) (k : A -> M B) (w : World) (a : A) :
  result (c w) = Val a ->
  result (bind c k w) = result (k a (world_after (c w))).
Proof.
  unfold bind, result, world_after.
  destruct (c w) as [[[a'|e] w1] ev1]; cbn; intro H; [|discriminate].
  injection H as ->. destruct (k a w1) as [[r w2] ev2]. reflexivity.
Qed.

Lemma scan_partitions_run (parts : list psutil.sdiskpart) (w : World) :
  forallb usage_recoverable parts = true ->
  scan_partitions parts w = (Val (readable_partitions parts), w, []).
Proof.
  induction parts as [|p parts IH]; intro Hok.
  - reflexivity.
  - cbn [forallb] in Hok. apply andb_true_iff in Hok. destruct Hok as [Hp Hrest].
    cbn [scan_partitions readable_partitions flat_map].
    unfold bind, try_except, lift. unfold usage_recoverable in Hp.
    fold (readable_partitions parts).
    destruct (psutil.disk_usage p) as [usage|e].
    + cbn. rewrite (IH Hrest). reflexivity.
    + unfold partition_caught in Hp. rewrite Hp. cbn.
      rewrite (IH Hrest). reflexivity.
Qed.

Lemma get_disk_info_val (parts : list psutil.sdiskpart)
    (io : option psutil.sdiskio) (now : Q) (w : World) :
  forallb usage_recoverable parts = true ->
  match io with None => true | Some _ => is_some (_prev_disk_io (self w)) end
    = true ->
  exists st,
    result (get_disk_info parts io now w)
      = Val {| partitions := readable_partitions parts; io_stats := st |}
    /\ (io = None -> st = None)
    /\ temp_state (self (world_after (get_disk_info parts io now w)))
       = temp_state (self w).
Proof.
  intros Hparts Hbase. unfold get_disk_info, bind.
  rewrite (scan_partitions_run parts w Hparts).
  destruct io as [io|].
  - destruct (_prev_disk_io (self w)) as [prev|] eqn:E; [|discriminate].
    rewrite (disk_io_stats_run io now w E).
    eexists. split; [reflexivity|]. split; [discriminate | reflexivity].
  - exists None. repeat split; reflexivity.
Qed.

Lemma get_temperature_info_val (probe : outcome completed_process) (now : Q)
    (w : World) :
  probe_recoverable probe = true ->
  exists t,
    result (get_temperature_info probe now w) = Val t
    /\ (yields_nothing probe = true -> cache_fresh (self w) now = false ->
        t = None)
    /\ (enable_temps (self w) = false -> t = None).
Proof.
  intro Hok. destruct (enable_temps (self w)) eqn:Hen.
  - destruct (cache_fresh (self w) now) eqn:Hfresh.
    + rewrite (temperature_cached probe now w Hen Hfresh).
      eexists. split; [reflexivity|]. split; intros; discriminate.
    + rewrite (temperature_probed probe now w Hen Hfresh).
      destruct probe as [res|e]; cbn in Hok |- *.
      * destruct (returncode res =? 0)%Z eqn:Hrc.
        -- eexists. split; [reflexivity|]. split; [|discriminate].
           cbn. intros Hnone _.
           destruct (parse_temps (stdout res) None); [discriminate|reflexivity].
        -- exists None. repeat split; reflexivity.
      * rewrite Hok. exists None. repeat split; reflexivity.
  - rewrite (temperature_disabled probe now w Hen).
    exists None. repeat split; reflexivity.
Qed.

Lemma get_battery_info_val (battery : option psutil.sbattery) (w : World) :
  exists b,
    result (get_battery_info battery w) = Val b
    /\ world_after (get_battery_info battery w) = w
    /\ (battery = None -> b = None).
Proof.
  destruct battery as [b|].
  - eexists. split; [reflexivity|]. split; [reflexivity|discriminate].
  - exists None. repeat split; reflexivity.
Qed.

(** The records collected are those of the readable processes. *)
Lemma collect_pids (table : list psutil.process) :
  races_only table = true ->
  forall (w : World) (recs : list proc_record),
    result (collect table w) = Val recs ->
    map pid recs = map psutil.pid (readable table).
Proof.
  induction table as [|p rest IH]; intros Hok w recs Hres.
  - injection Hres as <-. reflexivity.
  - apply races_only_cons in Hok. destruct Hok as (_ & Hread & Hrest).
    cbn [collect] in Hres. unfold bind in Hres. rewrite read_one_run in Hres.
    unfold readable. cbn [filter]. fold (readable rest).
    unfold gone_or_fine in Hread.
    destruct (psutil.read_fault p) as [e|]; cbn [is_some negb].
    + rewrite Hread in Hres.
      destruct (collect rest w) as [[[recs'|e'] w2] ev2] eqn:E;
        unfold result in Hres; cbn in Hres; [|discriminate].
      injection Hres as <-. apply (IH Hrest w). now rewrite E.
    + destruct (collect rest (note_baseline w p)) as [[[recs'|e'] w2] ev2] eqn:E;
        unfold result in Hres; cbn in Hres; [|discriminate].
      injection Hres as <-. cbn [map app]. f_equal.
      apply (IH Hrest (note_baseline w p)). now rewrite E.
Qed.

Lemma slice_to_incl (A : Type) (l : list A) (num : Z) :
  incl (Py.slice_to l num) l.
Proof.
  assert (forall n, incl (firstn n l) l) as Hfirst.
  { intros n x Hx. rewrite <- (firstn_skipn n l).
    apply in_or_app. now left. }
  unfold Py.slice_to. destruct (num <? 0)%Z; apply Hfirst.
Qed.

Lemma rank_perm (sort_by : string) (recs : list proc_record) :
  Permutation (rank sort_by recs) recs.
Proof.
  unfold rank. destruct (_ =? "cpu")%string; apply sort_desc_perm.
Qed.

(** Every record returned belongs to a process that could be read. *)
Lemma get_top_processes_val (table : list psutil.process) (now : Q)
    (num : Z) (sort_by : string) (w : World) :
  races_only table = true ->
  exists res,
    result (get_top_processes table now num sort_by w) = Val res
    /\ incl (map pid res) (map psutil.pid (readable table)).
Proof.
  intro Hok.
  destruct (get_top_processes_result table now num sort_by w Hok)
    as (w1 & recs & Hrecs & Hres).
  eexists. split; [exact Hres|].
  rewrite <- (@collect_pids table Hok w1 recs Hrecs).
  intros x Hx. apply in_map_iff in Hx. destruct Hx as (r & <- & Hr).
  apply in_map. apply slice_to_incl in Hr.
  apply (Permutation_in _ (rank_perm sort_by recs) Hr).
Qed.

Lemma cache_fresh_temp_state (m m' : Monitor) (now : Q) :
  temp_state m = temp_state m' -> cache_fresh m now = cache_fresh m' now.
Proof.
  unfold temp_state, cache_fresh. intro H. injection H as _ -> -> ->.
  reflexivity.
Qed.

Lemma enable_temps_temp_state (m m' : Monitor) :
  temp_state m = temp_state m' -> enable_temps m = enable_temps m'.
Proof. unfold temp_state. intro H. now injection H. Qed.

Lemma get_network_info_val (net_io : psutil.snetio) (now : Q) (w : World) :
  exists rep,
    result (get_network_info net_io now w) = Val rep
    /\ temp_state (self (world_after (get_network_info net_io now w)))
       = temp_state (self w).
Proof. eexists. split; reflexivity. Qed.

(** The optional battery entry of the report. *)
Lemma battery_entry_val (include_battery : bool)
    (battery : option psutil.sbattery) (w : World) :
  exists b,
    result ((if include_battery
             then x <- get_battery_info battery ;; ret (Some x)
             else ret None) w) = Val b
    /\ (battery = None -> b = if include_battery then Some None else None).
Proof.
  destruct include_battery, battery as [b|];
    eexists; (split; [reflexivity|]); intro H; (discriminate || reflexivity).
Qed.

(** ** The ranking depends on the process state only *)

Lemma cpu_seen_baseline (p : psutil.process) (w w' : World) :
  cpu_baseline w = cpu_baseline w' -> cpu_seen w p = cpu_seen w' p.
Proof. unfold cpu_seen, has_baseline. now intros ->. Qed.

Lemma note_baseline_baseline (p : psutil.process) (w w' : World) :
  cpu_baseline w = cpu_baseline w' ->
  cpu_baseline (note_baseline w p) = cpu_baseline (note_baseline w' p).
Proof.
  unfold note_baseline, has_baseline. intro H. rewrite H.
  destruct (existsb (Z.eqb (psutil.pid p)) (cpu_baseline w')); cbn;
    [exact H | reflexivity].
Qed.

Lemma collect_baseline (table : list psutil.process) : forall w w' : World,
  cpu_baseline w = cpu_baseline w' ->
  result (collect table w) = result (collect table w')
  /\ cpu_baseline (world_after (collect table w))
     = cpu_baseline (world_after (collect table w')).
Proof.
  induction table as [|p rest IH]; intros w w' H.
  - split; [reflexivity | exact H].
  - cbn [collect]. unfold bind. rewrite !read_one_run.
    destruct (psutil.read_fault p) as [e|].
    + destruct (existsb (exn_eqb e) process_gone).
      * destruct (IH w w' H) as [Hr Hb].
        destruct (collect rest w) as [[[r|e1] w1] ev1],
                 (collect rest w') as [[[r'|e1'] w1'] ev1'];
          unfold result, world_after in *; cbn in *; try discriminate;
          (split; [congruence | assumption]).
      * split; [reflexivity | exact H].
    + rewrite (@cpu_seen_baseline p w w' H).
      destruct (IH _ _ (@note_baseline_baseline p w w' H)) as [Hr Hb].
      destruct (collect rest (note_baseline w p)) as [[[r|e1] w1] ev1],
               (collect rest (note_baseline w' p)) as [[[r'|e1'] w1'] ev1'];
        unfold result, world_after in *; cbn in *; try discriminate;
        (split; [congruence | assumption]).
Qed.

Lemma prime_pass_baseline (table : list psutil.process) : forall w w' : World,
  cpu_baseline w = cpu_baseline w' ->
  result (prime_pass table w) = result (prime_pass table w')
  /\ cpu_baseline (world_after (prime_pass table w))
     = cpu_baseline (world_after (prime_pass table w')).
Proof.
  induction table as [|p rest IH]; intros w w' H.
  - split; [reflexivity | exact H].
  - cbn [prime_pass]. unfold bind. rewrite !prime_one_run.
    destruct (psutil.prime_fault p) as [e|].
    + destruct (existsb (exn_eqb e) process_gone).
      * destruct (IH w w' H) as [Hr Hb].
        destruct (prime_pass rest w) as [[[r|e1] w1] ev1],
                 (prime_pass rest w') as [[[r'|e1'] w1'] ev1'];
          unfold result, world_after in *; cbn in *; try discriminate;
          (split; [congruence | assumption]).
      * split; [reflexivity | exact H].
    + destruct (IH _ _ (@note_baseline_baseline p w w' H)) as [Hr Hb].
      destruct (prime_pass rest (note_baseline w p)) as [[[r|e1] w1] ev1],
               (prime_pass rest (note_baseline w' p)) as [[[r'|e1'] w1'] ev1'];
        unfold result, world_after in *; cbn in *; try discriminate;
        (split; [congruence | assumption]).
Qed.

(** A call is the optional priming followed by the ranking loop, the sort
    and the slice. *)
Lemma get_top_processes_split (table : list psutil.process) (now : Q)
    (num : Z) (sort_by : string) (w : World) :
  result (get_top_processes table now num sort_by w)
  = if primes sort_by now (self w)
    then match result (prime_pass table w) with
         | Raise e => Raise e
         | Val _ =>
             match result (collect table (primed table now sort_by w)) with
             | Val recs => Val (Py.slice_to (rank sort_by recs) num)
             | Raise e => Raise e
             end
         end
    else match result (collect table w) with
         | Val recs => Val (Py.slice_to (rank sort_by recs) num)
         | Raise e => Raise e
         end.
Proof.
  unfold primed, get_top_processes, bind, get_self.
  destruct (primes sort_by now (self w)).
  - destruct (prime_pass table w) as [[[[]|e1] w1] ev1];
      unfold result, world_after; cbn; [|reflexivity].
    match goal with
    | |- context [collect table ?w2] =>
        destruct (collect table w2) as [[[recs|e2] w3] ev3]
    end; reflexivity.
  - cbn. destruct (collect table w) as [[[recs|e2] w3] ev3]; reflexivity.
Qed.


Lemma primed_baseline (table : list psutil.process) (now : Q)
    (sort_by : string) (w w' : World) :
  process_state w = process_state w' ->
  cpu_baseline (primed table now sort_by w)
  = cpu_baseline (primed table now sort_by w').
Proof.
  unfold process_state. intro H. injection H as Hts Hb.
  unfold primed, bind, get_self.
  assert (primes sort_by now (self w) = primes sort_by now (self w')) as ->
    by (unfold primes; now rewrite Hts).
  destruct (primes sort_by now (self w')); [|exact Hb].
  destruct (@prime_pass_baseline table w w' Hb) as [Hr Hb1].
  destruct (prime_pass table w) as [[[[]|e1] w1] ev1],
           (prime_pass table w') as [[[[]|e1'] w1'] ev1'];
    unfold result, world_after in *; cbn in *; try discriminate; exact Hb1.
Qed.

(** What a call returns is the same in two worlds with the same priming
    time and the same CPU baselines. *)
Lemma get_top_processes_frame (table : list psutil.process) (now : Q)
    (num : Z) (sort_by : string) (w w' : World) :
  process_state w = process_state w' ->
  result (get_top_processes table now num sort_by w)
  = result (get_top_processes table now num sort_by w').
Proof.
  intro H. rewrite !get_top_processes_split.
  pose proof (@primed_baseline table now sort_by w w' H) as Hp.
  unfold process_state in H. injection H as Hts Hb.
  assert (primes sort_by now (self w) = primes sort_by now (self w')) as ->
    by (unfold primes; now rewrite Hts).
  destruct (@prime_pass_baseline table w w' Hb) as [-> _].
  destruct (@collect_baseline table _ _ Hp) as [-> _].
  destruct (@collect_baseline table _ _ Hb) as [-> _].
  reflexivity.
Qed.


(** ** The methods called before the ranking leave the process state *)

Lemma get_disk_info_process_state (parts : list psutil.sdiskpart)
    (io : option psutil.sdiskio) (now : Q) (w : World) :
  forallb usage_recoverable parts = true ->
  match io with None => true | Some _ => is_some (_prev_disk_io (self w)) end
    = true ->
  process_state (world_after (get_disk_info parts io now w)) = process_state w.
Proof.
  intros Hparts Hbase. unfold get_disk_info, bind.
  rewrite (scan_partitions_run parts w Hparts).
  destruct io as [io|]; [|reflexivity].
  destruct (_prev_disk_io (self w)) as [prev|] eqn:E; [|discriminate].
  rewrite (disk_io_stats_run io now w E). reflexivity.
Qed.

Lemma get_temperature_info_process_state (probe : outcome completed_process)
    (now : Q) (w : World) :
  probe_recoverable probe = true ->
  process_state (world_after (get_temperature_info probe now w))
  = process_state w.
Proof.
  intro Hok. destruct (enable_temps (self w)) eqn:Hen.
  - destruct (cache_fresh (self w) now) eqn:Hfresh.
    + now rewrite (temperature_cached probe now w Hen Hfresh).
    + rewrite (temperature_probed probe now w Hen Hfresh).
      destruct probe as [res|e]; cbn in Hok |- *.
      * destruct (returncode res =? 0)%Z; reflexivity.
      * rewrite Hok. reflexivity.
  - now rewrite (temperature_disabled probe now w Hen).
Qed.

(** ** The rows of the process table *)

Lemma add_row_run (proc : proc_record) (w : World) :
  exists row,
    add_row proc w
    = (if unnamed proc then Raise TypeError else Val row, w, []).
Proof.
  pose (blank := {| row_pid := 0; row_cpu := 0; row_cpu_bar := [];
                    row_cpu_color := green; row_mem := 0; row_mem_bar := [];
                    row_mem_color := green; row_name := ""; row_user := "" |}).
  unfold add_row, unnamed, subscript_to, bind.
  destruct (name proc) as [n|]; cbn.
  - destruct (username proc) as [u|]; cbn.
    + eexists. reflexivity.
    + exists blank. reflexivity.
  - exists blank. reflexivity.
Qed.

(** Building the rows changes nothing, logs nothing, and fails on the first
    record without a name or a user, with TypeError. *)
Lemma add_rows_run (top_list : list proc_record) (w : World) :
  exists rows,
    add_rows top_list w
    = (if existsb unnamed top_list then Raise TypeError else Val rows, w, []).
Proof.
  induction top_list as [|proc rest IH].
  - exists []. reflexivity.
  - cbn [add_rows existsb]. unfold bind.
    destruct (add_row_run proc w) as (row & ->).
    destruct (unnamed proc); cbn [orb].
    + exists []. reflexivity.
    + destruct IH as (rows & ->).
      destruct (existsb unnamed rest);
        [exists []; reflexivity | eexists; reflexivity].
Qed.

Lemma add_rows_length (top_list : list proc_record) (w : World)
    (rows : list table_row) :
  result (add_rows top_list w) = Val rows ->
  List.length rows = List.length top_list
  /\ map row_pid rows = map pid top_list.
Proof.
  revert rows. induction top_list as [|proc rest IH]; intros rows H.
  - injection H as <-. split; reflexivity.
  - cbn [add_rows] in H. unfold bind in H.
    unfold add_row, subscript_to, bind in H.
    destruct (name proc) as [n|]; cbn in H; [|discriminate].
    destruct (username proc) as [u|]; cbn in H; [|discriminate].
    destruct (add_rows rest w) as [[[rows'|e] w1] ev1] eqn:E;
      unfold result in *; cbn in H; [|discriminate].
    injection H as <-. destruct (IH rows' eq_refl) as [Hl Hp].
    cbn. now rewrite Hl, Hp.
Qed.

(** The optional process entry of the report. *)
Lemma process_entry_val (include_processes : bool)
    (table : list psutil.process) (now : Q) (top_n : Z) (sort_by : string)
    (w : World) :
  races_only table = true ->
  exists p,
    result ((if include_processes
             then x <- get_top_processes table now top_n sort_by ;;
                  ret (Some x)
             else ret None) w) = Val p
    /\ if include_processes
       then exists recs, p = Some recs
              /\ result (get_top_processes table now top_n sort_by w)
                 = Val recs
              /\ incl (map pid recs) (map psutil.pid (readable table))
       else p = None.
Proof.
  intro Hok. destruct include_processes.
  - destruct (get_top_processes_val table now top_n sort_by w Hok)
      as (res & Hres & Hincl).
    exists (Some res). split.
    + rewrite (@bind_val _ _ _ _ _ _ Hres). reflexivity.
    + now exists res.
  - exists None. split; reflexivity.
Qed.

(** In a tick where nothing worse happens than the recoverable conditions
    (a missing battery, a probe that times out, exits non-zero or is not
    installed, processes that vanish or deny access, partitions that deny
    access), and where disk counters are only compared with stored ones
    that exist, [get_json_report] returns a report.  The partitions that
    cannot be read are left out, the battery entry and the temperature
    entry are None, and the process entry is what [get_top_processes]
    returns, names and users that psutil was denied being None in it. *)
Lemma json_report_returns (env : Env) (include_processes : bool)
    (top_n : Z) (sort_by : string) (include_battery : bool) (w : World) :
  recoverable env = true ->
  disk_baseline_ok w env = true ->
  exists rep,
    result (get_json_report env include_processes top_n sort_by
              include_battery w) = Val rep
    /\ partitions (disk rep) = readable_partitions (disk_partitions env)
    /\ (disk_io_counters env = None -> io_stats (disk rep) = None)
    /\ (sensors_battery env = None ->
        battery rep = if include_battery then Some None else None)
    /\ (yields_nothing (powermetrics env) = true ->
        cache_fresh (self w) (now_temp env) = false ->
        temperature rep = None)
    /\ (enable_temps (self w) = false -> temperature rep = None)
    /\ (if include_processes
        then exists recs, top_processes rep = Some recs
               /\ result (get_top_processes (process_iter env) (now_proc env)
                            top_n sort_by w) = Val recs
               /\ incl (map pid recs)
                       (map psutil.pid (readable (process_iter env)))
        else top_processes rep = None).
Proof.
  intros Hrec Hbase. unfold recoverable in Hrec.
  apply andb_true_iff in Hrec. destruct Hrec as [Hrec Hprocs].
  apply andb_true_iff in Hrec. destruct Hrec as [Hparts Hprobe].
  unfold disk_baseline_ok in Hbase.
  (* disk *)
  destruct (get_disk_info_val (disk_partitions env) (disk_io_counters env)
              (now_disk env) w Hparts Hbase) as (st & Hd & Hst & Htemp1).
  pose proof (get_disk_info_process_state (disk_partitions env)
                (disk_io_counters env) (now_disk env) w Hparts Hbase) as Hps1.
  set (w1 := world_after (get_disk_info (disk_partitions env)
                            (disk_io_counters env) (now_disk env) w)) in *.
  (* network *)
  destruct (get_network_info_val (net_io_counters env) (now_net env) w1)
    as (nrep & Hn & Htemp2).
  set (w2 := world_after (get_network_info (net_io_counters env)
                            (now_net env) w1)) in *.
  assert (temp_state (self w2) = temp_state (self w)) as Htemp
    by (now rewrite Htemp2).
  assert (process_state w2 = process_state w) as Hps2 by exact Hps1.
  (* temperature, after disk and network *)
  destruct (get_temperature_info_val (powermetrics env) (now_temp env) w2 Hprobe)
    as (t & Ht & Htnone & Htoff).
  pose proof (get_temperature_info_process_state (powermetrics env)
                (now_temp env) w2 Hprobe) as Hps3.
  set (w3 := world_after (get_temperature_info (powermetrics env)
                            (now_temp env) w2)) in *.
  destruct (battery_entry_val include_battery (sensors_battery env) w3)
    as (b & Hb & Hbnone).
  assert (world_after
            ((if include_battery
              then x <- get_battery_info (sensors_battery env) ;; ret (Some x)
              else ret None) w3) = w3) as Hw4
    by (destruct include_battery, (sensors_battery env); reflexivity).
  destruct (process_entry_val include_processes (process_iter env)
              (now_proc env) top_n sort_by w3 Hprocs) as (p & Hp & Hpshape).
  eexists. split; [|split; [|split; [|split; [|split; [|split]]]]].
  - unfold get_json_report.
    rewrite (@bind_val _ _ _ _ _ _ Hd). fold w1.
    rewrite (@bind_val _ _ _ _ _ _ Hn). fold w2.
    rewrite (@bind_val _ _ _ _ _ _ Ht). fold w3.
    rewrite (@bind_val _ _ _ _ _ _ Hb), Hw4.
    rewrite (@bind_val _ _ _ _ _ _ Hp).
    reflexivity.
  - reflexivity.
  - exact Hst.
  - exact Hbnone.
  - cbn [temperature]. intros Hnothing Hstale. apply Htnone; [exact Hnothing|].
    now rewrite (cache_fresh_temp_state _ Htemp).
  - cbn [temperature]. intro Hoff. apply Htoff.
    now rewrite (enable_temps_temp_state Htemp).
  - cbn [top_processes]. destruct include_processes; [|exact Hpshape].
    destruct Hpshape as (recs & -> & Hres & Hincl).
    exists recs. split; [reflexivity|]. split; [|exact Hincl].
    rewrite <- Hres. apply get_top_processes_frame.
    now rewrite Hps3, Hps2.
Qed.

(** Under the same conditions the text report collects its data, updates
    the histories and gets the list for the process table; it then returns
    when every record of that list has a name and a user, and raises
    TypeError when one has not. *)
Lemma text_report_result (env : Env) (top_n : Z) (sort_by : string)
    (show_battery : bool) (w : World) :
  recoverable env = true ->
  disk_baseline_ok w env = true ->
  exists top_list,
    result (get_top_processes (process_iter env) (now_proc env)
              top_n sort_by w) = Val top_list
    /\ result (print_performance_report env true top_n sort_by
                 show_battery w)
       = if existsb unnamed top_list then Raise TypeError else Val tt.
Proof.
  intros Hrec Hbase. unfold recoverable in Hrec.
  apply andb_true_iff in Hrec. destruct Hrec as [Hrec Hprocs].
  apply andb_true_iff in Hrec. destruct Hrec as [Hparts Hprobe].
  unfold disk_baseline_ok in Hbase.
  destruct (get_disk_info_val (disk_partitions env) (disk_io_counters env)
              (now_disk env) w Hparts Hbase) as (st & Hd & _ & _).
  pose proof (get_disk_info_process_state (disk_partitions env)
                (disk_io_counters env) (now_disk env) w Hparts Hbase) as Hps1.
  set (w1 := world_after (get_disk_info (disk_partitions env)
                            (disk_io_counters env) (now_disk env) w)) in *.
  destruct (get_network_info_val (net_io_counters env) (now_net env) w1)
    as (nrep & Hn & _).
  set (w2 := world_after (get_network_info (net_io_counters env)
                            (now_net env) w1)) in *.
  assert (process_state w2 = process_state w) as Hps2 by exact Hps1.
  destruct (get_temperature_info_val (powermetrics env) (now_temp env) w2 Hprobe)
    as (t & Ht & _ & _).
  pose proof (get_temperature_info_process_state (powermetrics env)
                (now_temp env) w2 Hprobe) as Hps3.
  set (w3 := world_after (get_temperature_info (powermetrics env)
                            (now_temp env) w2)) in *.
  assert (result (update_history (cpu_overall_usage env) (mem_percent env)
                    (send_rate_mib_s nrep + recv_rate_mib_s nrep) w3)
          = Val tt) as Hh by reflexivity.
  set (w4 := world_after
               (update_history (cpu_overall_usage env) (mem_percent env)
                  (send_rate_mib_s nrep + recv_rate_mib_s nrep) w3)) in *.
  assert (process_state w4 = process_state w) as Hps4
    by (rewrite <- Hps2, <- Hps3; reflexivity).
  destruct (get_top_processes_val (process_iter env) (now_proc env)
              top_n sort_by w4 Hprocs) as (top_list & Hres & _).
  exists top_list. split.
  - rewrite <- Hres. symmetry. now apply get_top_processes_frame.
  - unfold print_performance_report.
    rewrite (@bind_val _ _ _ _ _ _ Hd). fold w1.
    rewrite (@bind_val _ _ _ _ _ _ Hn). fold w2.
    destruct (get_battery_info_val (sensors_battery env) w2)
      as (b2 & Hb2 & Hw2 & _).
    assert (exists b', result ((if show_battery
                                then get_battery_info (sensors_battery env)
                                else ret None) w2) = Val b'
                       /\ world_after ((if show_battery
                                then get_battery_info (sensors_battery env)
                                else ret None) w2) = w2) as (b' & Hb' & Hw').
    { destruct show_battery; [now exists b2 | now exists None]. }
    rewrite (@bind_val _ _ _ _ _ _ Hb'), Hw'.
    rewrite (@bind_val _ _ _ _ _ _ Ht). fold w3.
    rewrite (@bind_val _ _ _ _ _ _ Hh). fold w4.
    rewrite (@bind_val _ _ _ _ _ _ Hres).
    unfold bind.
    destruct (add_rows_run top_list
                (world_after (get_top_processes (process_iter env)
                                (now_proc env) top_n sort_by w4)))
      as (rows & ->).
    destruct (existsb unnamed top_list); reflexivity.
Qed.


(** * Further properties *)

(** ** Truncation *)

Lemma int_lower (x : Q) (n : Z) : inject_Z n <= x -> (n <= Builtin.int x)%Z.
Proof.
  intro H. unfold Builtin.int. destruct (Qle_bool 0 x).
  - rewrite <- (Qfloor_Z n). now apply Qfloor_resp_le.
  - rewrite <- (Qceiling_Z n). now apply Qceiling_resp_le.
Qed.

Lemma int_upper (x : Q) (n : Z) : x <= inject_Z n -> (Builtin.int x <= n)%Z.
Proof.
  intro H. unfold Builtin.int. destruct (Qle_bool 0 x).
  - rewrite <- (Qfloor_Z n). now apply Qfloor_resp_le.
  - rewrite <- (Qceiling_Z n). now apply Qceiling_resp_le.
Qed.

Lemma int_inject_Z (n : Z) : Builtin.int (inject_Z n) = n.
Proof.
  apply Z.le_antisymm; [apply int_upper | apply int_lower]; apply Qle_refl.
Qed.

(** Below an integer bound, strictly, for a value that is not negative. *)
Lemma int_below (x : Q) (n : Z) :
  0 <= x -> x < inject_Z n -> (0 <= Builtin.int x < n)%Z.
Proof.
  intros H0 Hn. split.
  - now apply (@int_lower x 0).
  - unfold Builtin.int. apply Qle_bool_iff in H0. rewrite H0.
    pose proof (Qfloor_le x) as Hf.
    assert (inject_Z (Qfloor x) < inject_Z n) as Hlt by lra.
    now rewrite <- Zlt_Qlt in Hlt.
Qed.

Lemma times_length (A : Type) (c : A) (n : Z) :
  Z.of_nat (List.length (Builtin.times c n)) = Z.max 0 n.
Proof. unfold Builtin.times. rewrite repeat_length. lia. Qed.

(** ** Progress bars *)

Lemma share_of_width (value : Q) (width : Z) :
  0 <= value -> value <= 100 -> (0 <= width)%Z ->
  0 <= value / 100 * inject_Z width <= inject_Z width.
Proof.
  intros H0 H100 Hw.
  assert (0 <= inject_Z width) as Hw'
    by (change 0 with (inject_Z 0); now rewrite <- Zle_Qle).
  set (w := inject_Z width) in *.
  assert (value / 100 == value * (1 # 100)) as E by (field).
  rewrite E. split.
  - apply Qmult_le_0_compat; [|exact Hw']. lra.
  - setoid_replace w with (1 * w) at 2 by ring.
    apply Qmult_le_compat_r; [lra | exact Hw'].
Qed.

Lemma progress_bar_length (value : Q) (width : Z) :
  0 <= value -> value <= 100 -> (0 <= width)%Z ->
  Z.of_nat (List.length (_create_progress_bar value width)) = width.
Proof.
  intros H0 H100 Hw.
  destruct (share_of_width H0 H100 Hw) as [Hlo Hhi].
  apply (@int_lower _ 0) in Hlo. apply int_upper in Hhi.
  unfold _create_progress_bar.
  rewrite length_app, Nat2Z.inj_add, !times_length. lia.
Qed.

(** X1.  For a percentage between 0 and 100 and a width that is not
    negative, the progress bar of the report and the one of the TUI widgets
    are exactly [width] cells long: full blocks first, light shade after. *)
Theorem progress_bar_has_width (value : Q) (width : Z) :
  0 <= value -> value <= 100 -> (0 <= width)%Z ->
  (exists filled,
     (0 <= filled <= width)%Z
     /\ _create_progress_bar value width
        = Builtin.times B8 filled ++ Builtin.times Shade (width - filled)
     /\ Z.of_nat (List.length (_create_progress_bar value width)) = width)
  /\
  (exists filled,
     (0 <= filled <= width)%Z
     /\ TUI._create_progress_bar value width
        = Builtin.times B8 filled ++ Builtin.times Shade (width - filled)
     /\ Z.of_nat (List.length (TUI._create_progress_bar value width)) = width).
Proof.
  intros H0 H100 Hw.
  destruct (share_of_width H0 H100 Hw) as [Hlo Hhi].
  split.
  - exists (Builtin.int (value / 100 * inject_Z width)).
    assert (0 <= Builtin.int (value / 100 * inject_Z width) <= width)%Z as Hf.
    { split; [now apply (@int_lower _ 0) | now apply int_upper]. }
    split; [exact Hf|]. split; [reflexivity|].
    unfold _create_progress_bar.
    rewrite length_app, Nat2Z.inj_add, !times_length. lia.
  - assert (inject_Z width * value / 100 == value / 100 * inject_Z width) as E
      by field.
    exists (Builtin.int (inject_Z width * value / 100)).
    assert (0 <= Builtin.int (inject_Z width * value / 100) <= width)%Z as Hf.
    { split; [apply (@int_lower _ 0) | apply int_upper]; rewrite E; assumption. }
    split; [exact Hf|]. split; [reflexivity|].
    unfold TUI._create_progress_bar.
    rewrite length_app, Nat2Z.inj_add, !times_length. lia.
Qed.

Lemma progress_bar_has_width_witness :
  Z.of_nat (List.length (_create_progress_bar 50 10)) = 10%Z
  /\ Z.of_nat (List.length (TUI._create_progress_bar 50 10)) = 10%Z.
Proof.
  destruct (@progress_bar_has_width 50 10) as [(f1 & _ & _ & H1) (f2 & _ & _ & H2)].
  - discriminate.
  - discriminate.
  - discriminate.
  - split; assumption.
Defined.

(** X2.  A value above 100 is not clamped by the bar itself: the bar then
    consists of full blocks only and is at least [width] long.  The bars of
    the process rows are drawn from [min(pct, 100)], and are exactly 10 cells
    long for every percentage that is not negative. *)
Theorem progress_bar_overflow (value : Q) (width : Z) :
  100 < value -> (0 < width)%Z ->
  (exists filled,
     (width <= filled)%Z
     /\ _create_progress_bar value width = Builtin.times B8 filled)
  /\ (width <= Z.of_nat (List.length (_create_progress_bar value width)))%Z
  /\ (forall pct, 0 <= pct -> List.length (row_bar pct) = 10%nat).
Proof.
  intros Hv Hw.
  assert (inject_Z width <= value / 100 * inject_Z width) as Hbig.
  { assert (0 < inject_Z width) as Hw'
      by (change 0 with (inject_Z 0); now rewrite <- Zlt_Qlt).
    set (w := inject_Z width) in *.
    assert (value / 100 == value * (1 # 100)) as E by field.
    rewrite E. setoid_replace w with (1 * w) at 1 by ring.
    apply Qmult_le_compat_r; lra. }
  apply int_lower in Hbig.
  assert (_create_progress_bar value width
          = Builtin.times B8 (Builtin.int (value / 100 * inject_Z width)))
    as Hshape.
  { unfold _create_progress_bar, Builtin.times at 2.
    replace (Z.to_nat (width - _)) with 0%nat by lia.
    apply app_nil_r. }
  split; [|split].
  - eexists. split; [exact Hbig | exact Hshape].
  - rewrite Hshape, times_length. lia.
  - intros pct Hpct. unfold row_bar.
    set (v := if Qlt_bool 100 pct then 100 else pct).
    assert (0 <= v /\ v <= 100) as [Hv0 Hv100].
    { subst v. destruct (Qlt_bool 100 pct) eqn:E.
      - split; discriminate.
      - apply Qlt_bool_false_iff in E. split; assumption. }
    apply Nat2Z.inj. rewrite (@progress_bar_length v 10 Hv0 Hv100); [reflexivity|].
    discriminate.
Qed.

Lemma progress_bar_overflow_witness :
  (10 <= Z.of_nat (List.length (_create_progress_bar 150 10)))%Z.
Proof.
  destruct (@progress_bar_overflow 150 10) as (_ & H & _).
  - reflexivity.
  - reflexivity.
  - exact H.
Defined.

(** ** Status colours *)

Lemma Qle_bool_false (a b : Q) : Qle_bool a b = false <-> b < a.
Proof.
  split; intro H.
  - apply Qnot_le_lt. intro Hle. apply Qle_bool_iff in Hle. congruence.
  - destruct (Qle_bool a b) eqn:E; [|reflexivity].
    apply Qle_bool_iff in E. lra.
Qed.

(** X3.  The status emoji and the status colour of the report agree on
    every percentage: a red circle exactly when the colour is red (90 and
    above), a yellow one exactly when it is yellow (75 to 90), a green one
    exactly when it is blue or green (below 75). *)
Theorem status_emoji_matches_color (percent : Q) :
  (_get_status_emoji percent = red_circle
     <-> _get_status_color percent = red)
  /\ (_get_status_emoji percent = yellow_circle
     <-> _get_status_color percent = yellow)
  /\ (_get_status_emoji percent = green_circle
     <-> _get_status_color percent = blue \/ _get_status_color percent = green)
  /\ (_get_status_color percent = red <-> 90 <= percent)
  /\ (_get_status_color percent = yellow <-> 75 <= percent /\ percent < 90)
  /\ (_get_status_color percent = blue <-> 50 <= percent /\ percent < 75)
  /\ (_get_status_color percent = green <-> percent < 50).
Proof.
  unfold _get_status_emoji, _get_status_color.
  destruct (Qle_bool 90 percent) eqn:E90;
    destruct (Qle_bool 75 percent) eqn:E75;
    destruct (Qle_bool 50 percent) eqn:E50;
    try apply Qle_bool_iff in E90; try apply Qle_bool_false in E90;
    try apply Qle_bool_iff in E75; try apply Qle_bool_false in E75;
    try apply Qle_bool_iff in E50; try apply Qle_bool_false in E50;
    repeat split; intros; try discriminate; try tauto; try lra;
    try (left; reflexivity); try (right; reflexivity);
    try (match goal with H : _ \/ _ |- _ => destruct H; discriminate end);
    try (match goal with H : _ /\ _ |- _ => destruct H; lra end).
Qed.

(** X4.  The widgets of the TUI turn yellow at 70 where the report turns
    yellow at 75: the two colour scales give the same colour for every
    percentage outside [70, 75), and yellow against blue inside it. *)
Theorem tui_color_differs_between_70_and_75 (percent : Q) :
  (TUI._get_status_color percent = _get_status_color percent
     <-> ~ (70 <= percent /\ percent < 75))
  /\ (70 <= percent /\ percent < 75 ->
      TUI._get_status_color percent = yellow
      /\ _get_status_color percent = blue).
Proof.
  unfold TUI._get_status_color, _get_status_color.
  destruct (Qle_bool 90 percent) eqn:E90;
    destruct (Qle_bool 75 percent) eqn:E75;
    destruct (Qle_bool 70 percent) eqn:E70;
    destruct (Qle_bool 50 percent) eqn:E50;
    try apply Qle_bool_iff in E90; try apply Qle_bool_false in E90;
    try apply Qle_bool_iff in E75; try apply Qle_bool_false in E75;
    try apply Qle_bool_iff in E70; try apply Qle_bool_false in E70;
    try apply Qle_bool_iff in E50; try apply Qle_bool_false in E50;
    (split; [split|]); intros; try discriminate; try reflexivity;
    try lra; try tauto;
    try (match goal with H : _ /\ _ |- _ => destruct H; lra end);
    try (match goal with H : ~ _ |- _ => exfalso; apply H; split; lra end);
    try (intros [? ?]; lra);
    try (split; reflexivity).
Qed.

(** ** Sparklines *)

Section Traverse.
Variables A B : Type.
Variable f : A -> answer B.

Lemma traverse_ok (P : B -> Prop) (l : list A) :
  (forall x, In x l -> exists y, f x = Ok y /\ P y) ->
  exists ys, Builtin.traverse f l = Ok ys
    /\ List.length ys = List.length l /\ Forall P ys.
Proof.
  induction l as [|x l IH]; intro H.
  - exists []. repeat split. constructor.
  - destruct (H x (or_introl eq_refl)) as (y & Hy & HP).
    destruct IH as (ys & Hys & Hlen & Hall).
    { intros x' Hx'. apply H. now right. }
    exists (y :: ys). cbn [Builtin.traverse]. rewrite Hy, Hys.
    repeat split; [cbn; now rewrite Hlen | now constructor].
Qed.

Lemma traverse_const (b : B) (l : list A) :
  (forall x, In x l -> f x = Ok b) ->
  Builtin.traverse f l = Ok (repeat b (List.length l)).
Proof.
  induction l as [|x l IH]; intro H.
  - reflexivity.
  - cbn [Builtin.traverse List.length repeat].
    rewrite (H x (or_introl eq_refl)), IH; [reflexivity|].
    intros x' Hx'. apply H. now right.
Qed.

(** One failing element makes the comprehension fail. *)
Lemma traverse_err (e : error) (l : list A) :
  (forall x e', f x = Err e' -> e' = e) ->
  (exists x, In x l /\ f x = Err e) ->
  Builtin.traverse f l = Err e.
Proof.
  intros Honly. induction l as [|x l IH]; intros (x0 & Hin & Hx0).
  - destruct Hin.
  - cbn [Builtin.traverse]. destruct (f x) as [y|e'] eqn:Hx.
    + destruct Hin as [->|Hin]; [congruence|].
      rewrite IH; [reflexivity|]. now exists x0.
    + f_equal. now apply (Honly x).
Qed.

End Traverse.

Lemma range_spec (n i : Z) : In i (Builtin.range n) <-> (0 <= i < n)%Z.
Proof.
  unfold Builtin.range. rewrite in_map_iff. split.
  - intros (k & <- & Hk). apply in_seq in Hk. lia.
  - intro H. exists (Z.to_nat i). split; [lia|]. apply in_seq. lia.
Qed.

Lemma range_length (n : Z) : List.length (Builtin.range n) = Z.to_nat n.
Proof. unfold Builtin.range. now rewrite length_map, length_seq. Qed.

Lemma index_in_range (A : Type) (l : list A) (i : Z) :
  (0 <= i < Z.of_nat (List.length l))%Z ->
  exists v, Builtin.index l i = Some v /\ In v l.
Proof.
  intro H. unfold Builtin.index.
  replace (0 <=? i)%Z with true by (symmetry; apply Z.leb_le; lia).
  replace (i <? Z.of_nat (List.length l))%Z with true
    by (symmetry; apply Z.ltb_lt; lia).
  destruct (nth_error l (Z.to_nat i)) as [v|] eqn:E.
  - exists v. split; [reflexivity|]. eapply nth_error_In; exact E.
  - apply nth_error_None in E. lia.
Qed.

Lemma index_out_of_range (A : Type) (l : list A) (i : Z) :
  (i < - Z.of_nat (List.length l))%Z -> Builtin.index l i = None.
Proof.
  intro H. unfold Builtin.index.
  replace (0 <=? i)%Z with false by (symmetry; apply Z.leb_gt; lia).
  replace (- Z.of_nat (List.length l) <=? i)%Z with false
    by (symmetry; apply Z.leb_gt; lia).
  reflexivity.
Qed.

(** [min] and [max] bound every element and are elements. *)
Lemma fold_min_spec (rest : list Q) : forall x : Q,
  let m := fold_left (fun m y => if Qlt_bool y m then y else m) rest x in
  m <= x /\ (forall v, In v rest -> m <= v) /\ In m (x :: rest).
Proof.
  induction rest as [|y rest IH]; intro x; cbn [fold_left].
  - repeat split; [apply Qle_refl | intros v [] | now left].
  - destruct (Qlt_bool y x) eqn:E.
    + apply Qlt_bool_iff in E. destruct (IH y) as (H1 & H2 & H3).
      repeat split.
      * lra.
      * intros v [<-|Hv]; [exact H1 | now apply H2].
      * right. exact H3.
    + apply Qlt_bool_false_iff in E. destruct (IH x) as (H1 & H2 & H3).
      repeat split.
      * exact H1.
      * intros v [<-|Hv]; [lra | now apply H2].
      * destruct H3 as [H3|H3]; [now left | right; now right].
Qed.

Lemma fold_max_spec (rest : list Q) : forall x : Q,
  let m := fold_left (fun m y => if Qlt_bool m y then y else m) rest x in
  x <= m /\ (forall v, In v rest -> v <= m) /\ In m (x :: rest).
Proof.
  induction rest as [|y rest IH]; intro x; cbn [fold_left].
  - repeat split; [apply Qle_refl | intros v [] | now left].
  - destruct (Qlt_bool x y) eqn:E.
    + apply Qlt_bool_iff in E. destruct (IH y) as (H1 & H2 & H3).
      repeat split.
      * lra.
      * intros v [<-|Hv]; [exact H1 | now apply H2].
      * right. exact H3.
    + apply Qlt_bool_false_iff in E. destruct (IH x) as (H1 & H2 & H3).
      repeat split.
      * exact H1.
      * intros v [<-|Hv]; [lra | now apply H2].
      * destruct H3 as [H3|H3]; [now left | right; now right].
Qed.

Lemma minimum_spec (l : list Q) :
  l <> [] ->
  exists m, Builtin.minimum l = Some m
    /\ (forall v, In v l -> m <= v) /\ In m l.
Proof.
  destruct l as [|x rest]; [congruence|]. intros _.
  destruct (fold_min_spec rest x) as (H1 & H2 & H3).
  eexists. split; [reflexivity|]. split; [|exact H3].
  intros v [<-|Hv]; [exact H1 | now apply H2].
Qed.

Lemma maximum_spec (l : list Q) :
  l <> [] ->
  exists m, Builtin.maximum l = Some m
    /\ (forall v, In v l -> v <= m) /\ In m l.
Proof.
  destruct l as [|x rest]; [congruence|]. intros _.
  destruct (fold_max_spec rest x) as (H1 & H2 & H3).
  eexists. split; [reflexivity|]. split; [|exact H3].
  intros v [<-|Hv]; [exact H1 | now apply H2].
Qed.

(** The sample an output position reads lies inside the data. *)
Lemma sample_position (len width i : Z) :
  (0 < len)%Z -> (0 <= i < width)%Z ->
  (0 <= Builtin.int (inject_Z i * (inject_Z len / inject_Z width)) < len)%Z.
Proof.
  intros Hlen Hi.
  assert (0 <= inject_Z i) as Hi0
    by (change 0 with (inject_Z 0); rewrite <- Zle_Qle; lia).
  assert (0 < inject_Z len) as Hl0
    by (change 0 with (inject_Z 0); rewrite <- Zlt_Qlt; lia).
  assert (0 < inject_Z width) as Hw0
    by (change 0 with (inject_Z 0); rewrite <- Zlt_Qlt; lia).
  apply int_below.
  - apply Qmult_le_0_compat; [assumption|].
    apply Qle_shift_div_l; [assumption|]. lra.
  - assert (inject_Z i * (inject_Z len / inject_Z width)
            == inject_Z (i * len) / inject_Z width) as E.
    { rewrite inject_Z_mult. field. lra. }
    rewrite E. apply Qlt_shift_div_r; [exact Hw0|].
    rewrite <- inject_Z_mult, <- Zlt_Qlt. nia.
Qed.

(** A cell of the sparkline, for a position inside the width. *)
Lemma spark_cell_ok (data : list Q) (min_val range_val : Q) (width i : Z) :
  data <> [] -> (0 <= i < width)%Z ->
  (forall v, In v data -> min_val <= v) -> 0 < range_val ->
  exists g, spark_cell data min_val range_val
              (inject_Z (Z.of_nat (List.length data)) / inject_Z width) i = Ok g
    /\ In g bars.
Proof.
  intros Hne Hi Hmin Hrange. unfold spark_cell.
  assert (0 < Z.of_nat (List.length data))%Z as Hlen
    by (destruct data; [congruence | cbn; lia]).
  pose proof (sample_position Hlen Hi) as Hidx.
  set (idx := Builtin.int _) in *.
  replace (idx <? Z.of_nat (List.length data))%Z with true
    by (symmetry; apply Z.ltb_lt; lia).
  destruct (index_in_range data Hidx) as (v & -> & Hv).
  assert (0 <= (v - min_val) / range_val * 8) as Hnorm.
  { apply Qmult_le_0_compat; [|discriminate].
    apply Qle_shift_div_l; [exact Hrange|]. specialize (Hmin v Hv). lra. }
  apply (@int_lower _ 0) in Hnorm.
  set (k := Z.min _ _).
  assert (0 <= k < Z.of_nat (List.length bars))%Z as Hk by (cbn; lia).
  destruct (index_in_range bars Hk) as (g & -> & Hg).
  now exists g.
Qed.

(** X5.  The sparkline of the report is exactly [width] characters long
    whenever it is drawn: a row of rules for fewer than two samples, and
    otherwise one block per position, each read from a sample inside the
    window and quantised to one of the eight levels, so that the rule of
    the loop's else branch never appears and no index is out of range.  The
    one failure is a width of 0 with two or more samples, which divides by
    zero. *)
Theorem sparkline_has_width (data : list Q) (width : Z) :
  (width <> 0%Z \/ (List.length data < 2)%nat ->
   exists s, _create_sparkline data width = Ok s
     /\ Z.of_nat (List.length s) = Z.max 0 width
     /\ ((2 <= List.length data)%nat -> Forall (fun g => In g bars) s)
     /\ ((List.length data < 2)%nat -> s = Builtin.times Rule width))
  /\ ((2 <= List.length data)%nat ->
      _create_sparkline data 0 = Err ZeroDivisionError).
Proof.
  assert (forall w, (2 <= List.length data)%nat ->
            exists min_val max_val,
              (forall v, In v data -> min_val <= v)
              /\ _create_sparkline data w =
                 let range_val :=
                   if Qlt_bool min_val max_val then max_val - min_val else 1 in
                 if (w =? 0)%Z then Err ZeroDivisionError
                 else Builtin.traverse
                        (spark_cell data min_val range_val
                           (inject_Z (Z.of_nat (List.length data)) / inject_Z w))
                        (Builtin.range w)) as Hrun.
  { intros w Hlen.
    assert (data <> []) as Hne by (destruct data; [cbn in Hlen; lia | congruence]).
    destruct (minimum_spec Hne) as (mn & Hmn & Hlow & _).
    destruct (maximum_spec Hne) as (mx & Hmx & _ & _).
    exists mn, mx. split; [exact Hlow|].
    unfold _create_sparkline.
    replace (List.length data <? 2)%nat with false
      by (symmetry; apply Nat.ltb_ge; lia).
    rewrite Hmn, Hmx. reflexivity. }
  split.
  - intro Hcase. destruct (Nat.ltb (List.length data) 2) eqn:Hshort.
    + apply Nat.ltb_lt in Hshort.
      exists (Builtin.times Rule width). unfold _create_sparkline.
      replace (List.length data <? 2)%nat with true
        by (symmetry; apply Nat.ltb_lt; lia).
      split; [reflexivity|]. split; [apply times_length|].
      split; [lia | reflexivity].
    + apply Nat.ltb_ge in Hshort.
      assert (width <> 0%Z) as Hw by (destruct Hcase; [assumption | lia]).
      destruct (Hrun width Hshort) as (mn & mx & Hlow & ->). cbv zeta.
      replace (width =? 0)%Z with false by (symmetry; now apply Z.eqb_neq).
      set (range_val := if Qlt_bool mn mx then mx - mn else 1).
      assert (0 < range_val) as Hrange.
      { subst range_val. destruct (Qlt_bool mn mx) eqn:E; [|reflexivity].
        apply Qlt_bool_iff in E. lra. }
      assert (data <> []) as Hne
        by (destruct data; [cbn in Hshort; lia | congruence]).
      destruct (@traverse_ok _ _
                  (spark_cell data mn range_val
                     (inject_Z (Z.of_nat (List.length data)) / inject_Z width))
                  (fun g => In g bars) (Builtin.range width))
        as (s & Hs & Hlen & Hall).
      { intros i Hi. apply range_spec in Hi.
        now apply spark_cell_ok. }
      exists s. split; [exact Hs|]. split; [|split].
      * rewrite Hlen, range_length. lia.
      * intros _. exact Hall.
      * lia.
  - intro Hlen. destruct (Hrun 0%Z Hlen) as (mn & mx & _ & ->). reflexivity.
Qed.

(** X6.  A window whose samples are all equal is drawn flat: every position
    shows the lowest block. *)
Theorem flat_sparkline_is_lowest (data : list Q) (width : Z) (c : Q) :
  (2 <= List.length data)%nat ->
  (0 < width)%Z ->
  (forall v, In v data -> v == c) ->
  _create_sparkline data width = Ok (Builtin.times B1 width).
Proof.
  intros Hlen Hw Hflat.
  assert (data <> []) as Hne by (destruct data; [cbn in Hlen; lia | congruence]).
  destruct (minimum_spec Hne) as (mn & Hmn & Hlow & Hmin_in).
  destruct (maximum_spec Hne) as (mx & Hmx & _ & Hmax_in).
  unfold _create_sparkline.
  replace (List.length data <? 2)%nat with false
    by (symmetry; apply Nat.ltb_ge; lia).
  rewrite Hmn, Hmx.
  assert (Qlt_bool mn mx = false) as Hno.
  { apply Qlt_bool_false_iff. rewrite (Hflat mn Hmin_in), (Hflat mx Hmax_in).
    apply Qle_refl. }
  rewrite Hno.
  replace (width =? 0)%Z with false by (symmetry; apply Z.eqb_neq; lia).
  rewrite (@traverse_const _ _ _ B1).
  - unfold Builtin.times. now rewrite range_length.
  - intros i Hi. apply range_spec in Hi. unfold spark_cell.
    assert (0 < Z.of_nat (List.length data))%Z as Hpos by lia.
    pose proof (sample_position Hpos Hi) as Hidx.
    set (idx := Builtin.int _) in *.
    replace (idx <? Z.of_nat (List.length data))%Z with true
      by (symmetry; apply Z.ltb_lt; lia).
    destruct (index_in_range data Hidx) as (v & -> & Hv).
    assert ((v - mn) / 1 * 8 == 0) as Hzero.
    { rewrite (Hflat v Hv), (Hflat mn Hmin_in). field. }
    assert (Builtin.int ((v - mn) / 1 * 8) = 0%Z) as ->.
    { apply Z.le_antisymm; [apply int_upper | apply (@int_lower _ 0)];
        rewrite Hzero; apply Qle_refl. }
    reflexivity.
Qed.

Lemma flat_sparkline_is_lowest_witness :
  _create_sparkline [5; 5; 5] 4 = Ok (Builtin.times B1 4).
Proof.
  apply (@flat_sparkline_is_lowest [5; 5; 5] 4 5).
  - cbn. lia.
  - reflexivity.
  - intros v [<-|[<-|[<-|[]]]]; reflexivity.
Defined.

(** *** The sparklines of the TUI *)

Lemma pick_ok (i : Z) : (0 <= i <= 7)%Z -> exists g, TUI.pick i = Ok g /\ In g bars.
Proof.
  intro H. unfold TUI.pick.
  assert (0 <= i < Z.of_nat (List.length bars))%Z as Hi by (cbn; lia).
  destruct (index_in_range bars Hi) as (g & -> & Hg). now exists g.
Qed.

Lemma pick_fails (i : Z) : (i <= -9)%Z -> TUI.pick i = Err IndexError.
Proof.
  intro H. unfold TUI.pick. rewrite index_out_of_range; [reflexivity|].
  cbn. lia.
Qed.

Lemma pick_only_index_error (i : Z) (e : error) :
  TUI.pick i = Err e -> e = IndexError.
Proof.
  unfold TUI.pick. destruct (Builtin.index bars i); congruence.
Qed.

(** A sample between 0 and a positive maximum is quantised within range. *)
Lemma level_in_range (v max_val : Q) :
  0 <= v -> v <= max_val -> 0 < max_val ->
  (0 <= Builtin.int (v / max_val * (8 - 1)) <= 7)%Z.
Proof.
  intros H0 Hle Hpos.
  assert (0 <= v / max_val) as Hq0
    by (apply Qle_shift_div_l; [assumption | lra]).
  assert (v / max_val <= 1) as Hq1
    by (apply Qle_shift_div_r; [assumption | lra]).
  split.
  - apply (@int_lower _ 0). change (inject_Z 0) with 0.
    apply Qmult_le_0_compat; [assumption | discriminate].
  - apply int_upper. change (inject_Z 7) with 7.
    setoid_replace (8 - 1) with 7 by reflexivity. lra.
Qed.

Lemma levels_ok (data : list Q) (max_val : Q) :
  (forall v, In v data -> 0 <= v) ->
  (forall v, In v data -> v <= max_val) -> 0 < max_val ->
  exists s,
    Builtin.traverse TUI.pick
      (map (fun val => Builtin.int (val / max_val * (8 - 1))) data) = Ok s
    /\ List.length s = List.length data
    /\ Forall (fun g => In g bars) s.
Proof.
  intros H0 Hle Hpos.
  destruct (@traverse_ok _ _ TUI.pick (fun g => In g bars)
              (map (fun val => Builtin.int (val / max_val * (8 - 1))) data))
    as (s & Hs & Hlen & Hall).
  - intros i Hi. apply in_map_iff in Hi. destruct Hi as (v & <- & Hv).
    apply pick_ok. apply level_in_range; auto.
  - exists s. rewrite length_map in Hlen. now repeat split.
Qed.

(** X7.  For samples that are not negative (CPU percentages), the sparkline
    of the CPU tab never fails: it has one block character per sample, each
    one of the eight levels.  The empty history gives the empty string. *)
Theorem cpu_sparkline_one_block_per_sample (data : list Q) :
  (forall v, In v data -> 0 <= v) ->
  exists s,
    TUI.cpu_sparkline data = Ok s
    /\ List.length s = List.length data
    /\ Forall (fun g => In g bars) s.
Proof.
  intro H0. destruct data as [|x rest] eqn:Hdata.
  - exists []. repeat split. constructor.
  - rewrite <- Hdata in *.
    assert (data <> []) as Hne by (rewrite Hdata; discriminate).
    destruct (maximum_spec Hne) as (m & Hm & Hup & Hin).
    unfold TUI.cpu_sparkline. rewrite Hm.
    destruct (Qlt_bool 0 m) eqn:Epos.
    + apply Qlt_bool_iff in Epos. now apply levels_ok.
    + apply Qlt_bool_false_iff in Epos.
      apply levels_ok; [assumption | | reflexivity].
      intros v Hv. specialize (Hup v Hv). lra.
Qed.

Lemma cpu_sparkline_one_block_per_sample_witness :
  exists s,
    TUI.cpu_sparkline [0; 10; 50; 100] = Ok s
    /\ List.length s = List.length [0; 10; 50; 100]
    /\ Forall (fun g => In g bars) s.
Proof.
  apply (@cpu_sparkline_one_block_per_sample [0; 10; 50; 100]).
  intros v [<-|[<-|[<-|[<-|[]]]]]; discriminate.
Defined.

(** X8.  For samples that are not negative, the sparkline of the network
    tab never fails and consists of block characters only; for a history of
    at most 60 samples (the capacity of the widget's windows) it has one
    character per sample, the lowest block throughout when all samples are
    0. *)
Theorem network_sparkline_one_block_per_sample (data : list Q) :
  (forall v, In v data -> 0 <= v) ->
  (List.length data <= 60)%nat ->
  exists s,
    TUI.network_sparkline data = Ok s
    /\ List.length s = List.length data
    /\ Forall (fun g => In g bars) s
    /\ ((forall v, In v data -> v == 0) ->
        s = repeat B1 (List.length data)).
Proof.
  intros H0 Hlen. destruct data as [|x rest] eqn:Hdata.
  - exists []. repeat split. constructor.
  - rewrite <- Hdata in *.
    assert (data <> []) as Hne by (rewrite Hdata; discriminate).
    destruct (maximum_spec Hne) as (m & Hm & Hup & Hin).
    unfold TUI.network_sparkline. rewrite Hm.
    assert (Z.to_nat (Z.min (Z.of_nat (List.length data)) 60)
            = List.length data) as Hmin by lia.
    destruct (Qeq_bool m 0) eqn:Ezero.
    + exists (repeat B1 (List.length data)).
      unfold Builtin.times. rewrite Hmin.
      split; [reflexivity|]. split; [apply repeat_length|].
      split; [|reflexivity].
      apply Forall_forall. intros g Hg. apply repeat_spec in Hg. subst g.
      now left.
    + assert (0 < m) as Hpos.
      { assert (~ m == 0) as Hnz
          by (intro E; apply Qeq_bool_iff in E; congruence).
        specialize (H0 m Hin). lra. }
      destruct (levels_ok data H0 Hup Hpos) as (s & Hs & Hl & Hall).
      exists s. split; [exact Hs|]. split; [exact Hl|]. split; [exact Hall|].
      intro Hflat. specialize (Hflat m Hin). lra.
Qed.

Lemma network_sparkline_one_block_per_sample_witness :
  exists s,
    TUI.network_sparkline [0; 0; 1048576] = Ok s
    /\ List.length s = List.length [0; 0; 1048576]
    /\ Forall (fun g => In g bars) s
    /\ ((forall v, In v [0; 0; 1048576] -> v == 0) ->
        s = repeat B1 (List.length [0; 0; 1048576])).
Proof.
  apply (@network_sparkline_one_block_per_sample [0; 0; 1048576]).
  - intros v [<-|[<-|[<-|[]]]]; discriminate.
  - cbn. lia.
Defined.

(** X9.  The network sparkline does not guard against negative samples,
    which the widget records after a counter reset: a sample v with
    7 v <= -9 max, for a positive maximum, is quantised to a level below -8
    and the lookup of its character raises IndexError. *)
Theorem network_sparkline_fails_on_negative (data : list Q) (m v : Q) :
  Builtin.maximum data = Some m ->
  0 < m ->
  In v data ->
  7 * v <= -9 * m ->
  TUI.network_sparkline data = Err IndexError.
Proof.
  intros Hm Hpos Hv Hneg. unfold TUI.network_sparkline. rewrite Hm.
  assert (Qeq_bool m 0 = false) as ->.
  { destruct (Qeq_bool m 0) eqn:E; [|reflexivity].
    apply Qeq_bool_iff in E. lra. }
  apply traverse_err.
  - intros i e He. now apply (pick_only_index_error i).
  - exists (Builtin.int (v / m * (8 - 1))). split.
    + apply in_map_iff. now exists v.
    + apply pick_fails. apply int_upper. change (inject_Z (-9)) with (-9).
      setoid_replace (v / m * (8 - 1)) with (7 * v / m) by (field; lra).
      apply Qle_shift_div_r; [exact Hpos | lra].
Qed.

Lemma network_sparkline_fails_on_negative_witness :
  TUI.network_sparkline [-2097152; 5] = Err IndexError.
Proof.
  apply (@network_sparkline_fails_on_negative [-2097152; 5] 5 (-2097152)).
  - reflexivity.
  - reflexivity.
  - now left.
  - discriminate.
Defined.

(** ** Uptime *)

Lemma floor_bounds (x : Q) :
  inject_Z (Qfloor x) <= x /\ x < inject_Z (Qfloor x) + 1.
Proof.
  split; [apply Qfloor_le|].
  pose proof (Qlt_floor x) as H. rewrite inject_Z_plus in H. exact H.
Qed.

(** X10.  For a boot time that is not in the future, [get_system_uptime]
    splits the uptime into days, hours below 24 and minutes below 60 that
    add up to the uptime rounded down to a whole minute. *)
Theorem uptime_decomposition (boot_time now : Q) :
  0 <= now - boot_time ->
  let r := get_system_uptime boot_time now in
  (0 <= uptime_days r)%Z
  /\ (0 <= uptime_hours r < 24)%Z
  /\ (0 <= uptime_minutes r < 60)%Z
  /\ inject_Z (86400 * uptime_days r + 3600 * uptime_hours r
               + 60 * uptime_minutes r) <= now - boot_time
  /\ now - boot_time
     < inject_Z (86400 * uptime_days r + 3600 * uptime_hours r
                 + 60 * uptime_minutes r + 60).
Proof.
  intros Hpos r. subst r. unfold get_system_uptime. cbn [uptime_days uptime_hours uptime_minutes].
  set (u := now - boot_time) in *.
  unfold Builtin.floordiv, Builtin.modulo. rewrite !int_inject_Z.
  set (d := Qfloor (u / 86400)).
  set (h := Qfloor ((u - 86400 * inject_Z d) / 3600)).
  set (a := Qfloor (u / 3600)).
  set (m := Qfloor ((u - 3600 * inject_Z a) / 60)).
  destruct (floor_bounds (u / 86400)) as [Hd1 Hd2]. fold d in Hd1, Hd2.
  destruct (floor_bounds ((u - 86400 * inject_Z d) / 3600)) as [Hh1 Hh2].
  fold h in Hh1, Hh2.
  destruct (floor_bounds (u / 3600)) as [Ha1 Ha2]. fold a in Ha1, Ha2.
  destruct (floor_bounds ((u - 3600 * inject_Z a) / 60)) as [Hm1 Hm2].
  fold m in Hm1, Hm2.
  assert (u / 86400 == u * (1 # 86400)) as E1 by field.
  assert ((u - 86400 * inject_Z d) / 3600
          == (u - 86400 * inject_Z d) * (1 # 3600)) as E2 by field.
  assert (u / 3600 == u * (1 # 3600)) as E3 by field.
  assert ((u - 3600 * inject_Z a) / 60
          == (u - 3600 * inject_Z a) * (1 # 60)) as E4 by field.
  rewrite E1 in Hd1, Hd2. rewrite E2 in Hh1, Hh2.
  rewrite E3 in Ha1, Ha2. rewrite E4 in Hm1, Hm2.
  set (D := inject_Z d) in *. set (H := inject_Z h) in *.
  set (A := inject_Z a) in *. set (M := inject_Z m) in *.
  assert (a = 24 * d + h)%Z as Ea.
  { assert (a < 24 * d + h + 1)%Z as L1.
    { rewrite Zlt_Qlt, !inject_Z_plus, inject_Z_mult.
      fold D H A. change (inject_Z 24) with 24. change (inject_Z 1) with 1.
      lra. }
    assert (24 * d + h < a + 1)%Z as L2.
    { rewrite Zlt_Qlt, !inject_Z_plus, inject_Z_mult.
      fold D H A. change (inject_Z 24) with 24. change (inject_Z 1) with 1.
      lra. }
    lia. }
  assert (A == 24 * D + H) as EA.
  { subst A D H. rewrite Ea, inject_Z_plus, inject_Z_mult. reflexivity. }
  assert (-1 < d)%Z as Bd.
  { rewrite Zlt_Qlt. fold D. change (inject_Z (-1)) with (-1). lra. }
  assert (-1 < h < 24)%Z as Bh.
  { split; rewrite Zlt_Qlt; fold H;
      [change (inject_Z (-1)) with (-1) | change (inject_Z 24) with 24]; lra. }
  assert (-1 < m < 60)%Z as Bm.
  { split; rewrite Zlt_Qlt; fold M;
      [change (inject_Z (-1)) with (-1) | change (inject_Z 60) with 60]; lra. }
  split; [lia|]. split; [lia|]. split; [lia|].
  rewrite !inject_Z_plus, !inject_Z_mult. fold D H M.
  change (inject_Z 86400) with 86400. change (inject_Z 3600) with 3600.
  change (inject_Z 60) with 60.
  split; lra.
Qed.

(** One day, one hour, one minute and one second after boot. *)
Lemma uptime_decomposition_witness :
  let r := get_system_uptime 1700000000 1700090061 in
  (0 <= uptime_days r)%Z
  /\ (0 <= uptime_hours r < 24)%Z
  /\ (0 <= uptime_minutes r < 60)%Z
  /\ inject_Z (86400 * uptime_days r + 3600 * uptime_hours r
               + 60 * uptime_minutes r) <= 1700090061 - 1700000000
  /\ 1700090061 - 1700000000
     < inject_Z (86400 * uptime_days r + 3600 * uptime_hours r
                 + 60 * uptime_minutes r + 60).
Proof.
  apply (@uptime_decomposition 1700000000 1700090061). discriminate.
Defined.

(** ** Battery *)

(** X11.  With a battery present, [get_battery_info] reports its percentage
    and plug state unchanged; the time left is absent exactly when psutil
    says POWER_TIME_UNLIMITED, and is otherwise the seconds left divided by
    60 rounded down.  POWER_TIME_UNKNOWN (-1) is not treated specially and
    is reported as -1 minutes. *)
Theorem battery_minutes (b : psutil.sbattery) (w : World) :
  exists rep,
    get_battery_info (Some b) w = (Val (Some rep), w, [])
    /\ battery_percent rep = psutil.bat_percent b
    /\ plugged_in rep = psutil.power_plugged b
    /\ (time_left_minutes rep = None
        <-> psutil.secsleft b = psutil.POWER_TIME_UNLIMITED)
    /\ (forall m, time_left_minutes rep = Some m ->
          (60 * m <= psutil.secsleft b < 60 * m + 60)%Z)
    /\ (psutil.secsleft b = (-1)%Z -> time_left_minutes rep = Some (-1)%Z).
Proof.
  eexists. split; [reflexivity|]. cbn [battery_percent plugged_in time_left_minutes].
  split; [reflexivity|]. split; [reflexivity|].
  destruct (psutil.secsleft b =? psutil.POWER_TIME_UNLIMITED)%Z eqn:E.
  - apply Z.eqb_eq in E. split; [tauto|]. split.
    + intros m Hm. discriminate.
    + intro H. rewrite H in E. discriminate.
  - apply Z.eqb_neq in E. split; [split; [discriminate | tauto]|]. split.
    + intros m Hm. injection Hm as <-.
      pose proof (Z.div_mod (psutil.secsleft b) 60).
      pose proof (Z.mod_pos_bound (psutil.secsleft b) 60). lia.
    + intros ->. reflexivity.
Qed.

(** ** Byte counts *)

Lemma Qabs_shift (x : Q) : Qabs (x / 1024) == Qabs x * (1 # 1024).
Proof.
  unfold Qdiv. rewrite Qabs_Qmult. reflexivity.
Qed.

Ltac unit_case :=
  cbn [fst snd unit_power];
  split; [try ring; try (field; fail)
         |split; [intros; try congruence; try assumption; try lra
                 |split; [intros; try congruence; try lra
                         |intros; try (split; reflexivity);
                          try (exfalso; lra)]]].

(** X12.  [_format_bytes] divides by 1024 until the magnitude is below
    1024 or the petabyte unit is reached: the scaled value times the power
    of 1024 of its unit is the input; the scaled magnitude is below 1024
    for every unit but P; and a unit larger than the plain one is chosen
    only when the input's magnitude reaches that unit. *)
Theorem format_bytes_scales (bytes_val : Q) :
  let v := fst (_format_bytes bytes_val) in
  let u := snd (_format_bytes bytes_val) in
  v * unit_power u == bytes_val
  /\ (u <> U_P -> Qabs v < 1024)
  /\ (u <> U_none -> unit_power u <= Qabs bytes_val)
  /\ (Qabs bytes_val < 1024 -> u = U_none /\ v = bytes_val).
Proof.
  unfold _format_bytes. cbn [scale_bytes].
  pose proof (Qabs_nonneg bytes_val) as H0.
  destruct (Qlt_bool (Qabs bytes_val) 1024) eqn:E0.
  { apply Qlt_bool_iff in E0. unit_case. }
  apply Qlt_bool_false_iff in E0.
  pose proof (Qabs_shift bytes_val) as S1.
  destruct (Qlt_bool (Qabs (bytes_val / 1024)) 1024) eqn:E1.
  { apply Qlt_bool_iff in E1. unit_case. }
  apply Qlt_bool_false_iff in E1.
  pose proof (Qabs_shift (bytes_val / 1024)) as S2.
  destruct (Qlt_bool (Qabs (bytes_val / 1024 / 1024)) 1024) eqn:E2.
  { apply Qlt_bool_iff in E2. unit_case. }
  apply Qlt_bool_false_iff in E2.
  pose proof (Qabs_shift (bytes_val / 1024 / 1024)) as S3.
  destruct (Qlt_bool (Qabs (bytes_val / 1024 / 1024 / 1024)) 1024) eqn:E3.
  { apply Qlt_bool_iff in E3. unit_case. }
  apply Qlt_bool_false_iff in E3.
  pose proof (Qabs_shift (bytes_val / 1024 / 1024 / 1024)) as S4.
  destruct (Qlt_bool (Qabs (bytes_val / 1024 / 1024 / 1024 / 1024)) 1024) eqn:E4.
  { apply Qlt_bool_iff in E4. unit_case. }
  apply Qlt_bool_false_iff in E4. unit_case.
Qed.

(** X13.  The [_format_bytes] of the TUI widgets compares the value itself,
    not its magnitude: the scaled value times the power of its unit is the
    input and is below 1024 for every unit but P, and a value below 1024, in
    particular every negative one, is left in plain bytes whatever its
    magnitude. *)
Theorem tui_format_bytes_scales (bytes_val : Q) :
  let v := fst (TUI._format_bytes bytes_val) in
  let u := snd (TUI._format_bytes bytes_val) in
  v * unit_power u == bytes_val
  /\ (u <> U_P -> v < 1024)
  /\ (u <> U_none -> unit_power u <= bytes_val)
  /\ (bytes_val < 1024 -> u = U_none /\ v = bytes_val).
Proof.
  unfold TUI._format_bytes. cbn [TUI.scale_bytes].
  unfold Qdiv. change (/ 1024) with (1 # 1024).
  destruct (Qlt_bool bytes_val 1024) eqn:E0.
  { apply Qlt_bool_iff in E0. unit_case. }
  apply Qlt_bool_false_iff in E0.
  destruct (Qlt_bool (bytes_val * (1 # 1024)) 1024) eqn:E1.
  { apply Qlt_bool_iff in E1. unit_case. }
  apply Qlt_bool_false_iff in E1.
  destruct (Qlt_bool (bytes_val * (1 # 1024) * (1 # 1024)) 1024) eqn:E2.
  { apply Qlt_bool_iff in E2. unit_case. }
  apply Qlt_bool_false_iff in E2.
  destruct (Qlt_bool (bytes_val * (1 # 1024) * (1 # 1024) * (1 # 1024)) 1024) eqn:E3.
  { apply Qlt_bool_iff in E3. unit_case. }
  apply Qlt_bool_false_iff in E3.
  destruct (Qlt_bool (bytes_val * (1 # 1024) * (1 # 1024) * (1 # 1024) * (1 # 1024)) 1024) eqn:E4.
  { apply Qlt_bool_iff in E4. unit_case. }
  apply Qlt_bool_false_iff in E4. unit_case.
Qed.

(** ** More on the process ranking *)

Lemma rank_by_metric (sort_by : string) (recs : list proc_record) :
  rank sort_by recs
  = Py.sort_desc (metric_value (ranking_metric sort_by)) recs.
Proof.
  unfold rank, ranking_metric.
  destruct ((if negb (recognised sort_by) then "cpu" else sort_by) =? "cpu")%string;
    reflexivity.
Qed.

(** X14.  The title of the process table says CPU exactly for the key
    'cpu' and Memory for every other key, while the ranking uses memory only
    for the key 'memory': for the two recognised keys the title names the
    metric the rows are ranked by, for any other key the title says Memory
    over rows ranked by CPU. *)
Theorem title_names_ranking_metric (sort_by : string)
    (recs : list proc_record) :
  rank sort_by recs
    = Py.sort_desc (metric_value (ranking_metric sort_by)) recs
  /\ (recognised sort_by = true ->
      title_metric sort_by = ranking_metric sort_by)
  /\ (recognised sort_by = false ->
      title_metric sort_by = Memory /\ ranking_metric sort_by = CPU).
Proof.
  split; [apply rank_by_metric|].
  unfold title_metric, ranking_metric, recognised.
  destruct (sort_by =? "cpu")%string eqn:Ecpu.
  - apply String.eqb_eq in Ecpu. subst sort_by. split; [reflexivity|discriminate].
  - destruct (sort_by =? "memory")%string eqn:Emem.
    + apply String.eqb_eq in Emem. subst sort_by. split; [reflexivity|discriminate].
    + split; [discriminate|]. intros _. split; reflexivity.
Qed.


(** What any call returns when nothing worse than vanished processes
    happens, whatever the key and the count. *)
Lemma ranked_prefix (table : list psutil.process) (now : Q) (num : Z)
    (sort_by : string) (w : World) :
  races_only table = true ->
  exists recs n,
    map pid recs = map psutil.pid (readable table)
    /\ result (get_top_processes table now num sort_by w)
       = Val (firstn n (Py.sort_desc (metric_value (ranking_metric sort_by)) recs))
    /\ ((0 <= num)%Z -> n = Z.to_nat num).
Proof.
  intro Hok.
  destruct (get_top_processes_result table now num sort_by w Hok)
    as (w1 & recs & Hrecs & Hres).
  exists recs. rewrite rank_by_metric in Hres. unfold Py.slice_to in Hres.
  destruct (num <? 0)%Z eqn:E; eexists;
    (split; [exact (@collect_pids table Hok w1 recs Hrecs)|]);
    (split; [exact Hres|]); intro Hnum.
  - apply Z.ltb_lt in E. lia.
  - reflexivity.
Qed.

(** X15.  For every sort key, recognised or not, every count n >= 0 and
    every table of processes with distinct pids, the call returns at most n
    records without duplicate pids, sorted descending by the metric the key
    ranks by (memory_percent for 'memory', cpu_percent for every other
    key), ties in enumeration order. *)
Theorem top_is_ranked_by_metric (table : list psutil.process) (now : Q)
    (num : Z) (sort_by : string) (w : World) :
  (0 <= num)%Z ->
  NoDup (map psutil.pid table) ->
  races_only table = true ->
  let key := metric_value (ranking_metric sort_by) in
  exists res,
    result (get_top_processes table now num sort_by w) = Val res
    /\ descending key res
    /\ (Z.of_nat (List.length res) <= num)%Z
    /\ NoDup (map pid res)
    /\ forall q, sublist (map pid (tied key q res)) (map psutil.pid table).
Proof.
  intros Hnum Hnd Hok key.
  destruct (ranked_prefix table now num sort_by w Hok)
    as (recs & n & Hpids & Hres & Hn).
  fold key in Hres. set (sorted := Py.sort_desc key recs) in *.
  assert (sublist (map pid recs) (map psutil.pid table)) as Hsub.
  { rewrite Hpids. apply sublist_map. apply sublist_filter. }
  exists (firstn n sorted). split; [exact Hres|].
  split; [|split; [|split]].
  - apply descending_firstn, sort_desc_sorted.
  - rewrite length_firstn, (Hn Hnum). lia.
  - apply sublist_NoDup with (map pid sorted).
    + apply sublist_map, sublist_firstn.
    + apply Permutation_NoDup with (map pid recs).
      * apply Permutation_map, Permutation_sym, sort_desc_perm.
      * now apply sublist_NoDup with (map psutil.pid table).
  - intro q.
    apply sublist_trans with (map pid recs); [|exact Hsub].
    apply sublist_map.
    apply sublist_trans with (tied key q sorted).
    + apply tied_firstn.
    + unfold sorted. rewrite sort_desc_stable. apply sublist_filter.
Qed.

(** The two largest memory users of three processes. *)
Lemma top_is_ranked_by_metric_witness :
  let key := metric_value (ranking_metric "memory") in
  exists res,
    result (get_top_processes three_processes 100 2 "memory"
              (fresh (init no_traffic None 0))) = Val res
    /\ descending key res
    /\ (Z.of_nat (List.length res) <= 2)%Z
    /\ NoDup (map pid res)
    /\ forall q, sublist (map pid (tied key q res))
                         (map psutil.pid three_processes).
Proof.
  apply (@top_is_ranked_by_metric three_processes 100 2 "memory"
           (fresh (init no_traffic None 0))).
  - discriminate.
  - cbn. repeat constructor; cbn; intuition discriminate.
  - reflexivity.
Defined.




(** ** The process widget of the TUI *)

Lemma press_valid (button : string) (s : TUI.process_widget) :
  valid_settings s -> valid_settings (TUI.press button s).
Proof.
  unfold valid_settings, TUI.press. intros [Hkey Hnum].
  destruct (button =? "sort-cpu-btn")%string; [split; [reflexivity|exact Hnum]|].
  destruct (button =? "sort-mem-btn")%string; [split; [reflexivity|exact Hnum]|].
  destruct (button =? "top-10-btn")%string; [split; [exact Hkey|cbn; tauto]|].
  destruct (button =? "top-20-btn")%string; [split; [exact Hkey|cbn; tauto]|].
  destruct (button =? "top-50-btn")%string; [split; [exact Hkey|cbn; tauto]|].
  now split.
Qed.

Lemma presses_valid (buttons : list string) : forall s : TUI.process_widget,
  valid_settings s ->
  valid_settings (fold_left (fun s b => TUI.press b s) buttons s).
Proof.
  induction buttons as [|b buttons IH]; intros s Hs.
  - exact Hs.
  - cbn [fold_left]. apply IH. now apply press_valid.
Qed.

(** X17.  Whatever buttons are pressed, in whatever order, the process
    widget only ever holds the key 'cpu' or 'memory' and a count of 10, 20
    or 50; the call to the monitor that follows a button press therefore
    uses a recognised key, and returns at most that many rows. *)
Theorem process_widget_settings_stay_valid (buttons : list string)
    (button : string) (table : list psutil.process) (now : Q) (w : World) :
  races_only table = true ->
  let s := fold_left (fun s b => TUI.press b s) buttons
             TUI.process_widget_init in
  let s' := fst (TUI.on_button_pressed button s table now) in
  let call := snd (TUI.on_button_pressed button s table now) in
  valid_settings s
  /\ valid_settings s'
  /\ exists res,
       result (call w) = Val res
       /\ (Z.of_nat (List.length res) <= TUI.num_processes s')%Z
       /\ (List.length res <= 50)%nat.
Proof.
  intros Hok s s' call.
  assert (valid_settings s) as Hs.
  { apply presses_valid. split; [reflexivity|]. cbn. tauto. }
  assert (valid_settings s') as Hs' by (now apply press_valid).
  split; [exact Hs|]. split; [exact Hs'|].
  destruct Hs' as [_ Hnum].
  assert (0 <= TUI.num_processes s' <= 50)%Z as Hrange
    by (destruct Hnum as [H|[H|[H|[]]]]; rewrite <- H; lia).
  subst call. cbn [TUI.on_button_pressed snd]. fold s'.
  unfold TUI.update_processes.
  destruct (ranked_prefix table now (TUI.num_processes s') (TUI.sort_by s') w Hok)
    as (recs & n & _ & Hres & Hn).
  eexists. split; [exact Hres|].
  rewrite length_firstn, Hn by lia. split; lia.
Qed.

Lemma process_widget_settings_stay_valid_witness :
  let s := fold_left (fun s b => TUI.press b s)
             ["sort-mem-btn"; "top-50-btn"; "settings"]%string
             TUI.process_widget_init in
  let s' := fst (TUI.on_button_pressed "top-10-btn" s three_processes 100) in
  let call := snd (TUI.on_button_pressed "top-10-btn" s three_processes 100) in
  valid_settings s
  /\ valid_settings s'
  /\ exists res,
       result (call (fresh (init no_traffic None 0))) = Val res
       /\ (Z.of_nat (List.length res) <= TUI.num_processes s')%Z
       /\ (List.length res <= 50)%nat.
Proof.
  apply (@process_widget_settings_stay_valid
           ["sort-mem-btn"; "top-50-btn"; "settings"]%string
           "top-10-btn" three_processes 100 (fresh (init no_traffic None 0))).
  reflexivity.
Defined.

(** ** How often the priming pass runs *)

(** X18.  After a call with the key 'cpu' has primed at time [now], a
    further 'cpu' call up to 5 seconds later does not prime again: it issues
    no throwaway read and no sleep and leaves the monitor unchanged.  A
    call more than 5 seconds later primes again and stores its own time. *)
Theorem priming_at_most_every_five_seconds
    (table table' : list psutil.process) (now now' : Q) (num num' : Z)
    (w : World) :
  races_only table = true ->
  5 < now - _proc_prime_ts (self w) ->
  let w1 := world_after (get_top_processes table now num "cpu" w) in
  let r := get_top_processes table' now' num' "cpu" w1 in
  _proc_prime_ts (self w1) = now
  /\ (now' - now <= 5 -> events r = [] /\ self (world_after r) = self w1)
  /\ (5 < now' - now -> races_only table' = true ->
      _proc_prime_ts (self (world_after r)) = now'
      /\ events r = map (fun p => PrimeRead (psutil.pid p)) table'
                    ++ [Sleep; Store F_proc_prime_ts]).
Proof.
  intros Hok Hold w1 r.
  destruct (cpu_key_primes table num w Hold Hok) as [Hts _]. fold w1 in Hts.
  split; [exact Hts|]. split.
  - intro Hsoon.
    assert (primes "cpu" now' (self w1) = false) as Hp.
    { unfold primes. cbn [String.eqb Ascii.eqb Bool.eqb andb].
      rewrite Hts. now apply Qlt_bool_false_iff. }
    subst r. rewrite (get_top_processes_unprimed table' now' num' "cpu" w1 Hp).
    destruct (collect_frame table' w1) as [Hev Hself].
    destruct (collect table' w1) as [[[recs|e] w2] ev2];
      unfold events, world_after in Hev, Hself |- *;
      cbn [fst snd] in Hev, Hself |- *; rewrite Hev;
      (split; [reflexivity | exact Hself]).
  - intros Hlate Hok'. subst r. apply cpu_key_primes; [|exact Hok'].
    now rewrite Hts.
Qed.

Lemma priming_at_most_every_five_seconds_witness :
  let w1 := world_after (get_top_processes three_processes 100 10 "cpu"
                           (fresh (init no_traffic None 0))) in
  let r := get_top_processes three_processes 103 10 "cpu" w1 in
  _proc_prime_ts (self w1) = 100
  /\ (103 - 100 <= 5 -> events r = [] /\ self (world_after r) = self w1)
  /\ (5 < 103 - 100 -> races_only three_processes = true ->
      _proc_prime_ts (self (world_after r)) = 103
      /\ events r = map (fun p => PrimeRead (psutil.pid p)) three_processes
                    ++ [Sleep; Store F_proc_prime_ts]).
Proof.
  apply (@priming_at_most_every_five_seconds three_processes three_processes
           100 103 10 10 (fresh (init no_traffic None 0))).
  - reflexivity.
  - reflexivity.
Defined.

(** ** Without --temps the probe never runs *)


Section Quiet.
Variables A B : Type.






End Quiet.



















(** ** The probe's output *)

Lemma parse_temps_app (a b : list stdout_line) (acc : option Q) :
  parse_temps (a ++ b) acc = parse_temps b (parse_temps a acc).
Proof.
  revert acc. induction a as [|l a IH]; intro acc; cbn [app parse_temps].
  - reflexivity.
  - destruct l as [|[t|]]; apply IH.
Qed.

Lemma parse_temps_unparsable (lines : list stdout_line) (acc : option Q) :
  (forall t, ~ In (TempLine (Some t)) lines) ->
  parse_temps lines acc = acc.
Proof.
  revert acc. induction lines as [|l lines IH]; intros acc H; cbn [parse_temps].
  - reflexivity.
  - destruct l as [|[t|]].
    + apply IH. intros t Ht. apply (H t). now right.
    + exfalso. apply (H t). now left.
    + apply IH. intros t Ht. apply (H t). now right.
Qed.

Lemma parse_temps_keeps_reading (lines : list stdout_line) (v : Q) :
  parse_temps lines (Some v) <> None.
Proof.
  revert v. induction lines as [|l lines IH]; intro v; cbn [parse_temps].
  - discriminate.
  - destruct l as [|[t|]]; apply IH.
Qed.

Lemma parse_temps_finds_reading (lines : list stdout_line) (acc : option Q)
    (t : Q) :
  In (TempLine (Some t)) lines -> parse_temps lines acc <> None.
Proof.
  revert acc. induction lines as [|l lines IH]; intros acc Hin; [destruct Hin|].
  cbn [parse_temps]. destruct l as [|[t'|]].
  - destruct Hin as [Heq|Hin]; [discriminate | now apply IH].
  - apply parse_temps_keeps_reading.
  - destruct Hin as [Heq|Hin]; [discriminate | now apply IH].
Qed.

(** X20.  Of the temperature lines in the probe's output the last one that
    parses is the reading; lines that do not parse and other lines are
    skipped; and the output yields no reading exactly when no temperature
    line parses. *)
Theorem last_parsable_line_wins (lines : list stdout_line) :
  (forall before after t,
      lines = before ++ TempLine (Some t) :: after ->
      (forall t', ~ In (TempLine (Some t')) after) ->
      parse_temps lines None = Some t)
  /\ (parse_temps lines None = None
      <-> forall t, ~ In (TempLine (Some t)) lines).
Proof.
  split.
  - intros before after t -> Hafter.
    rewrite parse_temps_app. cbn [parse_temps].
    now apply parse_temps_unparsable.
  - split.
    + intros Hnone t Hin.
      exact (parse_temps_finds_reading lines None t Hin Hnone).
    + intro H. now apply parse_temps_unparsable.
Qed.

(** ** Windows of any fill level *)

(** X21.  A window of capacity k holds, after any number of pushes, the
    last k values pushed, oldest first: never more than k values, and all
    the values pushed, in order, as long as there are at most k of them.
    After any number of reports the three windows of the monitor hold at
    most 20 values each. *)
Theorem history_window_never_exceeds_capacity (k : nat) (xs : list Q) :
  let d := fold_left Py.append xs (Py.deque_new Q k) in
  Py.items d = lastn k xs
  /\ List.length (Py.items d) = Nat.min k (List.length xs)
  /\ ((List.length xs <= k)%nat -> Py.items d = xs)
  /\ (forall (net0 : psutil.snetio) (disk0 : option psutil.sdiskio) (t0 : Q)
             (samples : list (Q * Q * Q)),
        let m := self (fold_left record samples (fresh (init net0 disk0 t0))) in
        (List.length (Py.items (cpu_history m)) <= 20)%nat
        /\ (List.length (Py.items (memory_history m)) <= 20)%nat
        /\ (List.length (Py.items (network_history m)) <= 20)%nat
        /\ List.length (Py.items (cpu_history m))
           = Nat.min 20 (List.length samples)).
Proof.
  intro d.
  destruct (@pushes_items Q xs (Py.deque_new Q k)) as [_ Hitems];
    [cbn; lia|].
  cbn [Py.deque_new Py.items Py.maxlen app] in Hitems. fold d in Hitems.
  split; [exact Hitems|]. split; [|split].
  - rewrite Hitems. apply lastn_length.
  - intro Hshort. rewrite Hitems. now apply lastn_short.
  - intros net0 disk0 t0 samples m.
    destruct (records_histories samples (fresh (init net0 disk0 t0)))
      as (Hc & Hm & Hn).
    fold m in Hc, Hm, Hn.
    assert (forall f : Q * Q * Q -> Q,
              Py.items (fold_left Py.append (map f samples) (Py.deque_new Q 20))
              = lastn 20 (map f samples)) as Hwin.
    { intro f.
      destruct (@pushes_items Q (map f samples) (Py.deque_new Q 20))
        as [_ Hi]; [cbn; lia|].
      exact Hi. }
    cbn [init fresh self cpu_history memory_history network_history]
      in Hc, Hm, Hn.
    rewrite Hc, Hm, Hn, !Hwin, !lastn_length, !length_map.
    repeat split; lia.
Qed.

(** ** Successive network updates *)

(** X22.  A network update measures from the update before it, whoever made
    that one: after a call with counters n1 at time t1, the rates of the
    next call with counters n2 at time t2 are (n2 - n1) / max(t2 - t1, 1e-6)
    whatever was stored before the first call; a next call that sees the
    same counters reports both rates as 0. *)
Theorem network_update_measures_from_previous (w : World)
    (n1 n2 : psutil.snetio) (t1 t2 : Q) :
  let w1 := world_after (get_network_info n1 t1 w) in
  sent_rate (self w1) n2 t2
    == inject_Z (psutil.bytes_sent n2 - psutil.bytes_sent n1)
       / Py.max (t2 - t1) epsilon
  /\ recv_rate (self w1) n2 t2
    == inject_Z (psutil.bytes_recv n2 - psutil.bytes_recv n1)
       / Py.max (t2 - t1) epsilon
  /\ (psutil.bytes_sent n2 = psutil.bytes_sent n1 ->
      psutil.bytes_recv n2 = psutil.bytes_recv n1 ->
      exists rep,
        result (get_network_info n2 t2 w1) = Val rep
        /\ send_rate_mib_s rep == 0 /\ recv_rate_mib_s rep == 0).
Proof.
  intro w1. split; [reflexivity|]. split; [reflexivity|].
  intros Hs Hr. eexists. split; [reflexivity|].
  cbn [send_rate_mib_s recv_rate_mib_s].
  pose proof (dt_pos (self w1) t2) as Hdt.
  assert (sent_rate (self w1) n2 t2 / MiB == 0) as Es.
  { unfold sent_rate. subst w1. cbn [_prev_net_io self world_after
      get_network_info]. 
    replace (_prev_net_io (self (world_after (get_network_info n1 t1 w))))
      with n1 by reflexivity.
    rewrite Hs, Z.sub_diag. unfold MiB. field. lra. }
  assert (recv_rate (self w1) n2 t2 / MiB == 0) as Er.
  { unfold recv_rate.
    replace (_prev_net_io (self w1)) with n1 by reflexivity.
    rewrite Hr, Z.sub_diag. unfold MiB. field. lra. }
  split; apply Qle_antisym.
  - apply round2_nonpos. rewrite Es. apply Qle_refl.
  - apply round2_nonneg. rewrite Es. apply Qle_refl.
  - apply round2_nonpos. rewrite Er. apply Qle_refl.
  - apply round2_nonneg. rewrite Er. apply Qle_refl.
Qed.

(** ** The network tab of the TUI *)







(** ** A reading in the cache *)

(** X24.  A probe that exits with 0 and yields a reading stores it with the
    time of the call.  A later call is answered with that reading, without
    running the probe and without touching the monitor, while less than
    [temp_refresh_seconds] have passed since; once that much time has passed
    the probe is run again. *)
Theorem reading_is_served_until_ttl (w : World) (res : completed_process)
    (t : Q) (now now' : Q) (probe' : outcome completed_process) :
  enable_temps (self w) = true ->
  cache_fresh (self w) now = false ->
  returncode res = 0%Z ->
  parse_temps (stdout res) None = Some t ->
  let ttl := temp_refresh_seconds (self w) in
  let r1 := get_temperature_info (Val res) now w in
  let w1 := world_after r1 in
  let r2 := get_temperature_info probe' now' w1 in
  result r1 = Val (Some t)
  /\ _last_temp (self w1) = Some t
  /\ _last_temp_ts (self w1) = now
  /\ (now' - now < ttl -> r2 = (Val (Some t), w1, []))
  /\ (ttl <= now' - now -> probes r2 = 1%nat).
Proof.
  intros Hen Hstale Hrc Hparse ttl r1 w1 r2.
  pose proof (temperature_probed (Val res) now w Hen Hstale) as E1.
  cbv beta iota in E1. rewrite Hrc, Hparse in E1. cbn [Z.eqb] in E1.
  fold r1 in E1.
  assert (w1 = world_after ((set_last_temp (Some t);; set_last_temp_ts now) w))
    as Ew1 by (subst w1; now rewrite E1).
  assert (enable_temps (self w1) = true) as Hen1 by (rewrite Ew1; exact Hen).
  assert (_last_temp (self w1) = Some t) as Hlast by (now rewrite Ew1).
  assert (_last_temp_ts (self w1) = now) as Hts by (now rewrite Ew1).
  assert (temp_refresh_seconds (self w1) = ttl) as Httl by (now rewrite Ew1).
  split; [now rewrite E1|]. split; [exact Hlast|]. split; [exact Hts|].
  split.
  - intro Hsoon.
    assert (cache_fresh (self w1) now' = true) as Hfresh.
    { apply cache_fresh_true. rewrite Hts, Httl. split; [exact Hsoon|].
      now exists t. }
    subst r2. rewrite (temperature_cached probe' now' w1 Hen1 Hfresh).
    now rewrite Hlast.
  - intro Hlate.
    assert (cache_fresh (self w1) now' = false) as Hfresh.
    { apply cache_fresh_false. left. now rewrite Hts, Httl. }
    subst r2. now apply temperature_probed_once.
Qed.

(** The probe reads 42 degrees at time 0; at time 3 the reading is served,
    at time 6 the probe would run again. *)
Lemma reading_is_served_until_ttl_witness :
  let w := fresh (set_enable_temps true (init no_traffic None (-10))) in
  let res := {| returncode := 0; stdout := [OtherLine; TempLine (Some 42)] |} in
  let r1 := get_temperature_info (Val res) 100 w in
  let w1 := world_after r1 in
  let r2 := get_temperature_info (Raise TimeoutExpired) 103 w1 in
  result r1 = Val (Some 42)
  /\ _last_temp (self w1) = Some 42
  /\ _last_temp_ts (self w1) = 100
  /\ (103 - 100 < temp_refresh_seconds (self w) -> r2 = (Val (Some 42), w1, []))
  /\ (temp_refresh_seconds (self w) <= 103 - 100 -> probes r2 = 1%nat).
Proof.
  intros w res.
  apply (@reading_is_served_until_ttl w res 42 100 103 (Raise TimeoutExpired)).
  - reflexivity.
  - reflexivity.
  - reflexivity.
  - reflexivity.
Defined.

(** ** Disk rates and the shared timestamp *)

(** X25.  The disk rates of a tick are measured over the time since the last
    network update, not since the last disk update: after a disk update at
    time td1 and a network update at time tn1, the next disk update at time
    td2 reports (bytes2 - bytes1) / 2^20 / max(td2 - tn1, 1e-6), rounded. *)
Theorem disk_rate_measured_from_network_update (w : World)
    (prev io1 io2 : psutil.sdiskio) (n1 : psutil.snetio) (td1 tn1 td2 : Q) :
  _prev_disk_io (self w) = Some prev ->
  let w1 := world_after (disk_io_stats (Some io1) td1 w) in
  let w2 := world_after (get_network_info n1 tn1 w1) in
  exists rep,
    result (disk_io_stats (Some io2) td2 w2) = Val (Some rep)
    /\ read_rate_mib_s rep
       = Py.round2 (inject_Z (psutil.read_bytes io2 - psutil.read_bytes io1)
                    / MiB / Py.max (td2 - tn1) epsilon)
    /\ write_rate_mib_s rep
       = Py.round2 (inject_Z (psutil.write_bytes io2 - psutil.write_bytes io1)
                    / MiB / Py.max (td2 - tn1) epsilon)
    /\ _prev_sample_ts (self (world_after (disk_io_stats (Some io2) td2 w2)))
       = tn1.
Proof.
  intros Hprev w1 w2.
  assert (_prev_disk_io (self w2) = Some io1) as H2.
  { subst w2 w1. rewrite (disk_io_stats_run io1 td1 w Hprev). reflexivity. }
  assert (_prev_sample_ts (self w2) = tn1) as Hts by reflexivity.
  rewrite (disk_io_stats_run io2 td2 w2 H2).
  eexists. split; [reflexivity|].
  cbn [read_rate_mib_s write_rate_mib_s].
  unfold read_rate, write_rate, dt. rewrite Hts.
  repeat split; reflexivity.
Qed.

Lemma disk_rate_measured_from_network_update_witness :
  let d := fun r => {| psutil.read_bytes := r; psutil.write_bytes := 0;
                       psutil.read_count := 0; psutil.write_count := 0 |} in
  let w := fresh (init no_traffic (Some (d 0%Z)) 0) in
  let w1 := world_after (disk_io_stats (Some (d 1048576%Z)) 10 w) in
  let w2 := world_after (get_network_info no_traffic 11 w1) in
  exists rep,
    result (disk_io_stats (Some (d 3145728%Z)) 13 w2) = Val (Some rep)
    /\ read_rate_mib_s rep == 1.
Proof.
  intros d w w1 w2.
  destruct (@disk_rate_measured_from_network_update w (d 0%Z) (d 1048576%Z)
              (d 3145728%Z) no_traffic 10 11 13 eq_refl)
    as (rep & Hres & Hread & _).
  exists rep. split; [exact Hres|]. rewrite Hread. vm_compute. reflexivity.
Defined.

(** ** How many records are returned *)

Lemma slice_to_length (A : Type) (l : list A) (num : Z) :
  Z.of_nat (List.length (Py.slice_to l num))
  = if (num <? 0)%Z
    then Z.max 0 (Z.of_nat (List.length l) + num)
    else Z.min num (Z.of_nat (List.length l)).
Proof.
  unfold Py.slice_to. destruct (num <? 0)%Z eqn:E; rewrite length_firstn.
  - apply Z.ltb_lt in E. lia.
  - apply Z.ltb_ge in E. lia.
Qed.

(** X26.  With R readable processes in the table, a call with count n
    returns min(n, R) records for n >= 0, and, as a Python slice with a
    negative bound does, max(0, R + n) records for n < 0: all but the last
    -n of the ranking. *)
Theorem number_of_records_returned (table : list psutil.process) (now : Q)
    (num : Z) (sort_by : string) (w : World) :
  races_only table = true ->
  let R := Z.of_nat (List.length (readable table)) in
  exists res,
    result (get_top_processes table now num sort_by w) = Val res
    /\ Z.of_nat (List.length res)
       = if (num <? 0)%Z then Z.max 0 (R + num) else Z.min num R.
Proof.
  intros Hok R.
  destruct (get_top_processes_result table now num sort_by w Hok)
    as (w1 & recs & Hrecs & Hres).
  eexists. split; [exact Hres|].
  rewrite slice_to_length.
  assert (List.length (rank sort_by recs) = List.length (readable table))
    as Hlen.
  { rewrite (Permutation_length (rank_perm sort_by recs)).
    rewrite <- (length_map pid recs), (@collect_pids table Hok w1 recs Hrecs).
    apply length_map. }
  rewrite Hlen. reflexivity.
Qed.

Lemma number_of_records_returned_witness :
  exists res,
    result (get_top_processes three_processes 100 (-1) "cpu"
              (fresh (init no_traffic None 0))) = Val res
    /\ Z.of_nat (List.length res) = 2%Z.
Proof.
  destruct (@number_of_records_returned three_processes 100 (-1) "cpu"
              (fresh (init no_traffic None 0)) eq_refl) as (res & Hres & Hlen).
  exists res. split; [exact Hres | exact Hlen].
Defined.
